(** * sh-server: access gating, path validation and folder synthesis

    A shallow embedding of the request handlers of package [srv]
    (server.go and api.go) together with the storage queries they call,
    followed by the properties of the specification that were checked
    against them. *)

From Stdlib Require Import String Ascii ZArith Lia.
From stdpp Require Import base option list gmap strings sorting pretty.

Open Scope string_scope.
Open Scope list_scope.
Set Warnings "-register-all,-clear-no-such-hyp".

(* ===================================================================== *)
(** * Go's [strings] package, on byte strings *)
(* ===================================================================== *)

Module GoStrings.

  (** [s[n:]] and [s[:n]], clipped at the end of the string. *)
Fixpoint slice_from (n : nat) (s : string) : string :=
    match n, s with
    | O, _ => s
    | S _, EmptyString => EmptyString
    | S k, String _ s' => slice_from k s'
    end.

Fixpoint slice_to (n : nat) (s : string) : string :=
    match n, s with
    | O, _ => EmptyString
    | S _, EmptyString => EmptyString
    | S k, String c s' => String c (slice_to k s')
    end.

  (** [len(s) >= len(prefix) && s[:len(prefix)] == prefix] *)
Definition HasPrefix (s prefix : string) : bool :=
    (String.length prefix <=? String.length s)%nat
    && bool_decide (slice_to (String.length prefix) s = prefix).

  (** [len(s) >= len(suffix) && s[len(s)-len(suffix):] == suffix] *)
Definition HasSuffix (s suffix : string) : bool :=
    (String.length suffix <=? String.length s)%nat
    && bool_decide (slice_from (String.length s - String.length suffix) s = suffix).

Definition TrimPrefix (s prefix : string) : string :=
    if HasPrefix s prefix then slice_from (String.length prefix) s else s.

Fixpoint Contains (s substr : string) : bool :=
    HasPrefix s substr
    || match s with
       | EmptyString => false
       | String _ s' => Contains s' substr
       end.

  (** [Split] for a non-empty separator: cut at every non-overlapping
      occurrence, left to right.  [skip] counts the bytes of a separator
      that was just matched and is still to be passed over; [cur] is the
      piece being accumulated.  (With an empty separator Go explodes the
      string into UTF-8 sequences; the server never does that.) *)
Fixpoint split_go (sep : string) (s : string) (skip : nat) (cur : string)
    : list string :=
    match s with
    | EmptyString => [cur]
    | String c s' =>
        match skip with
        | S k => split_go sep s' k cur
        | O =>
            if HasPrefix s sep
            then cur :: split_go sep s' (String.length sep - 1) EmptyString
            else split_go sep s' O (cur +:+ String c EmptyString)
        end
    end.

Definition Split (s sep : string) : list string := split_go sep s O EmptyString.

Fixpoint Join (elems : list string) (sep : string) : string :=
    match elems with
    | [] => EmptyString
    | [e] => e
    | e :: rest => e +:+ sep +:+ Join rest sep
    end.

  (** Every byte of the string satisfies [p]. *)
Fixpoint all_bytes (p : ascii -> bool) (s : string) : bool :=
    match s with
    | EmptyString => true
    | String c s' => p c && all_bytes p s'
    end.

  (** Lower-casing restricted to the ASCII letters. *)
Definition ascii_lower (c : ascii) : ascii :=
    let n := nat_of_ascii c in
    if ((65 <=? n) && (n <=? 90))%nat then ascii_of_nat (n + 32) else c.

Fixpoint map_bytes (f : ascii -> ascii) (s : string) : string :=
    match s with
    | EmptyString => EmptyString
    | String c s' => String (f c) (map_bytes f s')
    end.

End GoStrings.

Import GoStrings.

(* ===================================================================== *)
(** * External collaborators *)
(* ===================================================================== *)

(** Wall-clock instants, in nanoseconds. *)
Definition Time := Z.

(** [5 * time.Minute] *)
Definition five_minutes : Z := 5 * 60 * 1000000000.

(** Library functions the handlers call but whose bodies are outside the
    repository, and the two sources of non-determinism of a request
    (the clock and the UUID generator), read through a counter. *)
Class Libs := {
  (** [strings.ToLower] (Unicode aware) *)
  ToLower : string -> string;
  (** [bcrypt.CompareHashAndPassword(hash, password) == nil] *)
  CompareHashAndPassword : string -> string -> bool;
  (** [bcrypt.GenerateFromPassword(password, bcrypt.DefaultCost)] *)
  GenerateFromPassword : string -> option string;
  (** [t.Format(time.RFC3339)] *)
  FormatRFC3339 : Time -> string;
  (** the n-th value returned by [uuid.New().String()] *)
  uuid_at : nat -> string;
  (** the n-th value returned by [time.Now()] *)
  time_at : nat -> Time
}.

(** A concrete instance used to run the handlers on examples: ASCII
    lower-casing, a password "hash" that is the password behind a tag,
    and counters printed in decimal. *)
Definition exampleLibs : Libs := {|
  ToLower := map_bytes ascii_lower;
  CompareHashAndPassword := fun hash password => bool_decide (hash = "$2a$" +:+ password);
  GenerateFromPassword := fun password => Some ("$2a$" +:+ password);
  FormatRFC3339 := fun t => pretty t;
  uuid_at := fun n => "uuid-" +:+ pretty n;
  time_at := fun n => (1000 + Z.of_nat n)%Z
|}.

(* ===================================================================== *)
(** * net/http: requests and responses *)
(* ===================================================================== *)

(** First value stored under a key; the empty string when absent
    ([http.Header.Get], [url.Values.Get]). *)
Fixpoint Get (kvs : list (string * string)) (key : string) : string :=
  match kvs with
  | [] => ""
  | (k, v) :: rest => if bool_decide (k = key) then v else Get rest key
  end.

Record Request := {
  Method : string;
  URLPath : string;
  Query : list (string * string);
  Header : list (string * string);
  RemoteAddr : string;
  PathValueId : string
}.

(* ===================================================================== *)
(** * server.go: content negotiation, path validation, admin guard *)
(* ===================================================================== *)

Record Server := {
  Hostname : string;
  AdminToken : string
}.

Definition cliPatterns : list string :=
  ["curl"; "wget"; "httpie"; "fetch"; "libfetch"; "aria2"; "python-requests"; "go-http-client"].

Section negotiation.
Context `{!Libs}.

  (** [isCLI]: the request comes from a command-line client. *)
Definition isCLI (r : Request) : bool :=
    let ua := ToLower (Get (Header r) "User-Agent") in
    if existsb (fun p => Contains ua p) cliPatterns then true
    else
      let accept := Get (Header r) "Accept" in
      if Contains accept "text/html" then false
      else if bool_decide (ua = "") && negb (Contains accept "text/html") then true
      else false.
End negotiation.

(** The character class [[a-zA-Z0-9_/.-]]. *)
Definition validPathByte (c : ascii) : bool :=
  let n := nat_of_ascii c in
  ((97 <=? n) && (n <=? 122) || (65 <=? n) && (n <=? 90) || (48 <=? n) && (n <=? 57)
   || (n =? 95) || (n =? 47) || (n =? 46) || (n =? 45))%nat.

(** [regexp.MustCompile(`^[a-zA-Z0-9_/.-]+$`).MatchString] *)
Definition validPath_MatchString (s : string) : bool :=
  negb (bool_decide (s = "")) && all_bytes validPathByte s.

(** [validatePath]: [None] is Go's [nil] error. *)
Definition validatePath (path : string) : option string :=
  if negb (HasPrefix path "/") then Some "path must start with /"
  else if negb (HasSuffix path ".sh") then Some "path must end with .sh"
  else if negb (validPath_MatchString path) then Some "path contains invalid characters"
  else None.


(* ===================================================================== *)
(** * Storage: the tables of db/migrations/001-base.sql *)
(* ===================================================================== *)

Module Script.
Record t := {
  ID : string;
  Path : string;
  Name : string;
  Content : string;
  Description : option string;
  Tags : option string;
  Locked : Z;
  PasswordHash : option string;
  DangerLevel : option Z;
  Requires : option string;
  Examples : option string;
  Favorite : Z;
  CreatedAt : Time;
  UpdatedAt : Time
}.
End Script.

Module Folder.
Record t := {
  ID : string;
  Path : string;
  Name : string;
  CreatedAt : Time
}.
End Folder.

Module AuthToken.
Record t := {
  Token : string;
  ScriptID : string;
  ExpiresAt : Time;
  CreatedAt : Time;
  IpAddress : option string;
  UserAgent : option string
}.
End AuthToken.

Module AuditLog.
Record t := {
  Action : string;
  EntityType : string;
  EntityID : option string;
  EntityPath : option string;
  Details : option string;
  IpAddress : option string;
  UserAgent : option string;
  CreatedAt : Time
}.
End AuditLog.

Module ScriptVersion.
Record t := {
  ScriptID : string;
  Content : string;
  Version : Z;
  CreatedAt : Time
}.
End ScriptVersion.

(** The database.  [scripts] and [folders] keep their rows in insertion
    order; both have a primary key on [id] and a UNIQUE constraint on
    [path], enforced by the insert and update queries below.
    [auth_tokens] has its primary key on [token].  [audit_log] and
    [script_versions] are append-only with an autoincrement key. *)
Record DB := {
  scripts : list Script.t;
  folders : list Folder.t;
  auth_tokens : gmap string AuthToken.t;
  audit_log : list AuditLog.t;
  script_versions : list ScriptVersion.t
}.

Definition set_scripts (d : DB) (v : list Script.t) : DB :=
  {| scripts := v; folders := folders d; auth_tokens := auth_tokens d;
     audit_log := audit_log d; script_versions := script_versions d |}.

Definition set_folders (d : DB) (v : list Folder.t) : DB :=
  {| scripts := scripts d; folders := v; auth_tokens := auth_tokens d;
     audit_log := audit_log d; script_versions := script_versions d |}.

Definition set_auth_tokens (d : DB) (v : gmap string AuthToken.t) : DB :=
  {| scripts := scripts d; folders := folders d; auth_tokens := v;
     audit_log := audit_log d; script_versions := script_versions d |}.

Definition set_audit_log (d : DB) (v : list AuditLog.t) : DB :=
  {| scripts := scripts d; folders := folders d; auth_tokens := auth_tokens d;
     audit_log := v; script_versions := script_versions d |}.

Definition set_script_versions (d : DB) (v : list ScriptVersion.t) : DB :=
  {| scripts := scripts d; folders := folders d; auth_tokens := auth_tokens d;
     audit_log := audit_log d; script_versions := v |}.

(** ** Queries (db/queries/*.sql).  A [:one] query returns [None] for
    [sql.ErrNoRows]; an [:exec] query returns [None] when a constraint
    rejects the statement and the new database otherwise. *)

(** [SELECT * FROM scripts WHERE id = ?] *)
Definition GetScript (d : DB) (id : string) : option Script.t :=
  find (fun s => bool_decide (Script.ID s = id)) (scripts d).

(** [SELECT * FROM scripts WHERE path = ?] *)
Definition GetScriptByPath (d : DB) (path : string) : option Script.t :=
  find (fun s => bool_decide (Script.Path s = path)) (scripts d).

(** [SELECT * FROM scripts ORDER BY path] *)
Definition ListScripts (d : DB) : list Script.t :=
  merge_sort (fun a b => String.le (Script.Path a) (Script.Path b)) (scripts d).

(** [INSERT INTO scripts ...] *)
Definition CreateScript (d : DB) (row : Script.t) : option DB :=
  if existsb (fun s => bool_decide (Script.ID s = Script.ID row)
                       || bool_decide (Script.Path s = Script.Path row)) (scripts d)
  then None
  else Some (set_scripts d (scripts d ++ [row])).

Record UpdateScriptParams := {
  usp_Path : string;
  usp_Name : string;
  usp_Content : string;
  usp_Description : option string;
  usp_Tags : option string;
  usp_Locked : Z;
  usp_PasswordHash : option string;
  usp_DangerLevel : option Z;
  usp_Requires : option string;
  usp_Examples : option string;
  usp_UpdatedAt : Time;
  usp_ID : string
}.

Definition apply_update (p : UpdateScriptParams) (s : Script.t) : Script.t :=
  if bool_decide (Script.ID s = usp_ID p)
  then {| Script.ID := Script.ID s;
          Script.Path := usp_Path p;
          Script.Name := usp_Name p;
          Script.Content := usp_Content p;
          Script.Description := usp_Description p;
          Script.Tags := usp_Tags p;
          Script.Locked := usp_Locked p;
          Script.PasswordHash := usp_PasswordHash p;
          Script.DangerLevel := usp_DangerLevel p;
          Script.Requires := usp_Requires p;
          Script.Examples := usp_Examples p;
          Script.Favorite := Script.Favorite s;
          Script.CreatedAt := Script.CreatedAt s;
          Script.UpdatedAt := usp_UpdatedAt p |}
  else s.

(** [UPDATE scripts SET path = ?, ... WHERE id = ?]: rejected when the
    new path belongs to another row. *)
Definition UpdateScript (d : DB) (p : UpdateScriptParams) : option DB :=
  if existsb (fun s => bool_decide (Script.ID s = usp_ID p)) (scripts d)
     && existsb (fun s => negb (bool_decide (Script.ID s = usp_ID p))
                          && bool_decide (Script.Path s = usp_Path p)) (scripts d)
  then None
  else Some (set_scripts d (map (apply_update p) (scripts d))).

(** [SELECT * FROM folders WHERE path = ?] *)
Definition GetFolderByPath (d : DB) (path : string) : option Folder.t :=
  find (fun f => bool_decide (Folder.Path f = path)) (folders d).

(** [SELECT * FROM folders ORDER BY path] *)
Definition ListFolders (d : DB) : list Folder.t :=
  merge_sort (fun a b => String.le (Folder.Path a) (Folder.Path b)) (folders d).

(** [INSERT INTO folders (id, path, name, created_at) VALUES ...] *)
Definition CreateFolder (d : DB) (row : Folder.t) : option DB :=
  if existsb (fun f => bool_decide (Folder.ID f = Folder.ID row)
                       || bool_decide (Folder.Path f = Folder.Path row)) (folders d)
  then None
  else Some (set_folders d (folders d ++ [row])).

(** [SELECT * FROM auth_tokens WHERE token = ?] *)
Definition GetAuthToken (d : DB) (token : string) : option AuthToken.t :=
  auth_tokens d !! token.

(** [INSERT INTO auth_tokens ...] *)
Definition CreateAuthToken (d : DB) (row : AuthToken.t) : option DB :=
  match auth_tokens d !! AuthToken.Token row with
  | Some _ => None
  | None => Some (set_auth_tokens d (<[AuthToken.Token row := row]> (auth_tokens d)))
  end.

(** [INSERT INTO audit_log ...] *)
Definition CreateAuditLog (d : DB) (row : AuditLog.t) : option DB :=
  Some (set_audit_log d (audit_log d ++ [row])).

(** [INSERT INTO script_versions ...] *)
Definition CreateVersion (d : DB) (row : ScriptVersion.t) : option DB :=
  Some (set_script_versions d (script_versions d ++ [row])).

Definition version_ge (a b : ScriptVersion.t) : Prop :=
  (ScriptVersion.Version b <= ScriptVersion.Version a)%Z.

#[global] Instance version_ge_dec : RelDecision version_ge.
Proof. intros a b. unfold version_ge. apply _. Defined.

(** [SELECT * FROM script_versions WHERE script_id = ? ORDER BY version DESC] *)
Definition ListVersions (d : DB) (id : string) : list ScriptVersion.t :=
  merge_sort version_ge
    (filter (fun v => ScriptVersion.ScriptID v = id) (script_versions d)).

(* ===================================================================== *)
(** * The handler monad: database, UUID generator and clock *)
(* ===================================================================== *)

Record World := {
  db : DB;
  uuids : nat;   (** how many UUIDs have been drawn *)
  ticks : nat    (** how many times the clock has been read *)
}.

Definition M (A : Type) : Type := World -> A * World.

#[global] Instance M_ret : MRet M := fun A x w => (x, w).

#[global] Instance M_bind : MBind M :=
  fun A B f m w => let '(x, w') := m w in f x w'.

Definition getDB : M DB := fun w => (db w, w).

(** Run an [:exec] query; the result is [true] when it returned no error. *)
Definition exec (q : DB -> option DB) : M bool :=
  fun w =>
    match q (db w) with
    | Some d' => (true, {| db := d'; uuids := uuids w; ticks := ticks w |})
    | None => (false, w)
    end.

Section effects.
Context `{!Libs}.

(** [time.Now()] *)
Definition now : M Time :=
  fun w => (time_at (ticks w), {| db := db w; uuids := uuids w; ticks := S (ticks w) |}).

(** [uuid.New().String()] *)
Definition newUUID : M string :=
  fun w => (uuid_at (uuids w), {| db := db w; uuids := S (uuids w); ticks := ticks w |}).

End effects.

(** [for _, x := range l { body(x) }] *)
Fixpoint forM_ {A : Type} (l : list A) (body : A -> M unit) : M unit :=
  match l with
  | [] => mret tt
  | x :: rest => _ ← body x; forM_ rest body
  end.

(* ===================================================================== *)
(** * Responses *)
(* ===================================================================== *)

Record catalogEntry := {
  ce_Path : string;
  ce_Name : string;
  ce_Description : string;
  ce_Tags : string;
  ce_Locked : bool
}.

Record ScriptResponse := {
  sr_ID : string;
  sr_Path : string;
  sr_Name : string;
  sr_Content : string;
  sr_Description : string;
  sr_Tags : string;
  sr_Locked : bool;
  sr_DangerLevel : Z;
  sr_Requires : string;
  sr_Examples : string;
  sr_Favorite : bool;
  sr_CreatedAt : Time;
  sr_UpdatedAt : Time
}.

(** A pointer to a [TreeNode] allocated by [APIGetTree]. *)
Abbreviation ptr := nat.

Module TreeNode.
Record t := {
  ID : string;
  Name : string;
  Path : string;
  Type_ : string;
  Locked : bool;
  Children : list ptr
}.
End TreeNode.

(** The tree reached from a node by following its [Children] pointers,
    as the JSON encoder walks it. *)
Inductive Tree := TNode (id name path type_ : string) (locked : bool) (children : list Tree).

(** What a handler wrote to its [http.ResponseWriter]. *)
Inductive Response :=
| HttpError (msg : string) (code : nat)
    (** [http.Error(w, msg, code)] *)
| PlainText (cacheControl : option string) (body : string)
    (** [Content-Type: text/plain], an optional [Cache-Control], the body *)
| PasswordPrompt (hostname scriptPath : string)
    (** the prompt script of [servePasswordPrompt], [Cache-Control: no-store] *)
| UnlockOK (token expires_at : string)
    (** the JSON object with keys [token] and [expires_at] *)
| CatalogOK (entries : list catalogEntry)
    (** the JSON array of catalog entries, [Cache-Control: max-age=60] *)
| ScriptOK (code : nat) (s : ScriptResponse)
| TreeOK (root : option Tree).

Inductive JSON :=
| JString (s : string)
| JBool (b : bool).

(** [encoding/json] on a [catalogEntry]: [description] and [tags] carry
    [omitempty]. *)
Definition json_catalogEntry (e : catalogEntry) : list (string * JSON) :=
  [("path", JString (ce_Path e)); ("name", JString (ce_Name e))]
  ++ (if bool_decide (ce_Description e = "") then [] else [("description", JString (ce_Description e))])
  ++ (if bool_decide (ce_Tags e = "") then [] else [("tags", JString (ce_Tags e))])
  ++ [("locked", JBool (ce_Locked e))].

(* ===================================================================== *)
(** * server.go: the handlers *)
(* ===================================================================== *)

Definition Handler := Request -> M Response.

Definition StatusBadRequest : nat := 400.
Definition StatusUnauthorized : nat := 401.
Definition StatusNotFound : nat := 404.
Definition StatusMethodNotAllowed : nat := 405.
Definition StatusConflict : nat := 409.
Definition StatusInternalServerError : nat := 500.
Definition StatusCreated : nat := 201.
Definition StatusOK : nat := 200.

(** [adminOnly] *)
Definition adminOnly (s : Server) (next : Handler) : Handler :=
  fun r =>
    let token := Get (Header r) "X-Admin-Token" in
    let token :=
      if bool_decide (token = "")
      then TrimPrefix (Get (Header r) "Authorization") "Bearer "
      else token in
    if negb (bool_decide (AdminToken s = "")) && negb (bool_decide (token = AdminToken s))
    then mret (HttpError "Unauthorized" StatusUnauthorized)
    else next r.

Definition newline : string := String (ascii_of_nat 10) EmptyString.

(** The loop [for i := 0; i < max; i++ { fmt.Fprintf(w, "%s\n", lines[i]) }];
    [n] counts the iterations still to run. *)
Fixpoint print_lines (lines : list string) (i n : nat) (out : string) : string :=
  match n with
  | O => out
  | S n' => print_lines lines (S i) n' (out +:+ nth i lines "" +:+ newline)
  end.

(** The body written by the preview branch of [HandleScript]. *)
Definition previewBody (script : Script.t) : string :=
  let out := "# " +:+ Script.Name script +:+ newline in
  let out :=
    match Script.Description script with
    | Some d => if negb (bool_decide (d = "")) then out +:+ "# " +:+ d +:+ newline else out
    | None => out
    end in
  let out :=
    match Script.Tags script with
    | Some t => if negb (bool_decide (t = "")) then out +:+ "# Tags: " +:+ t +:+ newline else out
    | None => out
    end in
  let out := out +:+ newline +:+ "# Content:" +:+ newline in
  let lines := Split (Script.Content script) newline in
  let max := 20 in
  let max := if (length lines <? max)%nat then length lines else max in
  let out := print_lines lines 0 max out in
  if (max <? length lines)%nat
  then out +:+ newline +:+ "... (" +:+ pretty (length lines - max) +:+ " more lines)" +:+ newline
  else out.

(** [servePasswordPrompt] *)
Definition servePasswordPrompt (s : Server) (scriptPath : string) : Response :=
  PasswordPrompt (Hostname s) scriptPath.

Section handlers.
Context `{!Libs}.

(** [HandleScript] *)
Definition HandleScript (s : Server) : Handler :=
  fun r =>
    let path := URLPath r in
    let path := if negb (HasPrefix path "/") then "/" +:+ path else path in
    d ← getDB;
    match GetScriptByPath d path with
    | None => mret (HttpError "Script not found" StatusNotFound)
    | Some script =>
        if bool_decide (Get (Query r) "preview" = "1")
        then mret (PlainText None (previewBody script))
        else if negb (Script.Locked script =? 0)%Z
        then
          let token := Get (Query r) "token" in
          let token :=
            if bool_decide (token = "")
            then TrimPrefix (Get (Header r) "Authorization") "Bearer "
            else token in
          valid ←
            (if negb (bool_decide (token = ""))
             then
               match GetAuthToken d token with
               | Some authToken =>
                   if bool_decide (AuthToken.ScriptID authToken = Script.ID script)
                   then t ← now; mret (t <? AuthToken.ExpiresAt authToken)%Z
                   else mret false
               | None => mret false
               end
             else mret false);
          if (valid : bool)
          then mret (PlainText (Some "no-store") (Script.Content script))
          else mret (servePasswordPrompt s path)
        else mret (PlainText (Some "max-age=60") (Script.Content script))
    end.

Record UnlockRequest := {
  ur_Path : string;
  ur_Password : string
}.

(** [HandleUnlock]; [body] is the result of decoding the JSON request
    body into the handler's struct, [None] when decoding fails. *)
Definition HandleUnlock (s : Server) (body : option UnlockRequest) : Handler :=
  fun r =>
    if negb (bool_decide (Method r = "POST"))
    then mret (HttpError "Method not allowed" StatusMethodNotAllowed)
    else
      match body with
      | None => mret (HttpError "Invalid request body" StatusBadRequest)
      | Some req =>
          d ← getDB;
          match GetScriptByPath d (ur_Path req) with
          | None => mret (HttpError "Script not found" StatusNotFound)
          | Some script =>
              if (Script.Locked script =? 0)%Z
              then mret (HttpError "Script is not locked" StatusBadRequest)
              else
                match Script.PasswordHash script with
                | None => mret (HttpError "Script has no password set" StatusInternalServerError)
                | Some hash =>
                    if negb (CompareHashAndPassword hash (ur_Password req))
                    then
                      t ← now;
                      _ ← exec (fun d => CreateAuditLog d
                             {| AuditLog.Action := "UNLOCK_FAILED";
                                AuditLog.EntityType := "script";
                                AuditLog.EntityID := Some (Script.ID script);
                                AuditLog.EntityPath := Some (ur_Path req);
                                AuditLog.Details := None;
                                AuditLog.IpAddress := Some (RemoteAddr r);
                                AuditLog.UserAgent := Some (Get (Header r) "User-Agent");
                                AuditLog.CreatedAt := t |});
                      mret (HttpError "Invalid password" StatusUnauthorized)
                    else
                      token ← newUUID;
                      t0 ← now;
                      let expiresAt := (t0 + five_minutes)%Z in
                      t1 ← now;
                      ok ← exec (fun d => CreateAuthToken d
                             {| AuthToken.Token := token;
                                AuthToken.ScriptID := Script.ID script;
                                AuthToken.ExpiresAt := expiresAt;
                                AuthToken.CreatedAt := t1;
                                AuthToken.IpAddress := Some (RemoteAddr r);
                                AuthToken.UserAgent := Some (Get (Header r) "User-Agent") |});
                      if negb ok
                      then mret (HttpError "Failed to create token" StatusInternalServerError)
                      else
                        t2 ← now;
                        _ ← exec (fun d => CreateAuditLog d
                               {| AuditLog.Action := "UNLOCK_SUCCESS";
                                  AuditLog.EntityType := "script";
                                  AuditLog.EntityID := Some (Script.ID script);
                                  AuditLog.EntityPath := Some (ur_Path req);
                                  AuditLog.Details := None;
                                  AuditLog.IpAddress := Some (RemoteAddr r);
                                  AuditLog.UserAgent := Some (Get (Header r) "User-Agent");
                                  AuditLog.CreatedAt := t2 |});
                        mret (UnlockOK token (FormatRFC3339 expiresAt))
                end
          end
      end.

(** The projection loop of [HandleCatalog]. *)
Definition catalogEntry_of (s : Script.t) : catalogEntry :=
  let e := {| ce_Path := Script.Path s; ce_Name := Script.Name s;
              ce_Description := ""; ce_Tags := "";
              ce_Locked := negb (Script.Locked s =? 0)%Z |} in
  let e :=
    match Script.Description s with
    | Some d => {| ce_Path := ce_Path e; ce_Name := ce_Name e; ce_Description := d;
                   ce_Tags := ce_Tags e; ce_Locked := ce_Locked e |}
    | None => e
    end in
  match Script.Tags s with
  | Some t => {| ce_Path := ce_Path e; ce_Name := ce_Name e; ce_Description := ce_Description e;
                 ce_Tags := t; ce_Locked := ce_Locked e |}
  | None => e
  end.

(** [HandleCatalog] *)
Definition HandleCatalog (s : Server) : Handler :=
  fun r =>
    d ← getDB;
    let scripts := ListScripts d in
    mret (CatalogOK (map catalogEntry_of scripts)).

End handlers.

(* ===================================================================== *)
(** * api.go: the admin API *)
(* ===================================================================== *)

(** [path/filepath.Base] with [/] as the separator. *)
Fixpoint strip_trailing_slashes (s : string) : string :=
  match s with
  | EmptyString => EmptyString
  | String c s' =>
      let rest := strip_trailing_slashes s' in
      if bool_decide (rest = "") && bool_decide (c = "/"%char) then EmptyString
      else String c rest
  end.

Definition filepath_Base (path : string) : string :=
  if bool_decide (path = "") then "."
  else
    let path := List.last (Split (strip_trailing_slashes path) "/") "" in
    if bool_decide (path = "") then "/" else path.

(** [extractName] *)
Definition extractName (path : string) : string := filepath_Base path.

(** [scriptToResponse] *)
Definition scriptToResponse (s : Script.t) : ScriptResponse :=
  {| sr_ID := Script.ID s;
     sr_Path := Script.Path s;
     sr_Name := Script.Name s;
     sr_Content := Script.Content s;
     sr_Description := default "" (Script.Description s);
     sr_Tags := default "" (Script.Tags s);
     sr_Locked := negb (Script.Locked s =? 0)%Z;
     sr_DangerLevel := default 0%Z (Script.DangerLevel s);
     sr_Requires := default "" (Script.Requires s);
     sr_Examples := default "" (Script.Examples s);
     sr_Favorite := negb (Script.Favorite s =? 0)%Z;
     sr_CreatedAt := Script.CreatedAt s;
     sr_UpdatedAt := Script.UpdatedAt s |}.

(** The zero value of [dbgen.Script], left in place when a query fails
    and its error is dropped. *)
Definition zeroScript : Script.t :=
  {| Script.ID := ""; Script.Path := ""; Script.Name := ""; Script.Content := "";
     Script.Description := None; Script.Tags := None; Script.Locked := 0;
     Script.PasswordHash := None; Script.DangerLevel := None;
     Script.Requires := None; Script.Examples := None; Script.Favorite := 0;
     Script.CreatedAt := 0%Z; Script.UpdatedAt := 0%Z |}.

(** [CreateScriptRequest] and [UpdateScriptRequest] have the same fields. *)
Record ScriptRequest := {
  req_Path : string;
  req_Content : string;
  req_Description : string;
  req_Tags : string;
  req_Locked : bool;
  req_Password : string;
  req_DangerLevel : Z;
  req_Requires : string;
  req_Examples : string
}.

(** [int64] arithmetic wraps around. *)
Definition wrap64 (z : Z) : Z := ((z + 2 ^ 63) mod 2 ^ 64 - 2 ^ 63)%Z.

(** [getParentPath] *)
Definition getParentPath (path : string) : string :=
  if bool_decide (path = "/") then "/"
  else
    let parts := Split (TrimPrefix path "/") "/" in
    if (length parts <=? 1)%nat then "/"
    else "/" +:+ Join (take (length parts - 1) parts) "/".

Section api.
Context `{!Libs}.

(** One iteration of the loop of [ensureFolders], for index [i]. *)
Definition ensureFolder (parts : list string) (i : nat) : M unit :=
  let folderPath := "/" +:+ Join (take i parts) "/" in
  let folderName := nth (i - 1) parts "" in
  d ← getDB;
  match GetFolderByPath d folderPath with
  | Some _ => mret tt
  | None =>
      id ← newUUID;
      t ← now;
      _ ← exec (fun d => CreateFolder d
             {| Folder.ID := id; Folder.Path := folderPath;
                Folder.Name := folderName; Folder.CreatedAt := t |});
      mret tt
  end.

(** [ensureFolders]: creates all parent folders for a script path. *)
Definition ensureFolders (scriptPath : string) : M unit :=
  let parts := Split (TrimPrefix scriptPath "/") "/" in
  if (length parts <=? 1)%nat then mret tt
  else forM_ (seq 1 (length parts - 1)) (ensureFolder parts).

(** [APICreateScript]; [body] is the decoded request body. *)
Definition APICreateScript (s : Server) (body : option ScriptRequest) : Handler :=
  fun r =>
    match body with
    | None => mret (HttpError "Invalid request body" StatusBadRequest)
    | Some req =>
        match validatePath (req_Path req) with
        | Some err => mret (HttpError err StatusBadRequest)
        | None =>
            let hashed :=
              if req_Locked req && negb (bool_decide (req_Password req = ""))
              then match GenerateFromPassword (req_Password req) with
                   | Some h => Some (Some h)
                   | None => None
                   end
              else Some None in
            match hashed with
            | None => mret (HttpError "Failed to hash password" StatusInternalServerError)
            | Some passwordHash =>
                t ← now;
                id ← newUUID;
                let name := extractName (req_Path req) in
                let lockedInt := if req_Locked req then 1%Z else 0%Z in
                _ ← ensureFolders (req_Path req);
                ok ← exec (fun d => CreateScript d
                       {| Script.ID := id; Script.Path := req_Path req; Script.Name := name;
                          Script.Content := req_Content req;
                          Script.Description := Some (req_Description req);
                          Script.Tags := Some (req_Tags req);
                          Script.Locked := lockedInt;
                          Script.PasswordHash := passwordHash;
                          Script.DangerLevel := Some (req_DangerLevel req);
                          Script.Requires := Some (req_Requires req);
                          Script.Examples := Some (req_Examples req);
                          Script.Favorite := 0;
                          Script.CreatedAt := t; Script.UpdatedAt := t |});
                if negb ok
                then mret (HttpError "Script with this path already exists" StatusConflict)
                else
                  _ ← exec (fun d => CreateVersion d
                         {| ScriptVersion.ScriptID := id; ScriptVersion.Content := req_Content req;
                            ScriptVersion.Version := 1; ScriptVersion.CreatedAt := t |});
                  _ ← exec (fun d => CreateAuditLog d
                         {| AuditLog.Action := "CREATE"; AuditLog.EntityType := "script";
                            AuditLog.EntityID := Some id;
                            AuditLog.EntityPath := Some (req_Path req);
                            AuditLog.Details := None; AuditLog.IpAddress := None;
                            AuditLog.UserAgent := None; AuditLog.CreatedAt := t |});
                  d ← getDB;
                  let script := default zeroScript (GetScript d id) in
                  mret (ScriptOK StatusCreated (scriptToResponse script))
            end
        end
    end.

(** [APIUpdateScript]; the script id is the [{id}] segment of the route. *)
Definition APIUpdateScript (s : Server) (body : option ScriptRequest) : Handler :=
  fun r =>
    let id := PathValueId r in
    match body with
    | None => mret (HttpError "Invalid request body" StatusBadRequest)
    | Some req =>
        match validatePath (req_Path req) with
        | Some err => mret (HttpError err StatusBadRequest)
        | None =>
            d ← getDB;
            match GetScript d id with
            | None => mret (HttpError "Script not found" StatusNotFound)
            | Some existing =>
                let hashed :=
                  if req_Locked req
                  then if negb (bool_decide (req_Password req = ""))
                       then match GenerateFromPassword (req_Password req) with
                            | Some h => Some (Some h)
                            | None => None
                            end
                       else Some (Script.PasswordHash existing)
                  else Some None in
                match hashed with
                | None => mret (HttpError "Failed to hash password" StatusInternalServerError)
                | Some passwordHash =>
                    t ← now;
                    let name := extractName (req_Path req) in
                    let lockedInt := if req_Locked req then 1%Z else 0%Z in
                    ok ← exec (fun d => UpdateScript d
                           {| usp_Path := req_Path req; usp_Name := name;
                              usp_Content := req_Content req;
                              usp_Description := Some (req_Description req);
                              usp_Tags := Some (req_Tags req);
                              usp_Locked := lockedInt;
                              usp_PasswordHash := passwordHash;
                              usp_DangerLevel := Some (req_DangerLevel req);
                              usp_Requires := Some (req_Requires req);
                              usp_Examples := Some (req_Examples req);
                              usp_UpdatedAt := t; usp_ID := id |});
                    if negb ok
                    then mret (HttpError "Failed to update script" StatusInternalServerError)
                    else
                      _ ← (if negb (bool_decide (Script.Content existing = req_Content req))
                           then
                             d ← getDB;
                             let versions := ListVersions d id in
                             let newVersion :=
                               match versions with
                               | v :: _ => wrap64 (ScriptVersion.Version v + 1)
                               | [] => 1%Z
                               end in
                             exec (fun d => CreateVersion d
                               {| ScriptVersion.ScriptID := id;
                                  ScriptVersion.Content := req_Content req;
                                  ScriptVersion.Version := newVersion;
                                  ScriptVersion.CreatedAt := t |})
                           else mret true);
                      _ ← exec (fun d => CreateAuditLog d
                             {| AuditLog.Action := "UPDATE"; AuditLog.EntityType := "script";
                                AuditLog.EntityID := Some id;
                                AuditLog.EntityPath := Some (req_Path req);
                                AuditLog.Details := None; AuditLog.IpAddress := None;
                                AuditLog.UserAgent := None; AuditLog.CreatedAt := t |});
                      d ← getDB;
                      let script := default zeroScript (GetScript d id) in
                      mret (ScriptOK StatusOK (scriptToResponse script))
                end
            end
        end
    end.

End api.

(** ** [APIGetTree] *)

(** The nodes allocated by the handler, addressed by allocation order;
    the root is allocated first. *)
Abbreviation Heap := (list TreeNode.t).

Definition rootNode : TreeNode.t :=
  {| TreeNode.ID := "root"; TreeNode.Name := "/"; TreeNode.Path := "/";
     TreeNode.Type_ := "folder"; TreeNode.Locked := false; TreeNode.Children := [] |}.

Definition folderNode (f : Folder.t) : TreeNode.t :=
  {| TreeNode.ID := Folder.ID f; TreeNode.Name := Folder.Name f;
     TreeNode.Path := Folder.Path f; TreeNode.Type_ := "folder";
     TreeNode.Locked := false; TreeNode.Children := [] |}.

Definition scriptNode (sc : Script.t) : TreeNode.t :=
  {| TreeNode.ID := Script.ID sc; TreeNode.Name := Script.Name sc;
     TreeNode.Path := Script.Path sc; TreeNode.Type_ := "script";
     TreeNode.Locked := negb (Script.Locked sc =? 0)%Z; TreeNode.Children := [] |}.

(** [node := &TreeNode{...}; nodeMap[path] = node] *)
Definition register (st : Heap * gmap string ptr) (node : TreeNode.t)
  : Heap * gmap string ptr :=
  (st.1 ++ [node], <[TreeNode.Path node := length st.1]> st.2).

(** [n.Children = cs] *)
Definition withChildren (n : TreeNode.t) (cs : list ptr) : TreeNode.t :=
  {| TreeNode.ID := TreeNode.ID n; TreeNode.Name := TreeNode.Name n;
     TreeNode.Path := TreeNode.Path n; TreeNode.Type_ := TreeNode.Type_ n;
     TreeNode.Locked := TreeNode.Locked n; TreeNode.Children := cs |}.

(** [parent.Children = append(parent.Children, node)] *)
Definition appendChild (h : Heap) (parent node : ptr) : Heap :=
  alter (fun n => withChildren n (TreeNode.Children n ++ [node])) parent h.

Definition root : ptr := 0.

(** The node map after the "Add folders" and "Add scripts" loops. *)
Definition buildNodes (d : DB) : Heap * gmap string ptr :=
  let st := ([rootNode], {["/" := root]}) in
  let st := fold_left (fun st f => register st (folderNode f)) (ListFolders d) st in
  fold_left (fun st sc => register st (scriptNode sc)) (ListScripts d) st.

(** One iteration of the "Build hierarchy" loop, at key [path]. *)
Definition attach (nodeMap : gmap string ptr) (h : Heap) (path : string) : Heap :=
  match nodeMap !! path with
  | None => h
  | Some node =>
      if bool_decide (path = "/") then h
      else
        match nodeMap !! getParentPath path with
        | Some parent => appendChild h parent node
        | None => appendChild h root node
        end
  end.

(** [for path, node := range nodeMap]: Go leaves the iteration order of a
    map unspecified, so the order in which the keys are visited is an
    input, [order]. *)
Definition buildHierarchy (nodeMap : gmap string ptr) (order : list string) (h : Heap) : Heap :=
  fold_left (attach nodeMap) order h.

(** [json.NewEncoder(w).Encode(root)]: follow the [Children] pointers. *)
Fixpoint encodeTree (fuel : nat) (h : Heap) (p : ptr) : option Tree :=
  match fuel with
  | O => None
  | S k =>
      n ← h !! p;
      children ← mapM (encodeTree k h) (TreeNode.Children n);
      Some (TNode (TreeNode.ID n) (TreeNode.Name n) (TreeNode.Path n)
                  (TreeNode.Type_ n) (TreeNode.Locked n) children)
  end.

Definition treeHeap (d : DB) (order : list string) : Heap :=
  let st := buildNodes d in buildHierarchy st.2 order st.1.

(** [APIGetTree] *)
Definition APIGetTree (s : Server) (order : list string) : Handler :=
  fun r =>
    d ← getDB;
    let h := treeHeap d order in
    mret (TreeOK (encodeTree (S (length h)) h root)).

(* ===================================================================== *)
(** * Notions used to state the properties *)
(* ===================================================================== *)

(** ** Path validation and the catalog *)

(** The grammar [^/[A-Za-z0-9_/.-]+\.sh$] of the specification. *)
Definition path_grammar (path : string) : Prop :=
  exists body, body <> "" /\ all_bytes validPathByte body = true
               /\ path = "/" +:+ body +:+ ".sh".

(** A script record with its content and password hash replaced. *)
Definition with_secrets (sc : Script.t) (content : string) (hash : option string) : Script.t :=
  {| Script.ID := Script.ID sc; Script.Path := Script.Path sc; Script.Name := Script.Name sc;
     Script.Content := content;
     Script.Description := Script.Description sc; Script.Tags := Script.Tags sc;
     Script.Locked := Script.Locked sc;
     Script.PasswordHash := hash;
     Script.DangerLevel := Script.DangerLevel sc; Script.Requires := Script.Requires sc;
     Script.Examples := Script.Examples sc; Script.Favorite := Script.Favorite sc;
     Script.CreatedAt := Script.CreatedAt sc; Script.UpdatedAt := Script.UpdatedAt sc |}.

(** ** Preview and unlocking *)

(** The lines of a text block, each closed by a newline. *)
Definition unlines (ls : list string) : string :=
  fold_right (fun l acc => l +:+ newline +:+ acc) "" ls.

(** A comment line of the preview, present when the field holds text. *)
Definition preview_field (label : string) (field : option string) : string :=
  match field with
  | Some v => if bool_decide (v = "") then "" else label +:+ v +:+ newline
  | None => ""
  end.

(** The audit row written by [HandleUnlock]. *)
Definition unlockAudit (action : string) (script : Script.t) (path : string)
    (r : Request) (t : Time) : AuditLog.t :=
  {| AuditLog.Action := action;
     AuditLog.EntityType := "script";
     AuditLog.EntityID := Some (Script.ID script);
     AuditLog.EntityPath := Some path;
     AuditLog.Details := None;
     AuditLog.IpAddress := Some (RemoteAddr r);
     AuditLog.UserAgent := Some (Get (Header r) "User-Agent");
     AuditLog.CreatedAt := t |}.

(** A client posting one unlock request per password, in order. *)
Fixpoint unlockAttempts `{!Libs} (s : Server) (r : Request) (path : string)
    (passwords : list string) : M (list Response) :=
  match passwords with
  | [] => mret []
  | password :: rest =>
      resp ← HandleUnlock s (Some {| ur_Path := path; ur_Password := password |}) r;
      resps ← unlockAttempts s r path rest;
      mret (resp :: resps)
  end.

(** ** Folder synthesis *)

(** The path of the [i]-th ancestor folder of a script path split into
    [parts], and the name given to it. *)
Definition folderPrefix (parts : list string) (i : nat) : string :=
  "/" +:+ Join (take i parts) "/".

Definition folderSegment (parts : list string) (i : nat) : string :=
  nth (i - 1) parts "".

(** The UUID generator never returns an identifier twice, nor one that
    is already the id of a folder row. *)
Definition uuids_fresh `{!Libs} (w : World) : Prop :=
  (forall n, uuids w <= n -> uuid_at n ∉ map Folder.ID (folders (db w)))
  /\ (forall n m, uuids w <= n -> uuids w <= m -> uuid_at n = uuid_at m -> n = m).

(** ** The tree *)

#[global] Instance TreeNode_eq_dec : EqDecision TreeNode.t.
Proof. solve_decision. Defined.

(** The node under which the "Build hierarchy" loop puts the node of
    key [path]: the node registered at the parent path, else the root. *)
Definition attachTarget (nodeMap : gmap string ptr) (path : string) : ptr :=
  default root (nodeMap !! getParentPath path).

(** The pointers appended to the children of node [p] while the keys of
    [order] are visited. *)
Definition childrenOf (nodeMap : gmap string ptr) (order : list string) (p : ptr) : list ptr :=
  omap (fun k =>
          node ← nodeMap !! k;
          if bool_decide (k <> "/" /\ attachTarget nodeMap k = p) then Some node else None)
       order.

(** Every key of the node map points at a node holding that key as its
    path, and no node has children yet. *)
Definition nodes_wf (st : Heap * gmap string ptr) : Prop :=
  (forall k a, st.2 !! k = Some a -> exists n, st.1 !! a = Some n /\ TreeNode.Path n = k)
  /\ Forall (fun n => TreeNode.Children n = []) st.1.

(** How deep a key sits: the length of its path without the leading
    slash.  A node's rank is one more than the depth of its key, and
    zero for the root and for nodes no key points at. *)
Definition keyDepth (k : string) : nat := String.length (TrimPrefix k "/").

Definition rank (st : Heap * gmap string ptr) (p : ptr) : nat :=
  match st.1 !! p with
  | Some n =>
      if bool_decide (st.2 !! TreeNode.Path n = Some p /\ TreeNode.Path n <> "/")
      then S (keyDepth (TreeNode.Path n))
      else 0
  | None => 0
  end.

(** Walk down a tree along a chain of node names. *)
Fixpoint descend (t : Tree) (names : list string) : option Tree :=
  match names with
  | [] => Some t
  | name :: rest =>
      match t with
      | TNode _ _ _ _ _ children =>
          child ← find (fun c => match c with
                                  | TNode _ cname _ _ _ _ => bool_decide (cname = name)
                                  end) children;
          descend child rest
      end
  end.

Definition rootOf (children : list Tree) : Tree :=
  TNode "root" "/" "/" "folder" false children.

(* ===================================================================== *)
(** * Stores and requests to run the handlers on *)
(* ===================================================================== *)

Definition demoServer : Server := {| Hostname := "sh.huny.dev"; AdminToken := "" |}.

Definition demoScript (id path name content : string) (locked : Z) (hash : option string)
  : Script.t :=
  {| Script.ID := id; Script.Path := path; Script.Name := name; Script.Content := content;
     Script.Description := Some "demo"; Script.Tags := Some "ops"; Script.Locked := locked;
     Script.PasswordHash := hash; Script.DangerLevel := Some 0%Z; Script.Requires := Some "";
     Script.Examples := Some ""; Script.Favorite := 0; Script.CreatedAt := 0%Z;
     Script.UpdatedAt := 0%Z |}.

Definition demoToken (token scriptID : string) (expires : Time) : AuthToken.t :=
  {| AuthToken.Token := token; AuthToken.ScriptID := scriptID; AuthToken.ExpiresAt := expires;
     AuthToken.CreatedAt := 0%Z; AuthToken.IpAddress := None; AuthToken.UserAgent := None |}.

Definition demoFolder (id path name : string) : Folder.t :=
  {| Folder.ID := id; Folder.Path := path; Folder.Name := name; Folder.CreatedAt := 0%Z |}.

(** A public script, two scripts locked with the password [hunter2],
    and two tokens for the first of them, one of which has expired by
    the first clock reading of [exampleLibs]; no folder rows. *)
Definition demoDB : DB :=
  {| scripts := [demoScript "s-pub" "/x.sh" "x.sh" "echo x" 0 None;
                 demoScript "s-a" "/a/secret.sh" "secret.sh" "echo a" 1 (Some "$2a$hunter2");
                 demoScript "s-b" "/b/secret.sh" "secret.sh" "echo b" 1 (Some "$2a$hunter2")];
     folders := [];
     auth_tokens := <["tok-a" := demoToken "tok-a" "s-a" 5000%Z]>
                      (<["tok-old" := demoToken "tok-old" "s-a" 1000%Z]> ∅);
     audit_log := [];
     script_versions := [] |}.

Definition demoWorld : World := {| db := demoDB; uuids := 0; ticks := 0 |}.

Definition demoGet (path : string) (query header : list (string * string)) : Request :=
  {| Method := "GET"; URLPath := path; Query := query; Header := header;
     RemoteAddr := "10.0.0.1:4000"; PathValueId := "" |}.

Definition demoPost : Request :=
  {| Method := "POST"; URLPath := "/_auth/unlock"; Query := [];
     Header := [("User-Agent", "curl/8.4.0")];
     RemoteAddr := "10.0.0.1:4000"; PathValueId := "" |}.

(** The admin request that moves the public script of the demo store,
    id [s-pub], from [/x.sh] to [/a/b/c.sh]. *)
Definition demoMove : ScriptRequest :=
  {| req_Path := "/a/b/c.sh"; req_Content := "echo x"; req_Description := "demo";
     req_Tags := "ops"; req_Locked := false; req_Password := ""; req_DangerLevel := 0%Z;
     req_Requires := ""; req_Examples := "" |}.

Definition demoPut (id : string) : Request :=
  {| Method := "PUT"; URLPath := "/api/scripts/" +:+ id; Query := []; Header := [];
     RemoteAddr := "10.0.0.1:4000"; PathValueId := id |}.

(** Folders [/a] and [/a/b], scripts [/a/b/c.sh] and [/x.sh]. *)
Definition treeDB : DB :=
  {| scripts := [demoScript "s-c" "/a/b/c.sh" "c.sh" "echo c" 0 None;
                 demoScript "s-x" "/x.sh" "x.sh" "echo x" 0 None];
     folders := [demoFolder "f-a" "/a" "a"; demoFolder "f-b" "/a/b" "b"];
     auth_tokens := ∅; audit_log := []; script_versions := [] |}.

Definition treeWorld : World := {| db := treeDB; uuids := 0; ticks := 0 |}.

(** The script [/a/b/c.sh] alone, with no folder rows. *)
Definition orphanDB : DB :=
  {| scripts := [demoScript "s-c" "/a/b/c.sh" "c.sh" "echo c" 0 None];
     folders := []; auth_tokens := ∅; audit_log := []; script_versions := [] |}.

Definition orphanWorld : World := {| db := orphanDB; uuids := 0; ticks := 0 |}.

Definition leaf_c : Tree := TNode "s-c" "c.sh" "/a/b/c.sh" "script" false [].

Definition leaf_x : Tree := TNode "s-x" "x.sh" "/x.sh" "script" false [].

Definition branch_a : Tree :=
  TNode "f-a" "a" "/a" "folder" false [TNode "f-b" "b" "/a/b" "folder" false [leaf_c]].

(* ===================================================================== *)
(** * Notions used for the admin API *)
(* ===================================================================== *)

(** The password hash [APICreateScript] stores for a request: [None]
    when hashing fails, [Some None] when no hash is stored. *)
Definition createHash `{!Libs} (req : ScriptRequest) : option (option string) :=
  if req_Locked req && negb (bool_decide (req_Password req = ""))
  then match GenerateFromPassword (req_Password req) with
       | Some h => Some (Some h)
       | None => None
       end
  else Some None.

(** The row [APICreateScript] inserts. *)
Definition createRow (req : ScriptRequest) (id : string) (passwordHash : option string)
    (t : Time) : Script.t :=
  {| Script.ID := id; Script.Path := req_Path req; Script.Name := extractName (req_Path req);
     Script.Content := req_Content req;
     Script.Description := Some (req_Description req);
     Script.Tags := Some (req_Tags req);
     Script.Locked := if req_Locked req then 1%Z else 0%Z;
     Script.PasswordHash := passwordHash;
     Script.DangerLevel := Some (req_DangerLevel req);
     Script.Requires := Some (req_Requires req);
     Script.Examples := Some (req_Examples req);
     Script.Favorite := 0;
     Script.CreatedAt := t; Script.UpdatedAt := t |}.

(** The audit row written by the script handlers of the admin API. *)
Definition scriptAudit (action id path : string) (t : Time) : AuditLog.t :=
  {| AuditLog.Action := action; AuditLog.EntityType := "script";
     AuditLog.EntityID := Some id; AuditLog.EntityPath := Some path;
     AuditLog.Details := None; AuditLog.IpAddress := None;
     AuditLog.UserAgent := None; AuditLog.CreatedAt := t |}.

(** No script row has this id or this path. *)
Definition script_slot_free (d : DB) (id path : string) : Prop :=
  Forall (fun sc => Script.ID sc <> id /\ Script.Path sc <> path) (scripts d).

(** The password hash [APIUpdateScript] stores: a new hash for a new
    password, the existing one when a locked script comes without
    password, none for a script that is not locked. *)
Definition updateHash `{!Libs} (req : ScriptRequest) (existing : Script.t)
  : option (option string) :=
  if req_Locked req
  then if negb (bool_decide (req_Password req = ""))
       then match GenerateFromPassword (req_Password req) with
            | Some h => Some (Some h)
            | None => None
            end
       else Some (Script.PasswordHash existing)
  else Some None.

(** The parameters [APIUpdateScript] passes to the UPDATE statement. *)
Definition updateParams (req : ScriptRequest) (id : string) (passwordHash : option string)
    (t : Time) : UpdateScriptParams :=
  {| usp_Path := req_Path req; usp_Name := extractName (req_Path req);
     usp_Content := req_Content req;
     usp_Description := Some (req_Description req);
     usp_Tags := Some (req_Tags req);
     usp_Locked := if req_Locked req then 1%Z else 0%Z;
     usp_PasswordHash := passwordHash;
     usp_DangerLevel := Some (req_DangerLevel req);
     usp_Requires := Some (req_Requires req);
     usp_Examples := Some (req_Examples req);
     usp_UpdatedAt := t; usp_ID := id |}.

(** The version number [APIUpdateScript] gives to changed content. *)
Definition nextVersion (d : DB) (id : string) : Z :=
  match ListVersions d id with
  | v :: _ => wrap64 (ScriptVersion.Version v + 1)
  | [] => 1%Z
  end.

(** No row of another script holds this path. *)
Definition path_free_for (d : DB) (id path : string) : Prop :=
  Forall (fun sc => Script.ID sc <> id -> Script.Path sc <> path) (scripts d).

(** Admin requests on the locked script [s-a] of the demo store: move it
    to [/vault/moved.sh] with new content and no new password, and the
    same with the lock taken off. *)
Definition demoRelock : ScriptRequest :=
  {| req_Path := "/vault/moved.sh"; req_Content := "echo moved"; req_Description := "demo";
     req_Tags := "ops"; req_Locked := true; req_Password := ""; req_DangerLevel := 0%Z;
     req_Requires := ""; req_Examples := "" |}.

Definition demoOpen : ScriptRequest :=
  {| req_Path := "/vault/moved.sh"; req_Content := "echo moved"; req_Description := "demo";
     req_Tags := "ops"; req_Locked := false; req_Password := ""; req_DangerLevel := 0%Z;
     req_Requires := ""; req_Examples := "" |}.

Definition demoSecretA : Script.t :=
  demoScript "s-a" "/a/secret.sh" "secret.sh" "echo a" 1 (Some "$2a$hunter2").

(* ===================================================================== *)
(** * The remaining handlers of server.go and api.go *)
(* ===================================================================== *)

Record FolderResponse := {
  fr_ID : string;
  fr_Path : string;
  fr_Name : string;
  fr_CreatedAt : Time
}.

(** What the remaining handlers write: one of the answers above, the
    embedded page, a JSON list, a folder, or an empty 204. *)
Inductive Reply :=
| Plain (resp : Response)
| HTMLPage (data : string)
    (** [Content-Type: text/html], the bytes of [templates/index.html] *)
| ScriptListOK (l : list ScriptResponse)
| FolderListOK (l : list FolderResponse)
| FolderOK (code : nat) (f : FolderResponse)
| NoContent.
    (** [w.WriteHeader(http.StatusNoContent)] *)

Definition StatusNoContent : nat := 204.

(** ** Queries *)

(** [SELECT * FROM folders WHERE id = ?] *)
Definition GetFolder (d : DB) (id : string) : option Folder.t :=
  find (fun f => bool_decide (Folder.ID f = id)) (folders d).

(** [DELETE FROM scripts WHERE id = ?].  [auth_tokens] and
    [script_versions] reference [scripts(id)] with ON DELETE CASCADE,
    which SQLite applies only on a connection that has foreign keys
    switched on; how [db.Open] opens the connection is not part of the
    handlers, so that switch is the parameter [foreign_keys]. *)
Definition DeleteScript (foreign_keys : bool) (d : DB) (id : string) : option DB :=
  let d1 := set_scripts d (filter (fun sc => Script.ID sc <> id) (scripts d)) in
  if foreign_keys
  then Some (set_script_versions
               (set_auth_tokens d1 (filter (fun kv => AuthToken.ScriptID kv.2 <> id)
                                      (auth_tokens d1)))
               (filter (fun v => ScriptVersion.ScriptID v <> id) (script_versions d1)))
  else Some d1.

(** [DELETE FROM folders WHERE path = ? OR path LIKE ? || '/%'], both
    parameters being the folder's path.  [like text pattern] is SQLite's
    LIKE operator. *)
Definition DeleteFolderByPath (like : string -> string -> bool) (d : DB) (path : string)
  : option DB :=
  Some (set_folders d
          (filter (fun f => ~ (Folder.Path f = path
                               \/ like (Folder.Path f) (path +:+ "/%") = true))
             (folders d))).

(** ** server.go *)

(** [serveHTML]; [template] is the content of [templates/index.html] in
    the embedded file system, [None] when it is not there. *)
Definition serveHTML (template : option string) : Reply :=
  match template with
  | None => Plain (HttpError "Template not found" StatusInternalServerError)
  | Some data => HTMLPage data
  end.

Section more_handlers.
Context `{!Libs}.

(** [HandleRoot] *)
Definition HandleRoot (s : Server) (template : option string) (r : Request) : M Reply :=
  if isCLI r
  then mret (Plain (PlainText None
         (("curl -fsSL https://" +:+ Hostname s +:+ "/help.sh | sh" +:+ newline)
          +:+ ("curl -fsSL https://" +:+ Hostname s +:+ "/search.sh | sh" +:+ newline))))
  else mret (serveHTML template).

(** [routeHandler] *)
Definition routeHandler (s : Server) (template : option string) (r : Request) : M Reply :=
  let path := URLPath r in
  if HasSuffix path ".sh"
  then resp ← HandleScript s r; mret (Plain resp)
  else if negb (isCLI r)
  then mret (serveHTML template)
  else mret (Plain (HttpError "404 page not found" StatusNotFound)).

(** ** api.go *)

(** [APIListScripts] *)
Definition APIListScripts (s : Server) (r : Request) : M Reply :=
  d ← getDB;
  mret (ScriptListOK (map scriptToResponse (ListScripts d))).

(** [APIGetScript] *)
Definition APIGetScript (s : Server) (r : Request) : M Reply :=
  let id := PathValueId r in
  d ← getDB;
  match GetScript d id with
  | None => mret (Plain (HttpError "Script not found" StatusNotFound))
  | Some script => mret (Plain (ScriptOK StatusOK (scriptToResponse script)))
  end.

(** [APIDeleteScript] *)
Definition APIDeleteScript (s : Server) (foreign_keys : bool) (r : Request) : M Reply :=
  let id := PathValueId r in
  d ← getDB;
  match GetScript d id with
  | None => mret (Plain (HttpError "Script not found" StatusNotFound))
  | Some script =>
      ok ← exec (fun d => DeleteScript foreign_keys d id);
      if negb ok
      then mret (Plain (HttpError "Failed to delete script" StatusInternalServerError))
      else
        t ← now;
        _ ← exec (fun d => CreateAuditLog d
               {| AuditLog.Action := "DELETE"; AuditLog.EntityType := "script";
                  AuditLog.EntityID := Some id;
                  AuditLog.EntityPath := Some (Script.Path script);
                  AuditLog.Details := None; AuditLog.IpAddress := None;
                  AuditLog.UserAgent := None; AuditLog.CreatedAt := t |});
        mret NoContent
  end.

Definition folderResponse (f : Folder.t) : FolderResponse :=
  {| fr_ID := Folder.ID f; fr_Path := Folder.Path f; fr_Name := Folder.Name f;
     fr_CreatedAt := Folder.CreatedAt f |}.

(** [APIListFolders] *)
Definition APIListFolders (s : Server) (r : Request) : M Reply :=
  d ← getDB;
  mret (FolderListOK (map folderResponse (ListFolders d))).

(** [APICreateFolder]; [body] is the decoded request body, the folder
    path. *)
Definition APICreateFolder (s : Server) (body : option string) (r : Request) : M Reply :=
  match body with
  | None => mret (Plain (HttpError "Invalid request body" StatusBadRequest))
  | Some path =>
      if negb (HasPrefix path "/")
      then mret (Plain (HttpError "Path must start with /" StatusBadRequest))
      else
        _ ← ensureFolders (path +:+ "/dummy.sh");
        d ← getDB;
        match GetFolderByPath d path with
        | None => mret (Plain (HttpError "Failed to create folder" StatusInternalServerError))
        | Some folder => mret (FolderOK StatusCreated (folderResponse folder))
        end
  end.

(** [APIDeleteFolder] *)
Definition APIDeleteFolder (s : Server) (like : string -> string -> bool) (r : Request)
  : M Reply :=
  let id := PathValueId r in
  d ← getDB;
  match GetFolder d id with
  | None => mret (Plain (HttpError "Folder not found" StatusNotFound))
  | Some folder =>
      ok ← exec (fun d => DeleteFolderByPath like d (Folder.Path folder));
      if negb ok
      then mret (Plain (HttpError "Failed to delete folder" StatusInternalServerError))
      else mret NoContent
  end.

End more_handlers.

(** A path segment: a string without a slash. *)
Definition segment (x : string) : Prop := all_bytes (fun c => negb (bool_decide (c = "/"%char))) x = true.

(** LIKE restricted to what [DeleteFolderByPath] needs of it when no
    path holds a wildcard: the pattern's only wildcard is its final [%],
    so it matches the texts that start with the rest of the pattern. *)
Definition prefixLike (text pattern : string) : bool :=
  HasPrefix text (slice_to (String.length pattern - 1) pattern).

Definition demoFolders : DB :=
  {| scripts := [demoScript "s-1" "/tools/ping.sh" "ping.sh" "ping -c1 host" 0 None];
     folders := [demoFolder "f-1" "/tools" "tools"; demoFolder "f-2" "/tools/net" "net";
                 demoFolder "f-3" "/toolshed" "toolshed"];
     auth_tokens := ∅; audit_log := []; script_versions := [] |}.

Definition demoDelete (id : string) : Request :=
  {| Method := "DELETE"; URLPath := "/api/folders/" +:+ id; Query := []; Header := [];
     RemoteAddr := "10.0.0.1:4000"; PathValueId := id |}.

(** ** The tree, by keys *)

(** In the tree that [APIGetTree] builds for the store [d], the node
    registered at key [child] is in the children list of the node [p]. *)
Definition childOf (d : DB) (order : list string) (p : ptr) (child : string) : Prop :=
  exists a np,
    (buildNodes d).2 !! child = Some a
    /\ treeHeap d order !! p = Some np
    /\ a ∈ TreeNode.Children np.

(** No folder row and no script row has the path [k]. *)
Definition no_row_at (d : DB) (k : string) : Prop :=
  GetFolderByPath d k = None /\ GetScriptByPath d k = None.

(** The demo store after [/a/b/c.sh] has been created through the API,
    and after a folder has been created at [/]. *)
Definition demoCreated : World :=
  (@APICreateScript exampleLibs demoServer (Some demoMove) (demoPut "") demoWorld).2.

Definition demoRootFolder : World :=
  (@APICreateFolder exampleLibs demoServer (Some "/") (demoGet "/api/folders" [] [])
     demoWorld).2.

(* ===================================================================== *)
(** * cmd/srv/main.go *)
(* ===================================================================== *)

(** [getEnv]; [env key] is [os.Getenv(key)], the empty string for a
    variable that is not set. *)
Definition getEnv (env : string -> string) (key fallback : string) : string :=
  let v := env key in
  if negb (bool_decide (v = "")) then v else fallback.

(** [srv.Config] *)
Record Config := {
  cfg_DBPath : string;
  cfg_Hostname : string;
  cfg_AdminToken : string
}.

(** What [main] computes before it starts serving: the configuration it
    hands to [srv.New], the address it listens on, and whether it logs
    the warning about the admin token. *)
Record Startup := {
  st_config : Config;
  st_addr : string;
  st_warns : bool
}.

Definition main_startup (env : string -> string) : Startup :=
  let dbPath := getEnv env "DB_PATH" "./sh.db" in
  let hostname := getEnv env "HOSTNAME" "sh.huny.dev" in
  let adminToken := getEnv env "ADMIN_TOKEN" "" in
  let addr := ":" +:+ getEnv env "PORT" "8000" in
  {| st_config := {| cfg_DBPath := dbPath; cfg_Hostname := hostname;
                     cfg_AdminToken := adminToken |};
     st_addr := addr;
     st_warns := bool_decide (adminToken = "") |}.

(** [srv.New], the fields it copies from the configuration (the database
    handle it opens is the [db] of the world). *)
Definition New (cfg : Config) : Server :=
  {| Hostname := cfg_Hostname cfg; AdminToken := cfg_AdminToken cfg |}.

(** A request that carries no header at all. *)
Definition bareRequest : Request :=
  {| Method := "GET"; URLPath := "/api/scripts"; Query := []; Header := [];
     RemoteAddr := ""; PathValueId := "" |}.

(** A server that has just been started on a new database. *)
Definition emptyWorld : World :=
  {| db := {| scripts := []; folders := []; auth_tokens := ∅; audit_log := [];
              script_versions := [] |};
     uuids := 0; ticks := 0 |}.

(** The demo store after [/a/b/c.sh] has been created, moved to
    [/vault/moved.sh] and deleted again. *)
Definition demoLifecycle : World :=
  (@APIDeleteScript exampleLibs demoServer true (demoPut "uuid-0")
     (@APIUpdateScript exampleLibs demoServer (Some demoOpen) (demoPut "uuid-0")
        demoCreated).2).2.

(* ===================================================================== *)
(** * srv/static/app.js: the tree of the admin page *)
(* ===================================================================== *)

(** A node of the object tree [renderTree] builds:
    [{ id, name, path, children: {}, scripts: [] }].  [cn_id] is [None]
    for [null] and for a node made without the property.  [children]
    is an object used as a map from segment to node. *)
Inductive ClientNode := CNode {
  cn_id : option string;
  cn_name : string;
  cn_path : string;
  cn_children : gmap string ClientNode;
  cn_scripts : list ScriptResponse
}.

(** [path.split('/').filter(Boolean)] *)
Definition jsParts (path : string) : list string :=
  filter (fun x => x <> "") (Split path "/").

(** [node.children[part] = child] *)
Definition setChild (node : ClientNode) (part : string) (child : ClientNode) : ClientNode :=
  {| cn_id := cn_id node; cn_name := cn_name node; cn_path := cn_path node;
     cn_children := <[part := child]> (cn_children node); cn_scripts := cn_scripts node |}.

(** [node.scripts.push(s)] *)
Definition pushScript (s : ScriptResponse) (node : ClientNode) : ClientNode :=
  {| cn_id := cn_id node; cn_name := cn_name node; cn_path := cn_path node;
     cn_children := cn_children node; cn_scripts := cn_scripts node ++ [s] |}.

Section client.

(** The property names an object literal inherits from
    [Object.prototype] ([constructor], [toString], [__proto__], ...):
    for such a [part] that is not a key of its own, [node.children[part]]
    is a function or the prototype, which is truthy and has neither
    [children] nor [scripts]. *)
Variable inherited : string -> bool.

(** The body of [parts.forEach((part, i) => { ... })] from index [i] on,
    [rest] being the parts still to visit and [node] the node the
    variable [node] points at, followed by what the caller does with
    the node reached: nothing for a folder, [node.scripts.push(s)] for a
    script ([finish]).  The result is the node with the walk's updates
    made below it, or [None] when a [TypeError] is thrown: a part found
    on the prototype makes [node] an object without [children] and
    without [scripts], so reading the next part from it, or pushing a
    script to it, throws. *)
Fixpoint walk (make : nat -> string -> ClientNode) (finish : option (ClientNode -> ClientNode))
    (rest : list string) (i : nat) (node : ClientNode) : option ClientNode :=
  match rest with
  | [] => Some (default id finish node)
  | part :: rest' =>
      match cn_children node !! part with
      | Some child =>
          child' ← walk make finish rest' (S i) child;
          Some (setChild node part child')
      | None =>
          if inherited part
          then match rest', finish with
               | [], None => Some node
               | _, _ => None
               end
          else
            child' ← walk make finish rest' (S i) (make i part);
            Some (setChild node part child')
      end
  end.

(** The node made for [part] at index [i] of a folder's parts. *)
Definition folderChild (f : FolderResponse) (parts : list string) (i : nat) (part : string)
  : ClientNode :=
  {| cn_id := if bool_decide (i = length parts - 1) then Some (fr_ID f) else None;
     cn_name := part;
     cn_path := "/" +:+ Join (take (i + 1) parts) "/";
     cn_children := ∅; cn_scripts := [] |}.

(** The node made for [part] at index [i] of a script's directory
    parts. *)
Definition dirChild (parts : list string) (i : nat) (part : string) : ClientNode :=
  {| cn_id := None;
     cn_name := part;
     cn_path := "/" +:+ Join (take (i + 1) parts) "/";
     cn_children := ∅; cn_scripts := [] |}.

(** The callback of [folders.forEach]. *)
Definition addFolder (tree : ClientNode) (f : FolderResponse) : option ClientNode :=
  let parts := jsParts (fr_Path f) in
  walk (folderChild f parts) None parts 0 tree.

(** The callback of [scripts.forEach]; [parts.pop()] takes the file name
    off the parts. *)
Definition addScript (tree : ClientNode) (s : ScriptResponse) : option ClientNode :=
  let parts := removelast (jsParts (sr_Path s)) in
  walk (dirChild parts) (Some (pushScript s)) parts 0 tree.

(** [xs.forEach(x => body(tree, x))], stopping at the first exception. *)
Fixpoint forEach {A : Type} (body : ClientNode -> A -> option ClientNode) (xs : list A)
    (tree : ClientNode) : option ClientNode :=
  match xs with
  | [] => Some tree
  | x :: xs' => tree' ← body tree x; forEach body xs' tree'
  end.

(** [const tree = { children: {}, scripts: [] }] *)
Definition emptyTree : ClientNode :=
  {| cn_id := None; cn_name := ""; cn_path := ""; cn_children := ∅; cn_scripts := [] |}.

(** [renderTree], up to the tree it hands to [renderTreeNode]: the
    "Build tree structure" part, from the [folders] and [scripts] that
    [loadData] fetched from [/api/folders] and [/api/scripts]. *)
Definition renderTree (folders : list FolderResponse) (scripts : list ScriptResponse)
  : option ClientNode :=
  tree ← forEach addFolder folders emptyTree;
  forEach addScript scripts tree.

End client.

(** Follow [children] along a chain of segments. *)
Fixpoint reach (node : ClientNode) (parts : list string) : option ClientNode :=
  match parts with
  | [] => Some node
  | part :: rest => child ← cn_children node !! part; reach child rest
  end.

(** What [api('GET', '/api/scripts')] and [api('GET', '/api/folders')]
    give [loadData] for a store. *)
Definition fetchedScripts (d : DB) : list ScriptResponse :=
  map scriptToResponse (ListScripts d).

Definition fetchedFolders (d : DB) : list FolderResponse :=
  map folderResponse (ListFolders d).

(** The names found on [Object.prototype]. *)
Definition prototypeNames : list string :=
  ["constructor"; "__defineGetter__"; "__defineSetter__"; "hasOwnProperty";
   "__lookupGetter__"; "__lookupSetter__"; "isPrototypeOf"; "propertyIsEnumerable";
   "toString"; "valueOf"; "__proto__"; "toLocaleString"].

Definition onPrototype (part : string) : bool := bool_decide (part ∈ prototypeNames).

(** [n'] is the node [n] with, at most, more scripts pushed to it. *)
Definition grows (n n' : ClientNode) : Prop :=
  cn_id n' = cn_id n /\ cn_name n' = cn_name n /\ cn_path n' = cn_path n
  /\ exists more, cn_scripts n' = cn_scripts n ++ more.

(** Every node below [node], reached along the segments [q], is named
    after the last of them and carries the path made of [above] and
    [q]. *)
Definition named_by_path (above : list string) (node : ClientNode) : Prop :=
  forall q n, q <> [] -> reach node q = Some n ->
    cn_name n = List.last q "" /\ cn_path n = "/" +:+ Join (above ++ q) "/".

(** Everything reachable in [t] is reachable in [t'], grown at most. *)
Definition extends (t t' : ClientNode) : Prop :=
  forall q n, reach t q = Some n -> exists n', reach t' q = Some n' /\ grows n n'.

(** The directory segments of a script's path, as [renderTree] walks
    them. *)
Definition dirParts (path : string) : list string := removelast (jsParts path).

(* ===================================================================== *)
(** * Facts about the string functions *)
(* ===================================================================== *)

Section string_facts.

Lemma append_cons (x : ascii) (a b : string) : String x a +:+ b = String x (a +:+ b).
Proof. reflexivity. Qed.

Lemma length_append (a b : string) :
  String.length (a +:+ b) = String.length a + String.length b.
Proof. induction a as [|x a IH]; [done |]. rewrite append_cons. simpl. congruence. Qed.

Lemma append_assoc (a b c : string) : (a +:+ b) +:+ c = a +:+ (b +:+ c).
Proof. induction a as [|x a IH]; [done |]. rewrite !append_cons. simpl. congruence. Qed.

Lemma append_empty_r (a : string) : a +:+ "" = a.
Proof. induction a as [|x a IH]; [done |]. rewrite !append_cons. simpl. congruence. Qed.

Lemma slice_to_append (a b : string) : slice_to (String.length a) (a +:+ b) = a.
Proof. induction a as [|x a IH]; [by destruct b |]. rewrite append_cons. simpl. congruence. Qed.

Lemma slice_from_append (a b : string) : slice_from (String.length a) (a +:+ b) = b.
Proof. induction a as [|x a IH]; [done |]. rewrite !append_cons. simpl. congruence. Qed.

Lemma HasPrefix_append (p s : string) : HasPrefix (p +:+ s) p = true.
Proof.
  unfold HasPrefix. rewrite length_append, slice_to_append.
  rewrite bool_decide_eq_true_2 by done.
  rewrite andb_true_r. apply Nat.leb_le. lia.
Qed.

Lemma HasSuffix_append (s suffix : string) : HasSuffix (s +:+ suffix) suffix = true.
Proof.
  unfold HasSuffix. rewrite length_append.
  replace (String.length s + String.length suffix - String.length suffix)
    with (String.length s) by lia.
  rewrite slice_from_append, bool_decide_eq_true_2 by done.
  rewrite andb_true_r. apply Nat.leb_le. lia.
Qed.

Lemma all_bytes_append (p : ascii -> bool) (a b : string) :
  all_bytes p (a +:+ b) = all_bytes p a && all_bytes p b.
Proof. induction a as [|x a IH]; [done |]. rewrite append_cons. simpl. by rewrite IH, andb_assoc. Qed.

Lemma HasPrefix_nonempty (s p : string) : p <> "" -> HasPrefix s p = true -> s <> "".
Proof. intros Hp H ->. by destruct p. Qed.

Lemma map_bytes_empty (f : ascii -> ascii) (s : string) : map_bytes f s = "" <-> s = "".
Proof. by destruct s. Qed.

End string_facts.

(** Unfolds the monadic plumbing of a handler. *)
Ltac run_handler :=
  unfold mbind, M_bind, mret, M_ret, getDB, exec, now, newUUID; simpl.

(* ===================================================================== *)
(** * Content negotiation *)
(* ===================================================================== *)

Section negotiation_facts.
Context `{!Libs}.

(** C7. [isCLI] answers CLI when the lower-cased User-Agent contains one
    of the fixed signatures, whatever Accept says; otherwise Browser when
    Accept contains text/html; otherwise CLI when the User-Agent is
    empty; and Browser in every remaining case.  [strings.ToLower] maps
    the empty string, and only it, to the empty string. *)
Theorem isCLI_classification (r : Request)
    (ToLower_empty : forall s, ToLower s = "" <-> s = "") :
  let ua := Get (Header r) "User-Agent" in
  let accept := Get (Header r) "Accept" in
  let signature := existsb (fun p => Contains (ToLower ua) p) cliPatterns in
  (signature = true -> isCLI r = true) /\
  (signature = false -> Contains accept "text/html" = true -> isCLI r = false) /\
  (signature = false -> Contains accept "text/html" = false -> ua = "" -> isCLI r = true) /\
  (signature = false -> Contains accept "text/html" = false -> ua <> "" -> isCLI r = false).
Proof.
  intros ua accept signature. unfold isCLI.
  fold ua accept. fold signature.
  repeat split.
  - intros ->. done.
  - intros -> ->. done.
  - intros -> -> Hua. rewrite bool_decide_eq_true_2; [done | by apply ToLower_empty].
  - intros -> -> Hua. rewrite bool_decide_eq_false_2; [done |].
    intros Hl. by apply Hua, ToLower_empty.
Qed.

End negotiation_facts.

Lemma isCLI_classification_witness :
  @isCLI exampleLibs
    {| Method := "GET"; URLPath := "/x.sh"; Query := [];
       Header := [("User-Agent", "Mozilla/5.0 curl/8.4.0"); ("Accept", "text/html")];
       RemoteAddr := "10.0.0.1:4000"; PathValueId := "" |} = true.
Proof.
  refine (proj1 (@isCLI_classification exampleLibs _ _) _).
  - intros s. apply map_bytes_empty.
  - vm_compute. reflexivity.
Defined.

(* ===================================================================== *)
(** * The admin guard *)
(* ===================================================================== *)

(** C10. [adminOnly] answers 401 Unauthorized exactly when the
    configured AdminToken is non-empty and differs from the supplied
    token (the X-Admin-Token header or, when that is empty, the
    Authorization header with its Bearer prefix trimmed); every other
    request is handed to the wrapped handler unchanged, and with an empty
    AdminToken the wrapper is the wrapped handler. *)
Theorem adminOnly_guard (s : Server) (r : Request) (w : World) :
  let supplied :=
    if bool_decide (Get (Header r) "X-Admin-Token" = "")
    then TrimPrefix (Get (Header r) "Authorization") "Bearer "
    else Get (Header r) "X-Admin-Token" in
  ((forall next, adminOnly s next r w = (HttpError "Unauthorized" StatusUnauthorized, w))
   <-> AdminToken s <> "" /\ supplied <> AdminToken s) /\
  ((forall next, adminOnly s next r w = next r w)
   <-> ~ (AdminToken s <> "" /\ supplied <> AdminToken s)) /\
  (AdminToken s = "" -> forall next, adminOnly s next = next).
Proof.
  intros supplied.
  assert (Hrej : AdminToken s <> "" /\ supplied <> AdminToken s ->
                 forall next, adminOnly s next r w = (HttpError "Unauthorized" StatusUnauthorized, w)).
  { intros [Ha Ht] next. unfold adminOnly. fold supplied.
    by rewrite !bool_decide_eq_false_2. }
  assert (Hfwd : ~ (AdminToken s <> "" /\ supplied <> AdminToken s) ->
                 forall next, adminOnly s next r w = next r w).
  { intros Hn next. unfold adminOnly. fold supplied.
    destruct (decide (AdminToken s = "")) as [Ha|Ha].
    - by rewrite (bool_decide_eq_true_2 _ Ha).
    - destruct (decide (supplied = AdminToken s)) as [Ht|Ht].
      + by rewrite (bool_decide_eq_true_2 _ Ht), andb_false_r.
      + destruct Hn. done. }
  split; [|split].
  - split; [|done].
    intros Hall.
    destruct (decide (AdminToken s <> "" /\ supplied <> AdminToken s)) as [|Hn]; [done|].
    specialize (Hfwd Hn (fun _ => mret (PlainText None ""))).
    rewrite Hall in Hfwd. discriminate.
  - split; [|done].
    intros Hall Hrejects.
    specialize (Hrej Hrejects (fun _ => mret (PlainText None ""))).
    rewrite Hall in Hrej. discriminate.
  - intros Ha next. unfold adminOnly.
    rewrite (bool_decide_eq_true_2 _ Ha). done.
Qed.

Lemma adminOnly_guard_witness :
  adminOnly demoServer (HandleCatalog demoServer) = HandleCatalog demoServer.
Proof.
  refine (proj2 (proj2 (adminOnly_guard demoServer
    {| Method := "DELETE"; URLPath := "/api/scripts/s1"; Query := []; Header := [];
       RemoteAddr := "10.0.0.1:4000"; PathValueId := "s1" |} demoWorld)) _ _).
  reflexivity.
Defined.

(* ===================================================================== *)
(** * Path validation *)
(* ===================================================================== *)


Lemma validatePath_None (path : string) :
  validatePath path = None <->
  HasPrefix path "/" = true /\ HasSuffix path ".sh" = true
  /\ all_bytes validPathByte path = true.
Proof.
  unfold validatePath, validPath_MatchString.
  destruct (HasPrefix path "/") eqn:Hp; simpl; [|naive_solver].
  destruct (HasSuffix path ".sh") eqn:Hs; simpl; [|naive_solver].
  rewrite bool_decide_eq_false_2 by (by eapply HasPrefix_nonempty; [|exact Hp]).
  simpl. destruct (all_bytes validPathByte path); naive_solver.
Qed.

(** C6, as the code has it.  [validatePath] applies three rules in
    order: it fails when the path lacks a leading slash (nothing is
    prepended), otherwise fails when the path does not end in [.sh],
    otherwise fails when a byte lies outside [[A-Za-z0-9_/.-]].  It
    succeeds exactly when none of the three applies, so every path of
    the grammar validates; it returns no rewritten path. *)
Theorem validatePath_rules (path : string) :
  (validatePath path = Some "path must start with /" <-> HasPrefix path "/" = false) /\
  (validatePath path = Some "path must end with .sh"
   <-> HasPrefix path "/" = true /\ HasSuffix path ".sh" = false) /\
  (validatePath path = Some "path contains invalid characters"
   <-> HasPrefix path "/" = true /\ HasSuffix path ".sh" = true
       /\ all_bytes validPathByte path = false) /\
  (validatePath path = None
   <-> HasPrefix path "/" = true /\ HasSuffix path ".sh" = true
       /\ all_bytes validPathByte path = true) /\
  (path_grammar path -> validatePath path = None).
Proof.
  split; [|split; [|split; [|split]]].
  - unfold validatePath. destruct (HasPrefix path "/"); simpl; [|done].
    split; [|done]. repeat case_match; discriminate.
  - unfold validatePath. destruct (HasPrefix path "/"); simpl; [|naive_solver].
    destruct (HasSuffix path ".sh"); simpl; [|done].
    split; [|naive_solver]. case_match; discriminate.
  - unfold validatePath, validPath_MatchString.
    destruct (HasPrefix path "/") eqn:Hp; simpl; [|naive_solver].
    destruct (HasSuffix path ".sh"); simpl; [|naive_solver].
    rewrite bool_decide_eq_false_2 by (by eapply HasPrefix_nonempty; [|exact Hp]).
    simpl. destruct (all_bytes validPathByte path); naive_solver.
  - apply validatePath_None.
  - intros (body & Hne & Hbody & ->). apply validatePath_None.
    split; [|split].
    + apply HasPrefix_append.
    + rewrite <- append_assoc. apply HasSuffix_append.
    + rewrite !all_bytes_append, Hbody. reflexivity.
Qed.

Lemma validatePath_rules_witness : validatePath "/tools/check_memory.sh" = None.
Proof.
  apply (validatePath_rules "/tools/check_memory.sh").
  exists "tools/check_memory". split; [discriminate | split; reflexivity].
Defined.

(** A path without a leading slash is rejected, not repaired. *)
Lemma validatePath_no_leading_slash :
  HasPrefix "tools/check_memory.sh" "/" = false
  /\ validatePath "tools/check_memory.sh" = Some "path must start with /"
  /\ validatePath ("/" +:+ "tools/check_memory.sh") = None.
Proof. repeat split. Qed.

(* ===================================================================== *)
(** * The catalog *)
(* ===================================================================== *)


Lemma catalogEntry_of_fields (sc : Script.t) :
  catalogEntry_of sc =
  {| ce_Path := Script.Path sc; ce_Name := Script.Name sc;
     ce_Description := default "" (Script.Description sc);
     ce_Tags := default "" (Script.Tags sc);
     ce_Locked := negb (Script.Locked sc =? 0)%Z |}.
Proof. unfold catalogEntry_of. by destruct (Script.Description sc), (Script.Tags sc). Qed.

Lemma json_catalogEntry_keys (e : catalogEntry) :
  (json_catalogEntry e).*1 ⊆ ["path"; "name"; "description"; "tags"; "locked"].
Proof.
  unfold json_catalogEntry.
  repeat case_bool_decide; simpl; intros k Hk;
    repeat (apply elem_of_cons in Hk as [->|Hk]; [set_solver|]);
    by apply elem_of_nil in Hk.
Qed.

Section sort_by_key.
Context {A : Type} (key : A -> string) (g : A -> A).
Hypothesis key_g : forall x, key (g x) = key x.

Let R : relation A := fun a b => String.le (key a) (key b).

Let gs : option (list A) -> option (list A) :=
  fun o => match o with Some l => Some (g <$> l) | None => None end.

Lemma list_merge_fmap (l1 l2 : list A) :
  list_merge R (g <$> l1) (g <$> l2) = g <$> list_merge R l1 l2.
Proof.
  revert l2. induction l1 as [|x1 l1 IH1]; intros l2.
  - by rewrite fmap_nil, !list_merge_nil_l.
  - induction l2 as [|x2 l2 IH2].
    + by rewrite fmap_nil, !list_merge_nil_r.
    + rewrite !fmap_cons, !list_merge_cons.
      destruct (decide (R x1 x2)) as [H1|H1], (decide (R (g x1) (g x2))) as [H2|H2].
      * rewrite fmap_cons. f_equal. rewrite <- IH1. by rewrite fmap_cons.
      * exfalso. apply H2. unfold R. by rewrite !key_g.
      * exfalso. apply H1. unfold R in H2. by rewrite !key_g in H2.
      * rewrite fmap_cons. f_equal. rewrite <- IH2. by rewrite fmap_cons.
Qed.

Lemma merge_list_to_stack_fmap (st : list (option (list A))) (l : list A) :
  merge_list_to_stack R (gs <$> st) (g <$> l)
  = gs <$> merge_list_to_stack R st l.
Proof.
  revert l. induction st as [|[l'|] st IH]; intros l; [done| |done].
  rewrite fmap_cons. change (gs (Some l')) with (Some (g <$> l')).
  cbn [merge_list_to_stack]. rewrite fmap_cons. f_equal.
  rewrite list_merge_fmap. apply IH.
Qed.

Lemma merge_stack_fmap (st : list (option (list A))) :
  merge_stack R (gs <$> st) = g <$> merge_stack R st.
Proof.
  induction st as [|[l'|] st IH]; [done| |].
  - rewrite fmap_cons. change (gs (Some l')) with (Some (g <$> l')).
    cbn [merge_stack]. rewrite IH. apply list_merge_fmap.
  - rewrite fmap_cons. change (gs None) with (@None (list A)).
    cbn [merge_stack]. apply IH.
Qed.

Lemma merge_sort_aux_fmap (st : list (option (list A))) (l : list A) :
  merge_sort_aux R (gs <$> st) (g <$> l) = g <$> merge_sort_aux R st l.
Proof.
  revert st. induction l as [|x l IH]; intros st.
  - apply merge_stack_fmap.
  - rewrite fmap_cons. cbn [merge_sort_aux]. rewrite <- IH. f_equal.
    apply (merge_list_to_stack_fmap st [x]).
Qed.

(** Sorting by a key commutes with a map that keeps the key. *)
Lemma merge_sort_fmap (l : list A) :
  merge_sort R (g <$> l) = g <$> merge_sort R l.
Proof. apply (merge_sort_aux_fmap []). Qed.

End sort_by_key.

Lemma ListScripts_with_secrets (d d' : DB) (secrets : Script.t -> string * option string) :
  scripts d' = map (fun sc => with_secrets sc (secrets sc).1 (secrets sc).2) (scripts d) ->
  ListScripts d'
  = map (fun sc => with_secrets sc (secrets sc).1 (secrets sc).2) (ListScripts d).
Proof.
  intros Hs. unfold ListScripts. rewrite Hs.
  apply (merge_sort_fmap Script.Path
           (fun sc => with_secrets sc (secrets sc).1 (secrets sc).2)).
  done.
Qed.

(** C9. [HandleCatalog] answers with one entry per listed script, in the
    order of the listing; an entry holds the script's path, name,
    description, tags and locked flag and its JSON object has no other
    key, so neither [content] nor [password_hash]; a locked script is
    listed with [locked = true] and its path and name; and replacing the
    content or the password hash of a record leaves its entry unchanged,
    so two stores that differ only there get the same answer. *)
Theorem HandleCatalog_projection (s : Server) (r : Request) (w : World) :
  HandleCatalog s r w = (CatalogOK (map catalogEntry_of (ListScripts (db w))), w) /\
  (forall sc : Script.t,
     let e := catalogEntry_of sc in
     ce_Path e = Script.Path sc /\ ce_Name e = Script.Name sc
     /\ ce_Description e = default "" (Script.Description sc)
     /\ ce_Tags e = default "" (Script.Tags sc)
     /\ (ce_Locked e = true <-> Script.Locked sc <> 0%Z)
     /\ (json_catalogEntry e).*1 ⊆ ["path"; "name"; "description"; "tags"; "locked"]
     /\ ~ ("content" ∈ (json_catalogEntry e).*1)
     /\ ~ ("password_hash" ∈ (json_catalogEntry e).*1)
     /\ ("path", JString (Script.Path sc)) ∈ json_catalogEntry e
     /\ ("name", JString (Script.Name sc)) ∈ json_catalogEntry e
     /\ ("locked", JBool (negb (Script.Locked sc =? 0)%Z)) ∈ json_catalogEntry e) /\
  (forall (sc : Script.t) content hash,
     catalogEntry_of (with_secrets sc content hash) = catalogEntry_of sc) /\
  (forall (l : list Script.t) (secrets : Script.t -> string * option string),
     map catalogEntry_of (map (fun sc => with_secrets sc (secrets sc).1 (secrets sc).2) l)
     = map catalogEntry_of l) /\
  (forall (w' : World) (secrets : Script.t -> string * option string),
     scripts (db w')
     = map (fun sc => with_secrets sc (secrets sc).1 (secrets sc).2) (scripts (db w)) ->
     (HandleCatalog s r w').1 = (HandleCatalog s r w).1).
Proof.
  assert (Hmap : forall (l : list Script.t) (secrets : Script.t -> string * option string),
            map catalogEntry_of
              (map (fun sc => with_secrets sc (secrets sc).1 (secrets sc).2) l)
            = map catalogEntry_of l).
  { intros l secrets. rewrite map_map. apply map_ext.
    intros sc. by rewrite !catalogEntry_of_fields. }
  split; [done|]. split; [|split; [|split; [exact Hmap|]]];
    [| |intros w' secrets Hs; unfold HandleCatalog; run_handler;
        by rewrite (ListScripts_with_secrets _ _ secrets Hs), Hmap].
  - intros sc e. subst e.
    pose proof (json_catalogEntry_keys (catalogEntry_of sc)) as Hkeys.
    rewrite catalogEntry_of_fields in *.
    split; [done|]. split; [done|]. split; [done|]. split; [done|].
    split; [|split; [done|split; [|split; [|split; [|split]]]]].
    + cbn [ce_Locked]. rewrite negb_true_iff. apply Z.eqb_neq.
    + intros Hin. apply Hkeys in Hin. set_solver.
    + intros Hin. apply Hkeys in Hin. set_solver.
    + unfold json_catalogEntry; cbn [ce_Path ce_Name]. set_solver.
    + unfold json_catalogEntry; cbn [ce_Path ce_Name]. set_solver.
    + unfold json_catalogEntry; cbn [ce_Locked]. set_solver.
  - intros sc content hash. by rewrite !catalogEntry_of_fields.
Qed.

Lemma HandleCatalog_projection_witness :
  (HandleCatalog demoServer (demoGet "/_catalog.json" [] [])
     {| db := set_scripts demoDB
                (map (fun sc => with_secrets sc "" None) (scripts demoDB));
        uuids := 0; ticks := 0 |}).1
  = (HandleCatalog demoServer (demoGet "/_catalog.json" [] []) demoWorld).1.
Proof.
  refine (proj2 (proj2 (proj2 (proj2
    (HandleCatalog_projection demoServer (demoGet "/_catalog.json" [] []) demoWorld))))
    _ (fun _ => ("", None)) _).
  reflexivity.
Defined.

(** The catalog of the demo store. *)
Example catalog_of_demo_store :
  (HandleCatalog demoServer (demoGet "/_catalog.json" [] []) demoWorld).1
  = CatalogOK
      [ {| ce_Path := "/a/secret.sh"; ce_Name := "secret.sh"; ce_Description := "demo";
           ce_Tags := "ops"; ce_Locked := true |};
        {| ce_Path := "/b/secret.sh"; ce_Name := "secret.sh"; ce_Description := "demo";
           ce_Tags := "ops"; ce_Locked := true |};
        {| ce_Path := "/x.sh"; ce_Name := "x.sh"; ce_Description := "demo";
           ce_Tags := "ops"; ce_Locked := false |} ].
Proof. vm_compute. reflexivity. Qed.

(* ===================================================================== *)
(** * Serving a script: preview and the lock gate *)
(* ===================================================================== *)



Section serving.
Context `{!Libs}.

(** C1. For a locked script fetched without [preview=1], the content is
    served exactly when the supplied token (the [token] query parameter
    or, when that is empty, the Authorization header with its Bearer
    prefix trimmed) is non-empty and resolves to a stored token whose
    script id is the script's and whose expiry is strictly after the
    clock reading; in every other case the answer is the one password
    prompt for the path, in particular for a token of another script.
    The database is left as it was. *)
Theorem HandleScript_lock_gate (s : Server) (r : Request) (w : World) (script : Script.t) :
  let path := if negb (HasPrefix (URLPath r) "/") then "/" +:+ URLPath r else URLPath r in
  let token :=
    if bool_decide (Get (Query r) "token" = "")
    then TrimPrefix (Get (Header r) "Authorization") "Bearer "
    else Get (Query r) "token" in
  let granted :=
    token <> "" /\
    exists t, GetAuthToken (db w) token = Some t
              /\ AuthToken.ScriptID t = Script.ID script
              /\ (time_at (ticks w) < AuthToken.ExpiresAt t)%Z in
  GetScriptByPath (db w) path = Some script ->
  Script.Locked script <> 0%Z ->
  Get (Query r) "preview" <> "1" ->
  ((HandleScript s r w).1 = PlainText (Some "no-store") (Script.Content script) <-> granted) /\
  ((HandleScript s r w).1 = PasswordPrompt (Hostname s) path <-> ~ granted) /\
  (forall t, GetAuthToken (db w) token = Some t ->
             AuthToken.ScriptID t <> Script.ID script ->
             (HandleScript s r w).1 = PasswordPrompt (Hostname s) path) /\
  db (HandleScript s r w).2 = db w.
Proof.
  intros path token granted Hscript Hlocked Hpreview.
  assert (Hrun :
    (granted /\ (HandleScript s r w).1 = PlainText (Some "no-store") (Script.Content script)
     \/ ~ granted /\ (HandleScript s r w).1 = PasswordPrompt (Hostname s) path)
    /\ db (HandleScript s r w).2 = db w).
  { unfold HandleScript. fold path. run_handler. rewrite Hscript.
    rewrite (bool_decide_eq_false_2 _ Hpreview).
    apply Z.eqb_neq in Hlocked. rewrite Hlocked. simpl. fold token.
    subst granted. simpl.
    destruct (decide (token = "")) as [He|He].
    { rewrite (bool_decide_eq_true_2 _ He). simpl. split; [right|done].
      split; [naive_solver | done]. }
    rewrite (bool_decide_eq_false_2 _ He). simpl.
    destruct (GetAuthToken (db w) token) as [t|] eqn:Htok; simpl;
      [|split; [right; split; [naive_solver | done] | done]].
    destruct (decide (AuthToken.ScriptID t = Script.ID script)) as [Hid|Hid].
    - rewrite (bool_decide_eq_true_2 _ Hid). simpl.
      destruct (time_at (ticks w) <? AuthToken.ExpiresAt t)%Z eqn:Hexp; simpl.
      + apply Z.ltb_lt in Hexp. split; [left|done]. split; [|done]. eauto.
      + apply Z.ltb_ge in Hexp. split; [right|done]. split; [|done].
        intros (_ & t' & Ht' & _ & Hlt). simplify_eq. lia.
    - rewrite (bool_decide_eq_false_2 _ Hid). simpl.
      split; [right|done]. split; [|done].
      intros (_ & t' & Ht' & Hid' & _). simplify_eq. }
  destruct Hrun as [Hrun Hdb].
  split; [|split; [|split]]; [| | |exact Hdb].
  - destruct Hrun as [[Hg Hr]|[Hg Hr]]; rewrite Hr; [done|].
    split; [discriminate | done].
  - destruct Hrun as [[Hg Hr]|[Hg Hr]]; rewrite Hr; [|done].
    split; [discriminate | done].
  - intros t Ht Hid.
    destruct Hrun as [[Hg Hr]|[Hg Hr]]; [|done].
    destruct Hg as (_ & t' & Ht' & Hid' & _). simplify_eq.
Qed.

End serving.

Lemma HandleScript_lock_gate_witness :
  (@HandleScript exampleLibs demoServer
     (demoGet "/a/secret.sh" [("token", "tok-a")] []) demoWorld).1
  = PlainText (Some "no-store") "echo a".
Proof.
  apply (@HandleScript_lock_gate exampleLibs demoServer
           (demoGet "/a/secret.sh" [("token", "tok-a")] []) demoWorld
           (demoScript "s-a" "/a/secret.sh" "secret.sh" "echo a" 1 (Some "$2a$hunter2"))).
  - reflexivity.
  - discriminate.
  - discriminate.
  - split; [discriminate|].
    exists (demoToken "tok-a" "s-a" 5000%Z).
    split; [vm_compute; reflexivity | split; [reflexivity | vm_compute; reflexivity]].
Defined.

(** The token of script [s-a] presented for [/b/secret.sh], an expired
    token, an unknown token and no token all give the same prompt. *)
Example lock_gate_failures :
  let run q h := (@HandleScript exampleLibs demoServer (demoGet "/b/secret.sh" q h) demoWorld).1 in
  run [("token", "tok-a")] [] = PasswordPrompt "sh.huny.dev" "/b/secret.sh"
  /\ run [] [("Authorization", "Bearer tok-a")] = PasswordPrompt "sh.huny.dev" "/b/secret.sh"
  /\ run [("token", "nope")] [] = PasswordPrompt "sh.huny.dev" "/b/secret.sh"
  /\ run [] [] = PasswordPrompt "sh.huny.dev" "/b/secret.sh"
  /\ (@HandleScript exampleLibs demoServer
        (demoGet "/a/secret.sh" [("token", "tok-old")] []) demoWorld).1
     = PasswordPrompt "sh.huny.dev" "/a/secret.sh".
Proof. vm_compute. repeat split. Qed.

Lemma print_lines_unlines (lines : list string) (n i : nat) (out : string) :
  i + n <= length lines ->
  print_lines lines i n out = out +:+ unlines (take n (drop i lines)).
Proof.
  revert i out. induction n as [|n IH]; intros i out Hlen.
  - simpl. by rewrite append_empty_r.
  - cbn [print_lines]. rewrite IH by lia.
    destruct (lookup_lt_is_Some_2 lines i ltac:(lia)) as [x Hx].
    rewrite (drop_S _ _ _ Hx). cbn [take unlines fold_right].
    rewrite nth_lookup, Hx. cbn [default].
    by rewrite !append_assoc.
Qed.

Section preview.
Context `{!Libs}.

(** C2. A fetch with [preview=1] of a stored script answers, whatever
    the script's locked flag and whatever token or header comes with the
    request, with the script's name, its description and tags when they
    hold text, and the first twenty lines of its content (followed by a
    count of the lines left out); nothing is read from the clock and the
    database is untouched. *)
Theorem HandleScript_preview (s : Server) (r : Request) (w : World) (script : Script.t) :
  let path := if negb (HasPrefix (URLPath r) "/") then "/" +:+ URLPath r else URLPath r in
  let lines := Split (Script.Content script) newline in
  GetScriptByPath (db w) path = Some script ->
  Get (Query r) "preview" = "1" ->
  HandleScript s r w = (PlainText None (previewBody script), w) /\
  previewBody script =
    ("# " +:+ Script.Name script +:+ newline)
    +:+ preview_field "# " (Script.Description script)
    +:+ preview_field "# Tags: " (Script.Tags script)
    +:+ (newline +:+ "# Content:" +:+ newline)
    +:+ unlines (take 20 lines)
    +:+ (if (20 <? length lines)%nat
         then newline +:+ "... (" +:+ pretty (length lines - 20) +:+ " more lines)" +:+ newline
         else "").
Proof.
  intros path lines Hscript Hpreview. split.
  - unfold HandleScript. fold path. run_handler.
    by rewrite Hscript, (bool_decide_eq_true_2 _ Hpreview).
  - unfold previewBody. fold lines.
    set (head := "# " +:+ Script.Name script +:+ newline).
    set (out1 := match Script.Description script with Some _ => _ | None => _ end).
    assert (Hout1 : out1 = head +:+ preview_field "# " (Script.Description script)).
    { subst out1. unfold preview_field. destruct (Script.Description script) as [d|].
      - case_bool_decide; simpl; [by rewrite append_empty_r | by rewrite ?append_assoc].
      - by rewrite append_empty_r. }
    set (out2 := match Script.Tags script with Some _ => _ | None => _ end).
    assert (Hout2 : out2 = out1 +:+ preview_field "# Tags: " (Script.Tags script)).
    { subst out2. unfold preview_field. destruct (Script.Tags script) as [t|].
      - case_bool_decide; simpl; [by rewrite append_empty_r | by rewrite ?append_assoc].
      - by rewrite append_empty_r. }
    rewrite Hout2, Hout1. clear Hout1 Hout2 out1 out2.
    destruct (length lines <? 20)%nat eqn:Hlt.
    + apply Nat.ltb_lt in Hlt.
      rewrite Nat.ltb_irrefl.
      rewrite (proj2 (Nat.ltb_ge 20 (length lines))) by lia.
      rewrite print_lines_unlines by lia.
      rewrite drop_0, !take_ge by lia.
      by rewrite append_empty_r, !append_assoc.
    + apply Nat.ltb_ge in Hlt.
      rewrite print_lines_unlines by lia. rewrite drop_0.
      destruct (20 <? length lines)%nat; by rewrite ?append_empty_r, !append_assoc.
Qed.

End preview.

Lemma HandleScript_preview_witness :
  @HandleScript exampleLibs demoServer (demoGet "/a/secret.sh" [("preview", "1")] []) demoWorld
  = (PlainText None
       (previewBody (demoScript "s-a" "/a/secret.sh" "secret.sh" "echo a" 1 (Some "$2a$hunter2"))),
     demoWorld).
Proof.
  apply (@HandleScript_preview exampleLibs demoServer
           (demoGet "/a/secret.sh" [("preview", "1")] []) demoWorld
           (demoScript "s-a" "/a/secret.sh" "secret.sh" "echo a" 1 (Some "$2a$hunter2")));
    reflexivity.
Defined.

(** The preview of the locked script of the demo store, fetched with no
    token at all. *)
Example preview_of_locked_script :
  (@HandleScript exampleLibs demoServer (demoGet "/a/secret.sh" [("preview", "1")] []) demoWorld).1
  = PlainText None
      ("# secret.sh" +:+ newline +:+ "# demo" +:+ newline +:+ "# Tags: ops" +:+ newline
       +:+ newline +:+ "# Content:" +:+ newline +:+ "echo a" +:+ newline).
Proof. vm_compute. reflexivity. Qed.

(* ===================================================================== *)
(** * Unlocking *)
(* ===================================================================== *)

Section unlock.
Context `{!Libs}.

Lemma HandleUnlock_failed (s : Server) (r : Request) (w : World)
    (req : UnlockRequest) (script : Script.t) (hash : string) :
  Method r = "POST" ->
  GetScriptByPath (db w) (ur_Path req) = Some script ->
  Script.Locked script <> 0%Z ->
  Script.PasswordHash script = Some hash ->
  CompareHashAndPassword hash (ur_Password req) = false ->
  HandleUnlock s (Some req) r w =
    (HttpError "Invalid password" StatusUnauthorized,
     {| db := set_audit_log (db w)
                (audit_log (db w)
                 ++ [unlockAudit "UNLOCK_FAILED" script (ur_Path req) r (time_at (ticks w))]);
        uuids := uuids w; ticks := S (ticks w) |}).
Proof.
  intros Hm Hscript Hlocked Hhash Hcmp.
  unfold HandleUnlock. run_handler.
  rewrite (bool_decide_eq_true_2 _ Hm). simpl. rewrite Hscript.
  apply Z.eqb_neq in Hlocked. rewrite Hlocked, Hhash, Hcmp. simpl. done.
Qed.

Lemma HandleUnlock_success (s : Server) (r : Request) (w : World)
    (req : UnlockRequest) (script : Script.t) (hash : string) :
  Method r = "POST" ->
  GetScriptByPath (db w) (ur_Path req) = Some script ->
  Script.Locked script <> 0%Z ->
  Script.PasswordHash script = Some hash ->
  CompareHashAndPassword hash (ur_Password req) = true ->
  auth_tokens (db w) !! uuid_at (uuids w) = None ->
  HandleUnlock s (Some req) r w =
    (UnlockOK (uuid_at (uuids w)) (FormatRFC3339 (time_at (ticks w) + five_minutes)%Z),
     {| db := set_audit_log
                (set_auth_tokens (db w)
                   (<[uuid_at (uuids w) :=
                        {| AuthToken.Token := uuid_at (uuids w);
                           AuthToken.ScriptID := Script.ID script;
                           AuthToken.ExpiresAt := (time_at (ticks w) + five_minutes)%Z;
                           AuthToken.CreatedAt := time_at (S (ticks w));
                           AuthToken.IpAddress := Some (RemoteAddr r);
                           AuthToken.UserAgent := Some (Get (Header r) "User-Agent") |}]>
                      (auth_tokens (db w))))
                (audit_log (db w)
                 ++ [unlockAudit "UNLOCK_SUCCESS" script (ur_Path req) r
                       (time_at (S (S (ticks w))))]);
        uuids := S (uuids w); ticks := S (S (S (ticks w))) |}).
Proof.
  intros Hm Hscript Hlocked Hhash Hcmp Hfresh.
  unfold HandleUnlock. run_handler.
  rewrite (bool_decide_eq_true_2 _ Hm). simpl. rewrite Hscript.
  apply Z.eqb_neq in Hlocked. rewrite Hlocked, Hhash, Hcmp. simpl.
  unfold CreateAuthToken. simpl. rewrite Hfresh. simpl. done.
Qed.

Lemma unlockAttempts_failed (s : Server) (r : Request) (path : string)
    (script : Script.t) (hash : string) (passwords : list string) (w : World) :
  Method r = "POST" ->
  GetScriptByPath (db w) path = Some script ->
  Script.Locked script <> 0%Z ->
  Script.PasswordHash script = Some hash ->
  Forall (fun password => CompareHashAndPassword hash password = false) passwords ->
  let res := unlockAttempts s r path passwords w in
  res.1 = replicate (length passwords) (HttpError "Invalid password" StatusUnauthorized)
  /\ auth_tokens (db res.2) = auth_tokens (db w)
  /\ scripts (db res.2) = scripts (db w)
  /\ uuids res.2 = uuids w
  /\ exists entries,
       audit_log (db res.2) = audit_log (db w) ++ entries
       /\ length entries = length passwords
       /\ Forall (fun e => AuditLog.Action e = "UNLOCK_FAILED") entries.
Proof.
  intros Hm Hscript Hlocked Hhash Hall. revert w Hscript.
  induction Hall as [|password rest Hcmp Hall IH]; intros w Hscript.
  - simpl. split_and!; try done. exists []. by rewrite app_nil_r.
  - set (w1 := {| db := set_audit_log (db w)
                     (audit_log (db w)
                      ++ [unlockAudit "UNLOCK_FAILED" script path r (time_at (ticks w))]);
                   uuids := uuids w; ticks := S (ticks w) |}).
    assert (Hstep : unlockAttempts s r path (password :: rest) w
                    = (HttpError "Invalid password" StatusUnauthorized
                         :: (unlockAttempts s r path rest w1).1,
                       (unlockAttempts s r path rest w1).2)).
    { cbn [unlockAttempts]. unfold mbind, M_bind, mret, M_ret.
      rewrite (HandleUnlock_failed s r w {| ur_Path := path; ur_Password := password |}
                 script hash) by done.
      cbn [ur_Path]. fold w1. by destruct (unlockAttempts s r path rest w1). }
    assert (Hscript1 : GetScriptByPath (db w1) path = Some script) by exact Hscript.
    destruct (IH w1 Hscript1) as (Hr & Ht & Hs & Hu & entries & Ha & Hlen & Hact).
    rewrite Hstep. cbn [fst snd]. split_and!.
    + by rewrite Hr.
    + by rewrite Ht.
    + by rewrite Hs.
    + by rewrite Hu.
    + eexists (_ :: entries). split; [|split].
      * rewrite Ha. subst w1. cbn [db audit_log set_audit_log].
        rewrite <- app_assoc. reflexivity.
      * simpl. by rewrite Hlen.
      * by constructor.
Qed.

(** C5. An unlock request against a locked script that has a password
    hash: a password that fails the bcrypt comparison is answered 401,
    appends one UNLOCK_FAILED audit row and leaves the token table
    alone; a password that passes, the generated token being new to the
    token table, is answered with the token and its expiry, stores that
    one token row with [expires_at] five minutes after the clock reading
    and appends one UNLOCK_SUCCESS audit row.  Any run of failing
    passwords appends one UNLOCK_FAILED row each and stores no token. *)
Theorem HandleUnlock_outcomes (s : Server) (r : Request) (w : World)
    (req : UnlockRequest) (script : Script.t) (hash : string) :
  Method r = "POST" ->
  GetScriptByPath (db w) (ur_Path req) = Some script ->
  Script.Locked script <> 0%Z ->
  Script.PasswordHash script = Some hash ->
  let res := HandleUnlock s (Some req) r w in
  let token := uuid_at (uuids w) in
  let expiry := (time_at (ticks w) + five_minutes)%Z in
  (CompareHashAndPassword hash (ur_Password req) = false ->
     res.1 = HttpError "Invalid password" StatusUnauthorized
     /\ auth_tokens (db res.2) = auth_tokens (db w)
     /\ audit_log (db res.2)
        = audit_log (db w)
          ++ [unlockAudit "UNLOCK_FAILED" script (ur_Path req) r (time_at (ticks w))]) /\
  (CompareHashAndPassword hash (ur_Password req) = true ->
   auth_tokens (db w) !! token = None ->
     res.1 = UnlockOK token (FormatRFC3339 expiry)
     /\ (exists row,
           auth_tokens (db res.2) = <[token := row]> (auth_tokens (db w))
           /\ AuthToken.Token row = token
           /\ AuthToken.ScriptID row = Script.ID script
           /\ AuthToken.ExpiresAt row = expiry)
     /\ size (auth_tokens (db res.2)) = S (size (auth_tokens (db w)))
     /\ audit_log (db res.2)
        = audit_log (db w)
          ++ [unlockAudit "UNLOCK_SUCCESS" script (ur_Path req) r (time_at (S (S (ticks w))))]) /\
  (forall passwords,
     Forall (fun password => CompareHashAndPassword hash password = false) passwords ->
     let run := unlockAttempts s r (ur_Path req) passwords w in
     run.1 = replicate (length passwords) (HttpError "Invalid password" StatusUnauthorized)
     /\ auth_tokens (db run.2) = auth_tokens (db w)
     /\ exists entries,
          audit_log (db run.2) = audit_log (db w) ++ entries
          /\ length entries = length passwords
          /\ Forall (fun e => AuditLog.Action e = "UNLOCK_FAILED") entries).
Proof.
  intros Hm Hscript Hlocked Hhash res token expiry.
  split; [|split].
  - intros Hcmp. subst res.
    by rewrite (HandleUnlock_failed s r w req script hash).
  - intros Hcmp Hfresh. subst res.
    rewrite (HandleUnlock_success s r w req script hash) by done.
    simpl. split; [done|]. split; [|split; [|done]].
    + eexists. split; [reflexivity|]. done.
    + by apply map_size_insert_None.
  - intros passwords Hall run. subst run.
    destruct (unlockAttempts_failed s r (ur_Path req) script hash passwords w)
      as (Hr & Ht & _ & _ & He); done.
Qed.

End unlock.

Lemma HandleUnlock_outcomes_witness :
  (@HandleUnlock exampleLibs demoServer
     (Some {| ur_Path := "/a/secret.sh"; ur_Password := "letmein" |}) demoPost demoWorld).1
  = HttpError "Invalid password" StatusUnauthorized
  /\ auth_tokens (db (@HandleUnlock exampleLibs demoServer
       (Some {| ur_Path := "/a/secret.sh"; ur_Password := "letmein" |}) demoPost demoWorld).2)
     = auth_tokens demoDB
  /\ audit_log (db (@HandleUnlock exampleLibs demoServer
       (Some {| ur_Path := "/a/secret.sh"; ur_Password := "letmein" |}) demoPost demoWorld).2)
     = [unlockAudit "UNLOCK_FAILED"
          (demoScript "s-a" "/a/secret.sh" "secret.sh" "echo a" 1 (Some "$2a$hunter2"))
          "/a/secret.sh" demoPost 1000%Z].
Proof.
  apply (@HandleUnlock_outcomes exampleLibs demoServer demoPost demoWorld
           {| ur_Path := "/a/secret.sh"; ur_Password := "letmein" |}
           (demoScript "s-a" "/a/secret.sh" "secret.sh" "echo a" 1 (Some "$2a$hunter2"))
           "$2a$hunter2"); try reflexivity.
  discriminate.
Defined.

(** Three wrong passwords and then the right one: three UNLOCK_FAILED
    rows, one UNLOCK_SUCCESS row, one new token. *)
Example three_failures_then_success :
  let run := @unlockAttempts exampleLibs demoServer demoPost "/a/secret.sh"
               ["a"; "b"; "c"; "hunter2"] demoWorld in
  run.1 = [HttpError "Invalid password" 401; HttpError "Invalid password" 401;
           HttpError "Invalid password" 401; UnlockOK "uuid-0" "300000001003"]
  /\ map AuditLog.Action (audit_log (db run.2))
     = ["UNLOCK_FAILED"; "UNLOCK_FAILED"; "UNLOCK_FAILED"; "UNLOCK_SUCCESS"]
  /\ auth_tokens (db run.2)
     = <["uuid-0" := {| AuthToken.Token := "uuid-0"; AuthToken.ScriptID := "s-a";
                        AuthToken.ExpiresAt := 300000001003%Z; AuthToken.CreatedAt := 1004%Z;
                        AuthToken.IpAddress := Some "10.0.0.1:4000";
                        AuthToken.UserAgent := Some "curl/8.4.0" |}]> (auth_tokens demoDB).
Proof. vm_compute. repeat split. Qed.

(* ===================================================================== *)
(** * Folder synthesis *)
(* ===================================================================== *)

Lemma find_app_Some {A : Type} (f : A -> bool) (l l' : list A) (x : A) :
  find f l = Some x -> find f (l ++ l') = Some x.
Proof. induction l as [|y l IH]; simpl; [done|]. by destruct (f y). Qed.

Lemma find_app_None_inv {A : Type} (f : A -> bool) (l l' : list A) :
  find f (l ++ l') = None -> find f l = None.
Proof. induction l as [|y l IH]; simpl; [done|]. by destruct (f y). Qed.

Lemma find_singleton_hit {A : Type} (f : A -> bool) (l : list A) (x : A) :
  f x = true -> is_Some (find f (l ++ [x])).
Proof.
  intros Hx. induction l as [|y l IH]; simpl.
  - rewrite Hx. eauto.
  - destruct (f y); eauto.
Qed.

Lemma CreateFolder_fresh (d : DB) (row : Folder.t) :
  GetFolderByPath d (Folder.Path row) = None ->
  Folder.ID row ∉ map Folder.ID (folders d) ->
  CreateFolder d row = Some (set_folders d (folders d ++ [row])).
Proof.
  unfold GetFolderByPath, CreateFolder. intros Hpath Hid.
  replace (existsb _ (folders d)) with false; [done|].
  symmetry. induction (folders d) as [|f l IH]; simpl in *; [done|].
  destruct (bool_decide (Folder.Path f = Folder.Path row)) eqn:Hp; [done|].
  rewrite orb_false_r.
  rewrite bool_decide_eq_false_2 by (intros Heq; apply Hid; rewrite <- Heq; left).
  simpl. apply IH; [done|]. intros Hin. apply Hid. by right.
Qed.

Section folders.
Context `{!Libs}.

Lemma ensureFolder_present (parts : list string) (i : nat) (w : World) :
  is_Some (GetFolderByPath (db w) (folderPrefix parts i)) ->
  ensureFolder parts i w = (tt, w).
Proof.
  intros [f Hf]. unfold ensureFolder. run_handler.
  unfold folderPrefix in Hf. by rewrite Hf.
Qed.

Lemma ensureFolder_absent (parts : list string) (i : nat) (w : World) :
  GetFolderByPath (db w) (folderPrefix parts i) = None ->
  uuid_at (uuids w) ∉ map Folder.ID (folders (db w)) ->
  ensureFolder parts i w =
    (tt, {| db := set_folders (db w)
                    (folders (db w)
                     ++ [{| Folder.ID := uuid_at (uuids w);
                            Folder.Path := folderPrefix parts i;
                            Folder.Name := folderSegment parts i;
                            Folder.CreatedAt := time_at (ticks w) |}]);
            uuids := S (uuids w); ticks := S (ticks w) |}).
Proof.
  intros Hnone Hfresh. unfold ensureFolder. run_handler.
  unfold folderPrefix in Hnone. rewrite Hnone.
  unfold mbind, M_bind, exec, mret, M_ret. simpl.
  rewrite CreateFolder_fresh; done.
Qed.

Lemma uuids_fresh_step (w : World) (row : Folder.t) (t : nat) :
  uuids_fresh w ->
  Folder.ID row = uuid_at (uuids w) ->
  uuids_fresh {| db := set_folders (db w) (folders (db w) ++ [row]);
                 uuids := S (uuids w); ticks := t |}.
Proof.
  intros [Hnew Hinj] Hid. split; simpl.
  - intros n Hn. rewrite map_app. simpl. rewrite elem_of_app, list_elem_of_singleton.
    intros [Hin|Heq].
    + by apply (Hnew n); [lia|].
    + rewrite Hid in Heq. apply Hinj in Heq; lia.
  - intros n m Hn Hm. apply Hinj; lia.
Qed.

(** The loop of [ensureFolders] over any list [js] of indices. *)
Lemma ensureFolders_loop (parts : list string) (js : list nat) (w : World) :
  uuids_fresh w ->
  exists w' created idx,
    forM_ js (ensureFolder parts) w = (tt, w')
    /\ uuids_fresh w'
    /\ folders (db w') = folders (db w) ++ created
    /\ idx `sublist_of` js
    /\ map Folder.Path created = map (folderPrefix parts) idx
    /\ map Folder.Name created = map (folderSegment parts) idx
    /\ Forall (fun i => GetFolderByPath (db w) (folderPrefix parts i) = None) idx
    /\ (forall j, j ∈ js -> is_Some (GetFolderByPath (db w') (folderPrefix parts j)))
    /\ scripts (db w') = scripts (db w)
    /\ auth_tokens (db w') = auth_tokens (db w)
    /\ audit_log (db w') = audit_log (db w)
    /\ script_versions (db w') = script_versions (db w).
Proof.
  revert w. induction js as [|j js IH]; intros w Hfresh.
  - exists w, [], []. split_and!; try done.
    + by rewrite app_nil_r.
    + intros j Hj. by apply elem_of_nil in Hj.
  - cbn [forM_]. unfold mbind at 1, M_bind at 1.
    destruct (GetFolderByPath (db w) (folderPrefix parts j)) as [f|] eqn:Hget.
    + rewrite ensureFolder_present by (by rewrite Hget).
      destruct (IH w Hfresh)
        as (w' & created & idx & Hrun & Hf' & Hfolders & Hsub & Hp & Hn & Hnone & Hall & Hrest).
      exists w', created, idx. split_and!; try done; try apply Hrest.
      * by apply sublist_cons.
      * intros k Hk. apply elem_of_cons in Hk as [->|Hk]; [|by apply Hall].
        unfold GetFolderByPath in *. rewrite Hfolders.
        erewrite find_app_Some; eauto.
    + assert (Hid : uuid_at (uuids w) ∉ map Folder.ID (folders (db w)))
        by (apply Hfresh; lia).
      rewrite ensureFolder_absent by done.
      set (row := {| Folder.ID := uuid_at (uuids w); Folder.Path := folderPrefix parts j;
                     Folder.Name := folderSegment parts j;
                     Folder.CreatedAt := time_at (ticks w) |}).
      set (w1 := {| db := set_folders (db w) (folders (db w) ++ [row]);
                    uuids := S (uuids w); ticks := S (ticks w) |}).
      assert (Hfresh1 : uuids_fresh w1) by (by apply uuids_fresh_step).
      destruct (IH w1 Hfresh1)
        as (w' & created & idx & Hrun & Hf' & Hfolders & Hsub & Hp & Hn & Hnone & Hall & Hrest).
      exists w', (row :: created), (j :: idx). split_and!; try done; try apply Hrest.
      * rewrite Hfolders. subst w1. cbn [db folders set_folders].
        by rewrite <- app_assoc.
      * by apply sublist_skip.
      * simpl. by rewrite Hp.
      * simpl. by rewrite Hn.
      * constructor; [done|].
        eapply Forall_impl; [exact Hnone|]. intros i Hi.
        unfold GetFolderByPath in *. subst w1. cbn [db folders set_folders] in Hi.
        by eapply find_app_None_inv.
      * intros k Hk. apply elem_of_cons in Hk as [->|Hk]; [|by apply Hall].
        unfold GetFolderByPath. rewrite Hfolders. subst w1. cbn [db folders set_folders].
        rewrite <- app_assoc.
        destruct (find_singleton_hit
                    (fun f => bool_decide (Folder.Path f = folderPrefix parts j))
                    (folders (db w)) row) as [x Hx].
        { by apply bool_decide_eq_true_2. }
        rewrite app_assoc. erewrite find_app_Some; eauto.
Qed.

Lemma ensureFolders_loop_noop (parts : list string) (js : list nat) (w : World) :
  (forall j, j ∈ js -> is_Some (GetFolderByPath (db w) (folderPrefix parts j))) ->
  forM_ js (ensureFolder parts) w = (tt, w).
Proof.
  induction js as [|j js IH]; intros Hall; [done|].
  cbn [forM_]. unfold mbind, M_bind.
  rewrite ensureFolder_present by (apply Hall; left).
  apply IH. intros k Hk. apply Hall. by right.
Qed.

(** C8. For a script path with at least one directory segment and a
    UUID generator that never repeats itself nor an id of the folders
    table, one run of [ensureFolders] leaves a folder row at every proper
    prefix of the path; the rows it adds are appended in order of
    increasing depth, each at a prefix that had no row, named after that
    prefix's last segment; no other table changes; and a second run on
    the resulting state changes nothing. *)
Theorem ensureFolders_complete_idempotent (scriptPath : string) (w : World) :
  let parts := Split (TrimPrefix scriptPath "/") "/" in
  let w1 := (ensureFolders scriptPath w).2 in
  1 < length parts ->
  uuids_fresh w ->
  (forall i, 1 <= i < length parts ->
             is_Some (GetFolderByPath (db w1) (folderPrefix parts i))) /\
  (exists created idx,
     folders (db w1) = folders (db w) ++ created
     /\ idx `sublist_of` seq 1 (length parts - 1)
     /\ map Folder.Path created = map (folderPrefix parts) idx
     /\ map Folder.Name created = map (folderSegment parts) idx
     /\ Forall (fun i => GetFolderByPath (db w) (folderPrefix parts i) = None) idx) /\
  (scripts (db w1) = scripts (db w) /\ auth_tokens (db w1) = auth_tokens (db w)
   /\ audit_log (db w1) = audit_log (db w)
   /\ script_versions (db w1) = script_versions (db w)) /\
  ensureFolders scriptPath w1 = (tt, w1).
Proof.
  intros parts w1 Hlen Hfresh.
  destruct (ensureFolders_loop parts (seq 1 (length parts - 1)) w Hfresh)
    as (w' & created & idx & Hrun & Hf' & Hfolders & Hsub & Hp & Hn & Hnone & Hall & Hrest).
  assert (Hw1 : w1 = w').
  { subst w1. unfold ensureFolders. fold parts.
    rewrite (proj2 (Nat.leb_gt (length parts) 1)) by lia. by rewrite Hrun. }
  rewrite Hw1. split_and!; try apply Hrest.
  - intros i Hi. apply Hall. apply elem_of_seq. lia.
  - exists created, idx. done.
  - unfold ensureFolders. fold parts.
    rewrite (proj2 (Nat.leb_gt (length parts) 1)) by lia.
    by apply ensureFolders_loop_noop.
Qed.

End folders.

Lemma exampleLibs_uuids_fresh (w : World) :
  folders (db w) = [] -> @uuids_fresh exampleLibs w.
Proof.
  intros Hempty. split.
  - intros n _. rewrite Hempty. apply not_elem_of_nil.
  - intros n m _ _ Heq. simpl in Heq.
    apply (inj (String.append "uuid-")) in Heq. by apply (inj pretty) in Heq.
Qed.

Lemma ensureFolders_complete_idempotent_witness :
  is_Some (GetFolderByPath (db (@ensureFolders exampleLibs "/a/b/c.sh" demoWorld).2) "/a/b").
Proof.
  refine (proj1 (@ensureFolders_complete_idempotent exampleLibs "/a/b/c.sh" demoWorld _ _) 2 _).
  - vm_compute. lia.
  - by apply exampleLibs_uuids_fresh.
  - vm_compute. lia.
Defined.

(** On a store without folders, [/a/b/c.sh] gets the rows [/a] and
    [/a/b], in that order, and a second run adds none. *)
Example ensureFolders_twice :
  let w1 := (@ensureFolders exampleLibs "/a/b/c.sh" demoWorld).2 in
  let w2 := (@ensureFolders exampleLibs "/a/b/c.sh" w1).2 in
  folders (db w1)
  = [ {| Folder.ID := "uuid-0"; Folder.Path := "/a"; Folder.Name := "a";
         Folder.CreatedAt := 1000%Z |};
      {| Folder.ID := "uuid-1"; Folder.Path := "/a/b"; Folder.Name := "b";
         Folder.CreatedAt := 1001%Z |} ]
  /\ folders (db w2) = folders (db w1).
Proof. vm_compute. split; reflexivity. Qed.

(* ===================================================================== *)
(** * Moving a script *)
(* ===================================================================== *)

Section move.
Context `{!Libs}.

(** [APIUpdateScript] never writes to the folders table. *)
Lemma APIUpdateScript_folders (s : Server) (body : option ScriptRequest)
    (r : Request) (w : World) :
  folders (db (APIUpdateScript s body r w).2) = folders (db w).
Proof.
  unfold APIUpdateScript. run_handler.
  destruct body as [req|]; [|done].
  destruct (validatePath (req_Path req)); [done|].
  destruct (GetScript (db w) (PathValueId r)) as [existing|]; [|done].
  match goal with |- context [match ?h with Some _ => _ | None => _ end] =>
    destruct h as [passwordHash|] end; [|done].
  unfold mbind, M_bind, exec, mret, M_ret, getDB. simpl.
  unfold UpdateScript.
  match goal with |- context [if ?c then None else _] => destruct c end; [done|].
  simpl. destruct (bool_decide (Script.Content existing = req_Content req)); simpl; done.
Qed.

End move.

(** C4. On the demo store, which has no folder rows, moving script
    [s-pub] from [/x.sh] to [/a/b/c.sh] through [APIUpdateScript]
    succeeds and the script is then stored at the new path, yet no folder
    row exists at [/a] or [/a/b]; creating a script at the same path
    through [APICreateScript] does produce both rows. *)
Theorem APIUpdateScript_move_skips_folders :
  let moved := @APIUpdateScript exampleLibs demoServer (Some demoMove) (demoPut "s-pub") demoWorld in
  let created := @APICreateScript exampleLibs demoServer (Some demoMove) (demoPut "") demoWorld in
  (exists resp, moved.1 = ScriptOK StatusOK resp /\ sr_ID resp = "s-pub"
                /\ sr_Path resp = "/a/b/c.sh")
  /\ Script.ID <$> GetScriptByPath (db moved.2) "/a/b/c.sh" = Some "s-pub"
  /\ folders (db moved.2) = []
  /\ GetFolderByPath (db moved.2) "/a" = None
  /\ GetFolderByPath (db moved.2) "/a/b" = None
  /\ (exists resp, created.1 = ScriptOK StatusCreated resp /\ sr_Path resp = "/a/b/c.sh")
  /\ map Folder.Path (folders (db created.2)) = ["/a"; "/a/b"].
Proof.
  vm_compute. split_and!; try reflexivity; eexists; split_and!; reflexivity.
Qed.

(* ===================================================================== *)
(** * The tree *)
(* ===================================================================== *)

Section tree_nodes.

Lemma withChildren_same (n : TreeNode.t) : withChildren n (TreeNode.Children n) = n.
Proof. by destruct n. Qed.

Lemma register_fold_heap {A : Type} (f : A -> TreeNode.t) (l : list A)
    (st : Heap * gmap string ptr) :
  (fold_left (fun st x => register st (f x)) l st).1 = st.1 ++ map f l.
Proof.
  revert st. induction l as [|x l IH]; intros st; simpl.
  - by rewrite app_nil_r.
  - rewrite IH. simpl. by rewrite <- app_assoc.
Qed.

Lemma register_wf (st : Heap * gmap string ptr) (node : TreeNode.t) :
  nodes_wf st -> TreeNode.Children node = [] -> nodes_wf (register st node).
Proof.
  intros [Hkeys Hleaf] Hnode. split; simpl.
  - intros k a Hk. destruct (decide (TreeNode.Path node = k)) as [<-|Hne].
    + rewrite lookup_insert_eq in Hk. injection Hk as <-.
      exists node. split; [|done]. by apply list_lookup_middle.
    + rewrite lookup_insert_ne in Hk by done.
      destruct (Hkeys k a Hk) as (n & Hn & Hp). exists n. split; [|done].
      by apply lookup_app_l_Some.
  - apply Forall_app. split; [done|]. by constructor.
Qed.

Lemma register_fold_wf {A : Type} (f : A -> TreeNode.t) (l : list A)
    (st : Heap * gmap string ptr) :
  (forall x, TreeNode.Children (f x) = []) ->
  nodes_wf st -> nodes_wf (fold_left (fun st x => register st (f x)) l st).
Proof.
  intros Hf. revert st. induction l as [|x l IH]; intros st Hst; simpl; [done|].
  apply IH. by apply register_wf.
Qed.

(** After a registration loop, the key of every registered element
    points at a node registered by that loop. *)
Lemma register_fold_lookup {A : Type} (f : A -> TreeNode.t) (l : list A)
    (st : Heap * gmap string ptr) (x : A) :
  x ∈ l ->
  exists a y,
    (fold_left (fun st x => register st (f x)) l st).2 !! TreeNode.Path (f x) = Some a
    /\ (fold_left (fun st x => register st (f x)) l st).1 !! a = Some (f y)
    /\ y ∈ l.
Proof.
  revert x. induction l as [|z l IH] using rev_ind; intros x Hx.
  - by apply elem_of_nil in Hx.
  - rewrite fold_left_app. simpl.
    set (st' := fold_left (fun st x => register st (f x)) l st) in *.
    destruct (decide (TreeNode.Path (f z) = TreeNode.Path (f x))) as [Heq|Hne].
    + exists (length st'.1), z. rewrite <- Heq. split_and!.
      * apply lookup_insert_eq.
      * by apply list_lookup_middle.
      * apply elem_of_app. right. by left.
    + apply elem_of_app in Hx as [Hx|Hx]; [|apply list_elem_of_singleton in Hx; by subst].
      destruct (IH x Hx) as (a & y & Ha & Hy & Hin).
      exists a, y. split_and!.
      * by rewrite lookup_insert_ne.
      * by apply lookup_app_l_Some.
      * apply elem_of_app. by left.
Qed.

Lemma appendChild_length (h : Heap) (parent node : ptr) :
  length (appendChild h parent node) = length h.
Proof. unfold appendChild. apply length_alter. Qed.

Lemma attach_lookup (m : gmap string ptr) (h : Heap) (k : string) (p : ptr) (n : TreeNode.t) :
  h !! p = Some n ->
  attach m h k !! p
  = Some (withChildren n (TreeNode.Children n ++ childrenOf m [k] p)).
Proof.
  intros Hp. unfold attach, childrenOf, attachTarget. simpl.
  destruct (m !! k) as [node|]; simpl;
    [|by rewrite app_nil_r, withChildren_same].
  destruct (decide (k = "/")) as [->|Hk].
  { rewrite bool_decide_eq_true_2 by done.
    rewrite bool_decide_eq_false_2 by naive_solver.
    by rewrite app_nil_r, withChildren_same. }
  rewrite (bool_decide_eq_false_2 _ Hk).
  set (target := default root (m !! getParentPath k)).
  assert (Hattach : match m !! getParentPath k with
                    | Some parent => appendChild h parent node
                    | None => appendChild h root node
                    end = appendChild h target node).
  { subst target. by destruct (m !! getParentPath k). }
  rewrite Hattach. unfold appendChild.
  destruct (decide (target = p)) as [->|Hne].
  - rewrite bool_decide_eq_true_2 by done.
    rewrite list_lookup_alter_eq, Hp. done.
  - rewrite bool_decide_eq_false_2 by naive_solver.
    rewrite list_lookup_alter_ne, Hp by done.
    by rewrite app_nil_r, withChildren_same.
Qed.

Lemma childrenOf_cons (m : gmap string ptr) (k : string) (order : list string) (p : ptr) :
  childrenOf m (k :: order) p = childrenOf m [k] p ++ childrenOf m order p.
Proof. unfold childrenOf. simpl. by destruct (_ ≫= _). Qed.

Lemma buildHierarchy_lookup (m : gmap string ptr) (order : list string) (h : Heap)
    (p : ptr) (n : TreeNode.t) :
  h !! p = Some n ->
  buildHierarchy m order h !! p
  = Some (withChildren n (TreeNode.Children n ++ childrenOf m order p)).
Proof.
  revert h n. induction order as [|k order IH]; intros h n Hp.
  - unfold childrenOf. simpl. by rewrite app_nil_r, withChildren_same.
  - unfold buildHierarchy in *. cbn [fold_left].
    erewrite IH by (by apply attach_lookup).
    rewrite (childrenOf_cons m k order). simpl. by rewrite app_assoc.
Qed.

Lemma buildHierarchy_length (m : gmap string ptr) (order : list string) (h : Heap) :
  length (buildHierarchy m order h) = length h.
Proof.
  revert h. induction order as [|k order IH]; intros h; [done|].
  unfold buildHierarchy in *. cbn [fold_left]. rewrite IH.
  unfold attach. repeat case_match; try done; apply appendChild_length.
Qed.

Lemma elem_of_childrenOf (m : gmap string ptr) (order : list string) (p a : ptr) :
  a ∈ childrenOf m order p
  <-> exists k, k ∈ order /\ m !! k = Some a /\ k <> "/" /\ attachTarget m k = p.
Proof.
  unfold childrenOf. rewrite list_elem_of_omap. split.
  - intros (k & Hk & Hsome). exists k. split; [done|].
    destruct (m !! k) as [node|]; simpl in Hsome; [|done].
    case_bool_decide; naive_solver.
  - intros (k & Hk & Hm & Hne & Ht). exists k. split; [done|].
    rewrite Hm. simpl. by rewrite bool_decide_eq_true_2.
Qed.

Lemma childrenOf_NoDup (m : gmap string ptr) (order : list string) (p : ptr) :
  (forall k1 k2 a, m !! k1 = Some a -> m !! k2 = Some a -> k1 = k2) ->
  NoDup order -> NoDup (childrenOf m order p).
Proof.
  intros Hinj Hnd. induction Hnd as [|k order Hk Hnd IH].
  - constructor.
  - rewrite childrenOf_cons. unfold childrenOf at 1. simpl.
    destruct (m !! k) as [node|] eqn:Hm; simpl; [|done].
    case_bool_decide; simpl; [|done].
    constructor; [|done].
    intros Hin. apply elem_of_childrenOf in Hin as (k' & Hk' & Hm' & _).
    assert (k' = k) by eauto. by subst.
Qed.

End tree_nodes.

Section tree_shape.

Lemma buildNodes_heap (d : DB) :
  (buildNodes d).1
  = rootNode :: map folderNode (ListFolders d) ++ map scriptNode (ListScripts d).
Proof. unfold buildNodes. by rewrite !register_fold_heap. Qed.

Lemma buildNodes_wf (d : DB) : nodes_wf (buildNodes d).
Proof.
  unfold buildNodes. apply register_fold_wf; [done|].
  apply register_fold_wf; [done|]. split; simpl.
  - intros k a Hk. apply lookup_singleton_Some in Hk as [<- <-]. by exists rootNode.
  - by repeat constructor.
Qed.

Lemma buildNodes_inj (d : DB) (k1 k2 : string) (a : ptr) :
  (buildNodes d).2 !! k1 = Some a -> (buildNodes d).2 !! k2 = Some a -> k1 = k2.
Proof.
  intros H1 H2. destruct (buildNodes_wf d) as [Hkeys _].
  destruct (Hkeys _ _ H1) as (n1 & Hn1 & <-).
  destruct (Hkeys _ _ H2) as (n2 & Hn2 & <-). congruence.
Qed.

Lemma treeHeap_lookup (d : DB) (order : list string) (p : ptr) (n : TreeNode.t) :
  (buildNodes d).1 !! p = Some n ->
  treeHeap d order !! p = Some (withChildren n (childrenOf (buildNodes d).2 order p)).
Proof.
  intros Hp. unfold treeHeap. cbv zeta.
  rewrite (buildHierarchy_lookup _ _ _ _ _ Hp).
  destruct (buildNodes_wf d) as [_ Hleaf].
  rewrite Forall_lookup in Hleaf. by rewrite (Hleaf _ _ Hp).
Qed.

Lemma treeHeap_lookup_inv (d : DB) (order : list string) (p : ptr) (np : TreeNode.t) :
  treeHeap d order !! p = Some np ->
  exists n, (buildNodes d).1 !! p = Some n
            /\ np = withChildren n (childrenOf (buildNodes d).2 order p).
Proof.
  intros Hp.
  assert (Hlt : p < length (buildNodes d).1).
  { apply lookup_lt_Some in Hp. unfold treeHeap in Hp. cbv zeta in Hp.
    by rewrite buildHierarchy_length in Hp. }
  destruct (lookup_lt_is_Some_2 _ _ Hlt) as [n Hn].
  exists n. split; [done|].
  rewrite (treeHeap_lookup _ order _ _ Hn) in Hp. congruence.
Qed.

Lemma attachTarget_valid (d : DB) (k : string) :
  is_Some ((buildNodes d).1 !! attachTarget (buildNodes d).2 k).
Proof.
  unfold attachTarget.
  destruct ((buildNodes d).2 !! getParentPath k) as [t|] eqn:Ht; simpl.
  - destruct (buildNodes_wf d) as [Hkeys _].
    destruct (Hkeys _ _ Ht) as (n & Hn & _). eauto.
  - rewrite buildNodes_heap. simpl. eauto.
Qed.

(** The general part of the tree property, for any store and any
    iteration order over the keys of the node map. *)
Lemma treeHeap_placement (d : DB) (order : list string) :
  (map_to_list (buildNodes d).2).*1 ≡ₚ order ->
  map (fun n => withChildren n []) (treeHeap d order)
  = rootNode :: map folderNode (ListFolders d) ++ map scriptNode (ListScripts d)
  /\ (forall p np,
        treeHeap d order !! p = Some np ->
        NoDup (TreeNode.Children np)
        /\ forall a, a ∈ TreeNode.Children np ->
             exists k, (buildNodes d).2 !! k = Some a /\ k <> "/"
                       /\ attachTarget (buildNodes d).2 k = p)
  /\ (forall sc,
        sc ∈ scripts d -> Script.Path sc <> "/" ->
        exists a n,
          (buildNodes d).2 !! Script.Path sc = Some a
          /\ treeHeap d order !! a = Some n
          /\ TreeNode.Type_ n = "script"
          /\ TreeNode.Path n = Script.Path sc
          /\ (exists np, treeHeap d order !! attachTarget (buildNodes d).2 (Script.Path sc)
                         = Some np
                         /\ a ∈ TreeNode.Children np)
          /\ (forall p np, treeHeap d order !! p = Some np -> a ∈ TreeNode.Children np ->
                           p = attachTarget (buildNodes d).2 (Script.Path sc))).
Proof.
  intros Hperm.
  assert (Hnodup : NoDup order).
  { rewrite <- Hperm. apply NoDup_fst_map_to_list. }
  assert (Hin : forall k a, (buildNodes d).2 !! k = Some a -> k ∈ order).
  { intros k a Hk. rewrite <- Hperm. apply list_elem_of_fmap.
    exists (k, a). split; [done|]. by apply elem_of_map_to_list. }
  destruct (buildNodes_wf d) as [Hkeys Hleaf].
  rewrite Forall_lookup in Hleaf.
  split; [|split].
  - rewrite <- buildNodes_heap. apply list_eq. intros i.
    rewrite list_lookup_fmap.
    destruct ((buildNodes d).1 !! i) as [n|] eqn:Hn.
    + rewrite (treeHeap_lookup _ order _ _ Hn). simpl.
      rewrite <- (Hleaf _ _ Hn). unfold withChildren. simpl. by destruct n.
    + apply lookup_ge_None in Hn.
      rewrite (proj2 (lookup_ge_None (treeHeap d order) i)); [done|].
      unfold treeHeap. cbv zeta. by rewrite buildHierarchy_length.
  - intros p np Hp.
    destruct (treeHeap_lookup_inv _ _ _ _ Hp) as (n & Hn & ->). simpl. split.
    + apply childrenOf_NoDup; [|done]. intros k1 k2 a. apply buildNodes_inj.
    + intros a Ha. apply elem_of_childrenOf in Ha as (k & _ & Hk). by exists k.
  - intros sc Hsc Hroot.
    assert (Hsc' : sc ∈ ListScripts d).
    { unfold ListScripts. by rewrite merge_sort_Permutation. }
    destruct (register_fold_lookup scriptNode (ListScripts d)
                (fold_left (fun st f => register st (folderNode f)) (ListFolders d)
                   ([rootNode], {["/" := root]})) sc Hsc') as (a & y & Ha & Hy & _).
    change (TreeNode.Path (scriptNode sc)) with (Script.Path sc) in Ha.
    fold (buildNodes d) in Ha, Hy.
    assert (Hpath : Script.Path y = Script.Path sc).
    { destruct (Hkeys _ _ Ha) as (n & Hn & Hp). rewrite Hy in Hn. by injection Hn as <-. }
    exists a, (withChildren (scriptNode y) (childrenOf (buildNodes d).2 order a)).
    split_and!; try done.
    + by apply treeHeap_lookup.
    + destruct (attachTarget_valid d (Script.Path sc)) as [nt Hnt].
      eexists. split; [by apply treeHeap_lookup|]. simpl.
      apply elem_of_childrenOf. exists (Script.Path sc). split_and!; eauto.
    + intros p np Hp Hchild.
      destruct (treeHeap_lookup_inv _ _ _ _ Hp) as (n & Hn & ->). simpl in Hchild.
      apply elem_of_childrenOf in Hchild as (k & _ & Hk & _ & <-).
      by rewrite (buildNodes_inj d k (Script.Path sc) a).
Qed.

End tree_shape.

(* ===================================================================== *)
(** * Splitting and joining *)
(* ===================================================================== *)

Section split_join.

Lemma slice_to_from (k : nat) (s : string) : slice_to k s +:+ slice_from k s = s.
Proof.
  revert s. induction k as [|k IH]; intros s; [done|].
  destruct s as [|c s]; [done|]. simpl. rewrite append_cons. by rewrite IH.
Qed.

Lemma slice_from_length (k : nat) (s : string) :
  String.length (slice_from k s) <= String.length s.
Proof.
  revert s. induction k as [|k IH]; intros s; [done|].
  destruct s as [|c s]; simpl; [done|]. specialize (IH s). lia.
Qed.

Lemma split_go_skip (sep s : string) (k : nat) (cur : string) :
  split_go sep s k cur = split_go sep (slice_from k s) 0 cur.
Proof.
  revert k. induction s as [|c s IH]; intros k.
  - by destruct k.
  - destruct k as [|k]; [done|]. simpl. apply IH.
Qed.

Lemma split_go_nonempty (sep s : string) (k : nat) (cur : string) :
  split_go sep s k cur <> [].
Proof.
  revert k cur. induction s as [|c s IH]; intros k cur; simpl; [done|].
  destruct k; [|apply IH]. destruct (HasPrefix _ _); [done | apply IH].
Qed.

Lemma Join_cons (x : string) (l : list string) (sep : string) :
  l <> [] -> Join (x :: l) sep = x +:+ sep +:+ Join l sep.
Proof. by destruct l. Qed.

Lemma Join_snoc (l : list string) (x sep : string) :
  l <> [] -> Join (l ++ [x]) sep = Join l sep +:+ sep +:+ x.
Proof.
  induction l as [|y l IH]; intros Hne; [done|].
  destruct l as [|z l]; [done|].
  rewrite <- app_comm_cons, Join_cons by done.
  rewrite IH by done. rewrite (Join_cons y) by done.
  by rewrite !append_assoc.
Qed.

Lemma Join_split_go (sep : string) (n : nat) (s cur : string) :
  sep <> "" -> String.length s <= n ->
  Join (split_go sep s 0 cur) sep = cur +:+ s.
Proof.
  intros Hsep. revert s cur. induction n as [|n IH]; intros s cur Hlen.
  - destruct s; [|simpl in Hlen; lia]. simpl. by rewrite append_empty_r.
  - destruct s as [|c s]; [simpl; by rewrite append_empty_r|].
    cbn [split_go]. destruct (HasPrefix (String c s) sep) eqn:Hpre.
    + rewrite split_go_skip, Join_cons by apply split_go_nonempty.
      rewrite IH.
      2:{ pose proof (slice_from_length (String.length sep - 1) s). simpl in Hlen. lia. }
      unfold HasPrefix in Hpre. apply andb_true_iff in Hpre as [_ Hpre].
      apply bool_decide_eq_true in Hpre.
      destruct sep as [|c' sep']; [done|]. simpl in *.
      rewrite Nat.sub_0_r.
      injection Hpre as -> Hpre.
      rewrite <- (slice_to_from (String.length sep') s) at 2.
      rewrite Hpre. done.
    + rewrite IH by (simpl in Hlen; lia). by rewrite append_assoc.
Qed.

Lemma Join_Split (s sep : string) : sep <> "" -> Join (Split s sep) sep = s.
Proof. intros Hsep. unfold Split. by rewrite (Join_split_go sep (String.length s)). Qed.

Lemma TrimPrefix_append (p s : string) : TrimPrefix (p +:+ s) p = s.
Proof. unfold TrimPrefix. by rewrite HasPrefix_append, slice_from_append. Qed.

(** A parent path other than the root is strictly shallower. *)
Lemma getParentPath_depth (k : string) :
  getParentPath k <> "/" -> keyDepth (getParentPath k) < keyDepth k.
Proof.
  unfold getParentPath. case_bool_decide; [done|].
  set (parts := Split (TrimPrefix k "/") "/").
  destruct (length parts <=? 1)%nat eqn:Hlen; [done|]. intros _.
  apply Nat.leb_gt in Hlen.
  unfold keyDepth. rewrite TrimPrefix_append.
  assert (Hk : TrimPrefix k "/" = Join parts "/") by (symmetry; by apply Join_Split).
  rewrite Hk.
  assert (Hdrop : exists x, drop (length parts - 1) parts = [x]).
  { destruct (drop (length parts - 1) parts) as [|x [|y l]] eqn:Hd.
    - apply (f_equal length) in Hd. rewrite length_drop in Hd. simpl in Hd. lia.
    - eauto.
    - apply (f_equal length) in Hd. rewrite length_drop in Hd. simpl in Hd. lia. }
  destruct Hdrop as [x Hx].
  replace (Join parts "/") with (Join (take (length parts - 1) parts ++ [x]) "/")
    by (by rewrite <- Hx, take_drop).
  rewrite Join_snoc.
  2:{ intros Hnil. apply (f_equal length) in Hnil. rewrite length_take in Hnil.
      simpl in Hnil. lia. }
  rewrite !length_append. simpl. lia.
Qed.

End split_join.

(* ===================================================================== *)
(** * The encoded tree exists *)
(* ===================================================================== *)

Section tree_total.

Lemma rank_child (d : DB) (order : list string) (p c : ptr) :
  c ∈ childrenOf (buildNodes d).2 order p ->
  c < length (buildNodes d).1 /\ rank (buildNodes d) p < rank (buildNodes d) c.
Proof.
  intros Hc. apply elem_of_childrenOf in Hc as (k & _ & Hk & Hroot & Htarget).
  destruct (buildNodes_wf d) as [Hkeys _].
  destruct (Hkeys _ _ Hk) as (n & Hn & Hpath).
  split; [by eapply lookup_lt_Some|].
  assert (Hrc : rank (buildNodes d) c = S (keyDepth k)).
  { unfold rank. rewrite Hn, Hpath. by rewrite bool_decide_eq_true_2. }
  rewrite Hrc. unfold rank, attachTarget in *.
  destruct ((buildNodes d).2 !! getParentPath k) as [t|] eqn:Ht; simpl in Htarget; subst p.
  - destruct (Hkeys _ _ Ht) as (nt & Hnt & Hpt). rewrite Hnt, Hpt.
    case_bool_decide as Hcase; [|lia].
    destruct Hcase as [_ Hne]. pose proof (getParentPath_depth k Hne). lia.
  - rewrite buildNodes_heap. simpl.
    rewrite bool_decide_eq_false_2 by naive_solver. lia.
Qed.

Lemma bounded_NoDup_length (l : list nat) (n : nat) :
  NoDup l -> Forall (fun a => a < n) l -> length l <= n.
Proof.
  intros Hnd Hlt.
  assert (Hseq : length (seq 0 n) = n) by apply length_seq.
  rewrite <- Hseq.
  apply submseteq_length, NoDup_submseteq; [done|].
  intros a Ha. rewrite Forall_forall in Hlt. apply elem_of_seq.
  specialize (Hlt a Ha). lia.
Qed.

Lemma encodeTree_enough_fuel (d : DB) (order : list string) (fuel : nat)
    (p : ptr) (ancestors : list ptr) :
  p < length (buildNodes d).1 ->
  NoDup (p :: ancestors) ->
  Forall (fun a => a < length (buildNodes d).1) ancestors ->
  Forall (fun a => rank (buildNodes d) a < rank (buildNodes d) p) ancestors ->
  length (buildNodes d).1 <= fuel + length ancestors ->
  is_Some (encodeTree fuel (treeHeap d order) p).
Proof.
  revert p ancestors. induction fuel as [|fuel IH]; intros p ancestors Hp Hnd Hlt Hrank Hfuel.
  - exfalso.
    assert (length (p :: ancestors) <= length (buildNodes d).1).
    { apply bounded_NoDup_length; [done|]. by constructor. }
    simpl in *. lia.
  - destruct (lookup_lt_is_Some_2 _ _ Hp) as [n Hn].
    cbn [encodeTree]. rewrite (treeHeap_lookup d order p n Hn). simpl.
    assert (Hkids : is_Some (mapM (encodeTree fuel (treeHeap d order))
                               (childrenOf (buildNodes d).2 order p))).
    { apply mapM_is_Some_2, Forall_forall. intros c Hc. simpl.
      destruct (rank_child d order p c Hc) as [Hclt Hcrank].
      apply (IH c (p :: ancestors)); try done.
      - constructor; [|done]. intros Hin.
        apply elem_of_cons in Hin as [->|Hin]; [lia|].
        rewrite Forall_forall in Hrank. specialize (Hrank c Hin). lia.
      - by constructor.
      - constructor; [done|].
        eapply Forall_impl; [exact Hrank|]. simpl. intros a Ha. lia.
      - simpl. lia. }
    destruct Hkids as [kids ->]. simpl. eauto.
Qed.

(** Whatever the store and the iteration order, following the children
    pointers from the root ends, and the encoder yields a tree. *)
Lemma encodeTree_total (d : DB) (order : list string) :
  is_Some (encodeTree (S (length (treeHeap d order))) (treeHeap d order) root).
Proof.
  apply (encodeTree_enough_fuel d order _ root []).
  - rewrite buildNodes_heap. unfold root. simpl. lia.
  - repeat constructor. apply not_elem_of_nil.
  - constructor.
  - constructor.
  - unfold treeHeap. cbv zeta. rewrite buildHierarchy_length. simpl. lia.
Qed.

End tree_total.

Lemma treeDB_heaps :
  Forall (fun order =>
            treeHeap treeDB order = treeHeap treeDB ["/"; "/a"; "/a/b"; "/a/b/c.sh"; "/x.sh"]
            \/ treeHeap treeDB order = treeHeap treeDB ["/"; "/x.sh"; "/a"; "/a/b"; "/a/b/c.sh"])
         (permutations (map_to_list (buildNodes treeDB).2).*1).
Proof. apply (bool_decide_unpack _). vm_compute. exact I. Qed.

Lemma treeDB_shape (order : list string) :
  (map_to_list (buildNodes treeDB).2).*1 ≡ₚ order ->
  encodeTree (S (length (treeHeap treeDB order))) (treeHeap treeDB order) root
  = Some (rootOf [branch_a; leaf_x])
  \/ encodeTree (S (length (treeHeap treeDB order))) (treeHeap treeDB order) root
     = Some (rootOf [leaf_x; branch_a]).
Proof.
  intros Hperm. apply permutations_Permutation in Hperm.
  pose proof treeDB_heaps as Hall. rewrite Forall_forall in Hall.
  destruct (Hall order Hperm) as [-> | ->]; [left | right]; vm_compute; reflexivity.
Qed.

(** C3, as the code has it.  Whatever order the node map is iterated
    in, [APIGetTree] builds its tree from exactly one node per folder
    row and per script row besides the root, creating no node for a path
    that has no row, and the encoder always yields a tree; each script's
    node is appended, once, to the
    children of the node registered at its parent path and, when no node
    is registered there, to the children of the root; no children list
    holds a node twice.  With folders [/a] and [/a/b] and scripts
    [/a/b/c.sh] and [/x.sh] the root has the children [a] (holding [b],
    holding [c.sh]) and [x.sh], in either order. *)
Theorem APIGetTree_placement (s : Server) (r : Request) (w : World) (order : list string) :
  let nodeMap := (buildNodes (db w)).2 in
  let h := treeHeap (db w) order in
  (map_to_list nodeMap).*1 ≡ₚ order ->
  APIGetTree s order r w = (TreeOK (encodeTree (S (length h)) h root), w)
  /\ (exists tree, (APIGetTree s order r w).1 = TreeOK (Some tree))
  /\ map (fun n => withChildren n []) h
     = rootNode :: map folderNode (ListFolders (db w)) ++ map scriptNode (ListScripts (db w))
  /\ (forall p np,
        h !! p = Some np ->
        NoDup (TreeNode.Children np)
        /\ forall a, a ∈ TreeNode.Children np ->
             exists k, nodeMap !! k = Some a /\ k <> "/" /\ attachTarget nodeMap k = p)
  /\ (forall sc,
        sc ∈ scripts (db w) -> Script.Path sc <> "/" ->
        exists a n,
          nodeMap !! Script.Path sc = Some a
          /\ h !! a = Some n
          /\ TreeNode.Type_ n = "script"
          /\ TreeNode.Path n = Script.Path sc
          /\ (exists np, h !! attachTarget nodeMap (Script.Path sc) = Some np
                         /\ a ∈ TreeNode.Children np)
          /\ (forall p np, h !! p = Some np -> a ∈ TreeNode.Children np ->
                           p = attachTarget nodeMap (Script.Path sc)))
  /\ (db w = treeDB ->
      (APIGetTree s order r w).1 = TreeOK (Some (rootOf [branch_a; leaf_x]))
      \/ (APIGetTree s order r w).1 = TreeOK (Some (rootOf [leaf_x; branch_a]))).
Proof.
  intros nodeMap h Hperm.
  split; [done|].
  split.
  { destruct (encodeTree_total (db w) order) as [tree Htree].
    exists tree.
    change (APIGetTree s order r w) with (TreeOK (encodeTree (S (length h)) h root), w).
    subst h. cbn [fst]. by rewrite Htree. }
  destruct (treeHeap_placement (db w) order Hperm) as (Hnodes & Hchildren & Hscripts).
  split; [done|]. split; [done|]. split; [done|].
  intros Hdb.
  assert (Hrun : APIGetTree s order r w = (TreeOK (encodeTree (S (length h)) h root), w))
    by done.
  rewrite Hrun. cbn [fst]. subst nodeMap h. rewrite Hdb in *.
  destruct (treeDB_shape order Hperm) as [-> | ->]; [by left | by right].
Qed.

Lemma APIGetTree_placement_witness :
  (APIGetTree demoServer ["/x.sh"; "/a/b/c.sh"; "/"; "/a/b"; "/a"]
     (demoGet "/api/tree" [] []) treeWorld).1
  = TreeOK (Some (rootOf [branch_a; leaf_x]))
  \/ (APIGetTree demoServer ["/x.sh"; "/a/b/c.sh"; "/"; "/a/b"; "/a"]
        (demoGet "/api/tree" [] []) treeWorld).1
     = TreeOK (Some (rootOf [leaf_x; branch_a])).
Proof.
  refine (proj2 (proj2 (proj2 (proj2 (proj2
    (APIGetTree_placement demoServer (demoGet "/api/tree" [] []) treeWorld
       ["/x.sh"; "/a/b/c.sh"; "/"; "/a/b"; "/a"] _))))) _).
  - apply permutations_Permutation. apply (bool_decide_unpack _). vm_compute. exact I.
  - reflexivity.
Defined.

(** A script whose ancestors have no folder row hangs directly under the
    root: no node is made for [/a] or [/a/b], so the chain of segments
    [a], [b], [c.sh] leads nowhere. *)
Lemma APIGetTree_orphan_under_root :
  (APIGetTree demoServer ["/"; "/a/b/c.sh"] (demoGet "/api/tree" [] []) orphanWorld).1
  = TreeOK (Some (rootOf [leaf_c]))
  /\ (APIGetTree demoServer ["/a/b/c.sh"; "/"] (demoGet "/api/tree" [] []) orphanWorld).1
     = TreeOK (Some (rootOf [leaf_c]))
  /\ (map_to_list (buildNodes orphanDB).2).*1 = ["/a/b/c.sh"; "/"]
  /\ descend (rootOf [leaf_c]) ["a"; "b"; "c.sh"] = None
  /\ descend (rootOf [leaf_c]) ["a"] = None
  /\ descend (rootOf [branch_a; leaf_x]) ["a"; "b"; "c.sh"] = Some leaf_c.
Proof. vm_compute. split_and!; reflexivity. Qed.

(* ===================================================================== *)
(** * Further properties of the lock gate *)
(* ===================================================================== *)

Section gate_more.
Context `{!Libs}.

(** The run of [HandleScript] on a locked script when the supplied token
    is stored for that script: one clock reading decides. *)
Lemma HandleScript_locked_run (s : Server) (r : Request) (w : World)
    (script : Script.t) (t : AuthToken.t) :
  let path := if negb (HasPrefix (URLPath r) "/") then "/" +:+ URLPath r else URLPath r in
  let token :=
    if bool_decide (Get (Query r) "token" = "")
    then TrimPrefix (Get (Header r) "Authorization") "Bearer "
    else Get (Query r) "token" in
  GetScriptByPath (db w) path = Some script ->
  Script.Locked script <> 0%Z ->
  Get (Query r) "preview" <> "1" ->
  token <> "" ->
  GetAuthToken (db w) token = Some t ->
  AuthToken.ScriptID t = Script.ID script ->
  HandleScript s r w =
    (if (time_at (ticks w) <? AuthToken.ExpiresAt t)%Z
     then PlainText (Some "no-store") (Script.Content script)
     else PasswordPrompt (Hostname s) path,
     {| db := db w; uuids := uuids w; ticks := S (ticks w) |}).
Proof.
  intros path token Hscript Hlocked Hpreview Htok Hget Hid.
  unfold HandleScript. fold path. run_handler. rewrite Hscript.
  rewrite (bool_decide_eq_false_2 _ Hpreview).
  apply Z.eqb_neq in Hlocked. rewrite Hlocked. simpl. fold token.
  rewrite (bool_decide_eq_false_2 _ Htok). simpl. rewrite Hget.
  rewrite (bool_decide_eq_true_2 _ Hid). simpl.
  by destruct (time_at (ticks w) <? AuthToken.ExpiresAt t)%Z.
Qed.

(** The run of [HandleScript] on a script that is not locked. *)
Lemma HandleScript_unlocked_run (s : Server) (r : Request) (w : World) (script : Script.t) :
  let path := if negb (HasPrefix (URLPath r) "/") then "/" +:+ URLPath r else URLPath r in
  GetScriptByPath (db w) path = Some script ->
  Get (Query r) "preview" <> "1" ->
  Script.Locked script = 0%Z ->
  HandleScript s r w = (PlainText (Some "max-age=60") (Script.Content script), w).
Proof.
  intros path Hscript Hpreview Hlocked.
  unfold HandleScript. fold path. run_handler. rewrite Hscript.
  by rewrite (bool_decide_eq_false_2 _ Hpreview), Hlocked.
Qed.

(** X1. [HandleScript] only reads: whatever the request, the database
    and the UUID counter are as before.  A script that is not locked is
    served with [max-age=60] whatever token comes with the request, and a
    path without a script is answered 404; neither reads the clock. *)
Theorem HandleScript_read_only (s : Server) (r : Request) (w : World) :
  let path := if negb (HasPrefix (URLPath r) "/") then "/" +:+ URLPath r else URLPath r in
  db (HandleScript s r w).2 = db w
  /\ uuids (HandleScript s r w).2 = uuids w
  /\ (GetScriptByPath (db w) path = None ->
      HandleScript s r w = (HttpError "Script not found" StatusNotFound, w))
  /\ (forall script,
        GetScriptByPath (db w) path = Some script ->
        Get (Query r) "preview" <> "1" ->
        Script.Locked script = 0%Z ->
        HandleScript s r w = (PlainText (Some "max-age=60") (Script.Content script), w)).
Proof.
  intros path.
  assert (Hworld : db (HandleScript s r w).2 = db w
                   /\ uuids (HandleScript s r w).2 = uuids w).
  { unfold HandleScript. fold path. run_handler.
    destruct (GetScriptByPath (db w) path) as [script|]; [|done].
    destruct (bool_decide (Get (Query r) "preview" = "1")); [done|].
    destruct (Script.Locked script =? 0)%Z; simpl; [done|].
    match goal with |- context [negb (bool_decide (?tok = ""))] =>
      destruct (bool_decide (tok = "")); simpl; [done|];
      destruct (GetAuthToken (db w) tok) as [t|]; simpl; [|done]
    end.
    destruct (bool_decide (AuthToken.ScriptID t = Script.ID script)); simpl; [|done].
    by destruct (time_at (ticks w) <? AuthToken.ExpiresAt t)%Z. }
  destruct Hworld as [Hdb Huuids].
  split; [done|]. split; [done|].
  split.
  - unfold HandleScript. fold path. run_handler. by intros ->.
  - intros script Hscript Hpreview Hlocked. by apply HandleScript_unlocked_run.
Qed.

(** X2. [HandleUnlock] never touches scripts, folders or versions, and a
    token is stored only together with an [UnlockOK] answer: that answer
    is given only for a POST whose body names a stored, locked script
    with a password hash that the supplied password passes, and the token
    it carries is then stored for that script, expiring five minutes
    after the clock reading. *)
Theorem HandleUnlock_token_needs_password (s : Server) (body : option UnlockRequest)
    (r : Request) (w : World) :
  let res := HandleUnlock s body r w in
  scripts (db res.2) = scripts (db w)
  /\ folders (db res.2) = folders (db w)
  /\ script_versions (db res.2) = script_versions (db w)
  /\ ((forall token expires, res.1 <> UnlockOK token expires) ->
      auth_tokens (db res.2) = auth_tokens (db w))
  /\ (forall token expires,
        res.1 = UnlockOK token expires ->
        exists req script hash row,
          Method r = "POST" /\ body = Some req
          /\ GetScriptByPath (db w) (ur_Path req) = Some script
          /\ Script.Locked script <> 0%Z
          /\ Script.PasswordHash script = Some hash
          /\ CompareHashAndPassword hash (ur_Password req) = true
          /\ auth_tokens (db w) !! token = None
          /\ auth_tokens (db res.2) = <[token := row]> (auth_tokens (db w))
          /\ AuthToken.ScriptID row = Script.ID script
          /\ AuthToken.ExpiresAt row = (time_at (ticks w) + five_minutes)%Z).
Proof.
  intros res. subst res. unfold HandleUnlock. run_handler.
  destruct (decide (Method r = "POST")) as [Hm|Hm];
    [rewrite (bool_decide_eq_true_2 _ Hm) | rewrite (bool_decide_eq_false_2 _ Hm)];
    simpl; [|by split_and!].
  destruct body as [req|]; [|by split_and!].
  destruct (GetScriptByPath (db w) (ur_Path req)) as [script|] eqn:Hscript; [|by split_and!].
  destruct (Script.Locked script =? 0)%Z eqn:Hlocked; [by split_and!|].
  apply Z.eqb_neq in Hlocked.
  destruct (Script.PasswordHash script) as [hash|] eqn:Hhash; [|by split_and!].
  destruct (CompareHashAndPassword hash (ur_Password req)) eqn:Hcmp; simpl;
    [|by split_and!].
  unfold CreateAuthToken. simpl.
  destruct (auth_tokens (db w) !! uuid_at (uuids w)) as [old|] eqn:Hfresh; simpl;
    [by split_and!|].
  split_and!; try done.
  - intros Hno. by destruct (Hno (uuid_at (uuids w))
                               (FormatRFC3339 (time_at (ticks w) + five_minutes)%Z)).
  - intros token expires Heq. injection Heq as <- <-.
    eexists req, script, hash, _. split_and!; try done.
Qed.

(** The fetch that follows a successful unlock, as one equation. *)
Lemma unlock_then_fetch_run (s : Server) (post get : Request) (w : World)
    (req : UnlockRequest) (script : Script.t) (hash : string) (uuids' ticks' : nat) :
  let token := uuid_at (uuids w) in
  let w1 := (HandleUnlock s (Some req) post w).2 in
  let later := {| db := db w1; uuids := uuids'; ticks := ticks' |} in
  Method post = "POST" ->
  GetScriptByPath (db w) (ur_Path req) = Some script ->
  Script.Locked script <> 0%Z ->
  Script.PasswordHash script = Some hash ->
  CompareHashAndPassword hash (ur_Password req) = true ->
  auth_tokens (db w) !! token = None ->
  token <> "" ->
  URLPath get = ur_Path req ->
  HasPrefix (ur_Path req) "/" = true ->
  Get (Query get) "token" = token ->
  Get (Query get) "preview" <> "1" ->
  (HandleUnlock s (Some req) post w).1
  = UnlockOK token (FormatRFC3339 (time_at (ticks w) + five_minutes)%Z)
  /\ HandleScript s get later =
       (if (time_at ticks' <? time_at (ticks w) + five_minutes)%Z
        then PlainText (Some "no-store") (Script.Content script)
        else PasswordPrompt (Hostname s) (ur_Path req),
        {| db := db w1; uuids := uuids'; ticks := S ticks' |}).
Proof.
  intros token w1 later Hm Hscript Hlocked Hhash Hcmp Hfresh Hne Hpath Hslash Htok Hprev.
  assert (Hrun := HandleUnlock_success s post w req script hash Hm Hscript Hlocked Hhash
                    Hcmp Hfresh).
  split; [by rewrite Hrun|].
  set (row := {| AuthToken.Token := token; AuthToken.ScriptID := Script.ID script;
                 AuthToken.ExpiresAt := (time_at (ticks w) + five_minutes)%Z;
                 AuthToken.CreatedAt := time_at (S (ticks w));
                 AuthToken.IpAddress := Some (RemoteAddr post);
                 AuthToken.UserAgent := Some (Get (Header post) "User-Agent") |}).
  pose proof (HandleScript_locked_run s get later script row) as Hl.
  cbv zeta in Hl. rewrite Hpath, Hslash in Hl. simpl negb in Hl. cbv iota in Hl.
  rewrite Htok, (bool_decide_eq_false_2 _ Hne) in Hl.
  apply Hl; try done.
  - subst later w1. rewrite Hrun. exact Hscript.
  - subst later w1. rewrite Hrun. unfold GetAuthToken. simpl.
    apply lookup_insert_eq.
Qed.

(** X3. A token obtained from [HandleUnlock] opens its script until it
    expires and not after: presented (as the [token] query parameter of
    a fetch without preview) at any later clock reading, with the
    database as the unlock left it, the content is served exactly when
    that reading is strictly before the unlock's reading plus five
    minutes. *)
Theorem unlock_then_fetch (s : Server) (post get : Request) (w : World)
    (req : UnlockRequest) (script : Script.t) (hash : string) (uuids' ticks' : nat) :
  let token := uuid_at (uuids w) in
  let w1 := (HandleUnlock s (Some req) post w).2 in
  let later := {| db := db w1; uuids := uuids'; ticks := ticks' |} in
  Method post = "POST" ->
  GetScriptByPath (db w) (ur_Path req) = Some script ->
  Script.Locked script <> 0%Z ->
  Script.PasswordHash script = Some hash ->
  CompareHashAndPassword hash (ur_Password req) = true ->
  auth_tokens (db w) !! token = None ->
  token <> "" ->
  URLPath get = ur_Path req ->
  HasPrefix (ur_Path req) "/" = true ->
  Get (Query get) "token" = token ->
  Get (Query get) "preview" <> "1" ->
  (HandleUnlock s (Some req) post w).1
  = UnlockOK token (FormatRFC3339 (time_at (ticks w) + five_minutes)%Z)
  /\ ((HandleScript s get later).1 = PlainText (Some "no-store") (Script.Content script)
      <-> (time_at ticks' < time_at (ticks w) + five_minutes)%Z)
  /\ ((HandleScript s get later).1 = PasswordPrompt (Hostname s) (ur_Path req)
      <-> (time_at (ticks w) + five_minutes <= time_at ticks')%Z).
Proof.
  intros token w1 later Hm Hscript Hlocked Hhash Hcmp Hfresh Hne Hpath Hslash Htok Hprev.
  destruct (unlock_then_fetch_run s post get w req script hash uuids' ticks')
    as [Hrun Hfetch]; try done.
  split; [done|]. fold token w1 later in Hfetch. rewrite Hfetch. cbn [fst].
  destruct (time_at ticks' <? time_at (ticks w) + five_minutes)%Z eqn:Hlt.
  - apply Z.ltb_lt in Hlt. split; (split; [first [done | discriminate | lia]|]);
      first [done | lia].
  - apply Z.ltb_ge in Hlt. split; (split; [first [done | discriminate | lia]|]);
      first [done | lia].
Qed.

End gate_more.

Lemma unlock_then_fetch_witness :
  (@HandleScript exampleLibs demoServer (demoGet "/a/secret.sh" [("token", "uuid-0")] [])
     {| db := db (@HandleUnlock exampleLibs demoServer
                    (Some {| ur_Path := "/a/secret.sh"; ur_Password := "hunter2" |})
                    demoPost demoWorld).2;
        uuids := 1; ticks := 7 |}).1
  = PlainText (Some "no-store") "echo a".
Proof.
  refine (proj2 (proj1 (proj2 (@unlock_then_fetch exampleLibs demoServer demoPost
    (demoGet "/a/secret.sh" [("token", "uuid-0")] []) demoWorld
    {| ur_Path := "/a/secret.sh"; ur_Password := "hunter2" |}
    (demoScript "s-a" "/a/secret.sh" "secret.sh" "echo a" 1 (Some "$2a$hunter2"))
    "$2a$hunter2" 1 7 _ _ _ _ _ _ _ _ _ _ _))) _);
    first [reflexivity | discriminate].
Defined.

(* ===================================================================== *)
(** * Creating a script *)
(* ===================================================================== *)

Lemma find_app_None {A : Type} (f : A -> bool) (l l' : list A) :
  find f l = None -> find f (l ++ l') = find f l'.
Proof. induction l as [|y l IH]; simpl; [done|]. by destruct (f y). Qed.

Lemma CreateScript_free (d : DB) (row : Script.t) :
  script_slot_free d (Script.ID row) (Script.Path row) ->
  CreateScript d row = Some (set_scripts d (scripts d ++ [row])).
Proof.
  unfold script_slot_free, CreateScript. intros Hfree.
  replace (existsb _ (scripts d)) with false; [done|].
  symmetry. induction Hfree as [|sc l [Hid Hpath] _ IH]; simpl; [done|].
  by rewrite !bool_decide_eq_false_2, IH.
Qed.

Lemma CreateScript_taken (d : DB) (row sc : Script.t) :
  GetScriptByPath d (Script.Path row) = Some sc -> CreateScript d row = None.
Proof.
  unfold GetScriptByPath, CreateScript. intros Hfind.
  replace (existsb _ (scripts d)) with true; [done|].
  symmetry. induction (scripts d) as [|x l IH]; simpl in *; [done|].
  destruct (bool_decide (Script.Path x = Script.Path row)); [by rewrite orb_true_r|].
  rewrite orb_false_r. rewrite IH by done. apply orb_true_r.
Qed.

Lemma GetScriptByPath_new (d : DB) (row : Script.t) :
  script_slot_free d (Script.ID row) (Script.Path row) ->
  find (fun s => bool_decide (Script.Path s = Script.Path row)) (scripts d ++ [row])
  = Some row.
Proof.
  intros Hfree. rewrite find_app_None; [simpl; by rewrite bool_decide_eq_true_2|].
  induction Hfree as [|sc l [Hid Hpath] _ IH]; simpl; [done|].
  by rewrite bool_decide_eq_false_2.
Qed.

Lemma GetScript_new (d : DB) (row : Script.t) :
  script_slot_free d (Script.ID row) (Script.Path row) ->
  find (fun s => bool_decide (Script.ID s = Script.ID row)) (scripts d ++ [row])
  = Some row.
Proof.
  intros Hfree. rewrite find_app_None; [simpl; by rewrite bool_decide_eq_true_2|].
  induction Hfree as [|sc l [Hid Hpath] _ IH]; simpl; [done|].
  by rewrite bool_decide_eq_false_2.
Qed.

Section create.
Context `{!Libs}.

Lemma ensureFolders_run (scriptPath : string) (w : World) :
  uuids_fresh w ->
  ensureFolders scriptPath w = (tt, (ensureFolders scriptPath w).2)
  /\ uuids_fresh (ensureFolders scriptPath w).2
  /\ (exists created, folders (db (ensureFolders scriptPath w).2) = folders (db w) ++ created)
  /\ (forall i, 1 <= i < length (Split (TrimPrefix scriptPath "/") "/") ->
        is_Some (GetFolderByPath (db (ensureFolders scriptPath w).2)
                   (folderPrefix (Split (TrimPrefix scriptPath "/") "/") i)))
  /\ scripts (db (ensureFolders scriptPath w).2) = scripts (db w)
  /\ auth_tokens (db (ensureFolders scriptPath w).2) = auth_tokens (db w)
  /\ audit_log (db (ensureFolders scriptPath w).2) = audit_log (db w)
  /\ script_versions (db (ensureFolders scriptPath w).2) = script_versions (db w).
Proof.
  intros Hfresh. unfold ensureFolders.
  set (parts := Split (TrimPrefix scriptPath "/") "/").
  destruct (length parts <=? 1)%nat eqn:Hlen.
  - apply Nat.leb_le in Hlen. simpl. split_and!; try done.
    + exists []. by rewrite app_nil_r.
    + intros i Hi. lia.
  - destruct (ensureFolders_loop parts (seq 1 (length parts - 1)) w Hfresh)
      as (w' & created & idx & Hrun & Hf' & Hfolders & _ & _ & _ & _ & Hall & Hrest).
    rewrite Hrun. simpl. split_and!; try done; try apply Hrest.
    + by exists created.
    + intros i Hi. apply Hall, elem_of_seq. lia.
Qed.

Lemma uuids_fresh_later (w : World) (d : DB) (u t : nat) :
  uuids_fresh w -> folders d = folders (db w) -> uuids w <= u ->
  uuids_fresh {| db := d; uuids := u; ticks := t |}.
Proof.
  intros [Hnew Hinj] Hf Hu. split; simpl.
  - intros n Hn. rewrite Hf. apply Hnew. lia.
  - intros n m Hn Hm. apply Hinj; lia.
Qed.

(** The run of [APICreateScript] once the request has been accepted. *)
Lemma APICreateScript_run (s : Server) (req : ScriptRequest) (r : Request) (w : World)
    (passwordHash : option string) :
  validatePath (req_Path req) = None ->
  createHash req = Some passwordHash ->
  let id := uuid_at (uuids w) in
  let t := time_at (ticks w) in
  let w2 := (ensureFolders (req_Path req)
               {| db := db w; uuids := S (uuids w); ticks := S (ticks w) |}).2 in
  let row := createRow req id passwordHash t in
  uuids_fresh {| db := db w; uuids := S (uuids w); ticks := S (ticks w) |} ->
  APICreateScript s (Some req) r w =
    match CreateScript (db w2) row with
    | None => (HttpError "Script with this path already exists" StatusConflict, w2)
    | Some d3 =>
        let d5 := set_audit_log
                    (set_script_versions d3
                       (script_versions d3
                        ++ [{| ScriptVersion.ScriptID := id;
                               ScriptVersion.Content := req_Content req;
                               ScriptVersion.Version := 1;
                               ScriptVersion.CreatedAt := t |}]))
                    (audit_log d3 ++ [scriptAudit "CREATE" id (req_Path req) t]) in
        (ScriptOK StatusCreated (scriptToResponse (default zeroScript (GetScript d5 id))),
         {| db := d5; uuids := uuids w2; ticks := ticks w2 |})
    end.
Proof.
  intros Hvalid Hhash id t w2 row Hfresh.
  unfold APICreateScript. rewrite Hvalid.
  unfold createHash in Hhash. rewrite Hhash.
  unfold mbind at 1, M_bind at 1, now at 1.
  unfold mbind at 1, M_bind at 1, newUUID at 1. cbn [uuids ticks db].
  unfold mbind at 1, M_bind at 1.
  destruct (ensureFolders_run (req_Path req)
              {| db := db w; uuids := S (uuids w); ticks := S (ticks w) |} Hfresh)
    as (Hrun & _).
  rewrite Hrun. fold w2. fold id t. fold (createRow req id passwordHash t). fold row.
  run_handler. destruct (CreateScript (db w2) row) as [d3|]; simpl; done.
Qed.

End create.

Section create_properties.
Context `{!Libs}.

(** A successful [APICreateScript], table by table. *)
Lemma APICreateScript_success (s : Server) (req : ScriptRequest) (r : Request)
    (w : World) (passwordHash : option string) :
  let id := uuid_at (uuids w) in
  let t := time_at (ticks w) in
  let row := createRow req id passwordHash t in
  let res := APICreateScript s (Some req) r w in
  validatePath (req_Path req) = None ->
  createHash req = Some passwordHash ->
  uuids_fresh w ->
  script_slot_free (db w) id (req_Path req) ->
  res.1 = ScriptOK StatusCreated (scriptToResponse row)
  /\ scripts (db res.2) = scripts (db w) ++ [row]
  /\ GetScriptByPath (db res.2) (req_Path req) = Some row
  /\ GetScript (db res.2) id = Some row
  /\ script_versions (db res.2)
     = script_versions (db w)
       ++ [{| ScriptVersion.ScriptID := id; ScriptVersion.Content := req_Content req;
              ScriptVersion.Version := 1; ScriptVersion.CreatedAt := t |}]
  /\ audit_log (db res.2) = audit_log (db w) ++ [scriptAudit "CREATE" id (req_Path req) t]
  /\ auth_tokens (db res.2) = auth_tokens (db w)
  /\ (req_Locked req = false ->
      forall get, URLPath get = req_Path req -> Get (Query get) "preview" <> "1" ->
        HandleScript s get res.2
        = (PlainText (Some "max-age=60") (req_Content req), res.2)).
Proof.
  intros id t row res Hvalid Hhash Hfresh Hfree.
  assert (Hfresh1 : uuids_fresh {| db := db w; uuids := S (uuids w); ticks := S (ticks w) |})
    by (apply (uuids_fresh_later w); [done | done | lia]).
  destruct (ensureFolders_run (req_Path req) _ Hfresh1)
    as (_ & _ & _ & _ & Hs & Ht & Ha & Hv).
  cbn [db] in Hs, Ht, Ha, Hv.
  set (w2 := (ensureFolders (req_Path req)
                {| db := db w; uuids := S (uuids w); ticks := S (ticks w) |}).2) in *.
  assert (Hcreate : CreateScript (db w2) row
                    = Some (set_scripts (db w2) (scripts (db w2) ++ [row]))).
  { apply CreateScript_free. unfold script_slot_free. by rewrite Hs. }
  assert (Hrun := APICreateScript_run s req r w passwordHash Hvalid Hhash Hfresh1).
  cbv zeta in Hrun. fold w2 id t row in Hrun. rewrite Hcreate in Hrun.
  assert (Hbyid : find (fun sc => bool_decide (Script.ID sc = id)) (scripts (db w2) ++ [row])
                  = Some row).
  { rewrite Hs. by apply (GetScript_new (db w) row). }
  assert (Hbypath : find (fun sc => bool_decide (Script.Path sc = req_Path req))
                      (scripts (db w2) ++ [row]) = Some row).
  { rewrite Hs. by apply (GetScriptByPath_new (db w) row). }
  subst res. rewrite Hrun. cbn [fst snd db scripts script_versions audit_log auth_tokens
    set_audit_log set_script_versions set_scripts].
  unfold GetScript, GetScriptByPath.
  cbn [scripts set_audit_log set_script_versions set_scripts].
  rewrite Hbyid, Hbypath, Hs, Ht, Ha, Hv. split_and!; try done.
  intros Hunlocked get Hget Hprev.
  apply validatePath_None in Hvalid as (Hslash & _).
  match goal with |- HandleScript s get ?w' = _ =>
    pose proof (HandleScript_unlocked_run s get w' row) as Hpub end.
  cbv zeta in Hpub. rewrite Hget, Hslash in Hpub. simpl negb in Hpub. cbv iota in Hpub.
  rewrite Hpub; try done.
  - unfold GetScriptByPath. cbn [db scripts set_audit_log set_script_versions set_scripts].
    by rewrite <- Hs.
  - subst row. unfold createRow. cbn [Script.Locked]. by rewrite Hunlocked.
Qed.

(** X4. Creating and reading back.  For a request with a valid path
    whose password hashing succeeds, on a store where neither the path
    nor the generated id is taken (and with fresh folder ids),
    [APICreateScript] answers 201 with the new row, which is then found
    by path and by id; it appends version 1 and a CREATE audit row and
    leaves the tokens alone.  If the script is not locked, a fetch of
    that path serves the content just written. *)
Theorem APICreateScript_round_trip (s : Server) (req : ScriptRequest) (r : Request)
    (w : World) (passwordHash : option string) :
  let id := uuid_at (uuids w) in
  let t := time_at (ticks w) in
  let row := createRow req id passwordHash t in
  let res := APICreateScript s (Some req) r w in
  validatePath (req_Path req) = None ->
  createHash req = Some passwordHash ->
  uuids_fresh w ->
  script_slot_free (db w) id (req_Path req) ->
  res.1 = ScriptOK StatusCreated (scriptToResponse row)
  /\ scripts (db res.2) = scripts (db w) ++ [row]
  /\ GetScriptByPath (db res.2) (req_Path req) = Some row
  /\ GetScript (db res.2) id = Some row
  /\ script_versions (db res.2)
     = script_versions (db w)
       ++ [{| ScriptVersion.ScriptID := id; ScriptVersion.Content := req_Content req;
              ScriptVersion.Version := 1; ScriptVersion.CreatedAt := t |}]
  /\ audit_log (db res.2) = audit_log (db w) ++ [scriptAudit "CREATE" id (req_Path req) t]
  /\ auth_tokens (db res.2) = auth_tokens (db w)
  /\ (req_Locked req = false ->
      forall get, URLPath get = req_Path req -> Get (Query get) "preview" <> "1" ->
        HandleScript s get res.2
        = (PlainText (Some "max-age=60") (req_Content req), res.2)).
Proof. apply APICreateScript_success. Qed.

(** X5. Folders after a create.  Once [APICreateScript] has accepted a
    request (valid path, hashing succeeded), a folder row exists at every
    proper prefix of the script path, whether or not the insert of the
    script itself then succeeds; folder rows are only ever appended. *)
Theorem APICreateScript_ancestors (s : Server) (req : ScriptRequest) (r : Request)
    (w : World) (passwordHash : option string) :
  let parts := Split (TrimPrefix (req_Path req) "/") "/" in
  let res := APICreateScript s (Some req) r w in
  validatePath (req_Path req) = None ->
  createHash req = Some passwordHash ->
  uuids_fresh w ->
  (forall i, 1 <= i < length parts ->
     is_Some (GetFolderByPath (db res.2) (folderPrefix parts i)))
  /\ exists created, folders (db res.2) = folders (db w) ++ created.
Proof.
  intros parts res Hvalid Hhash Hfresh.
  assert (Hfresh1 : uuids_fresh {| db := db w; uuids := S (uuids w); ticks := S (ticks w) |})
    by (apply (uuids_fresh_later w); [done | done | lia]).
  destruct (ensureFolders_run (req_Path req) _ Hfresh1)
    as (_ & _ & Hext & Hall & _).
  cbn [db] in Hext.
  assert (Hrun := APICreateScript_run s req r w passwordHash Hvalid Hhash Hfresh1).
  cbv zeta in Hrun.
  assert (Hfolders : folders (db res.2)
                     = folders (db (ensureFolders (req_Path req)
                          {| db := db w; uuids := S (uuids w); ticks := S (ticks w) |}).2)).
  { subst res. rewrite Hrun. unfold CreateScript.
    by destruct (existsb _ _). }
  split.
  - intros i Hi. unfold GetFolderByPath. rewrite Hfolders. by apply Hall.
  - by rewrite Hfolders.
Qed.

(** X6. What [APICreateScript] refuses.  An undecodable body and a path
    the validator rejects are answered 400 (with the validator's
    message) before anything is read or written.  A valid request for a
    path that already has a script is answered 409 and leaves scripts,
    versions, audit log and tokens as they were. *)
Theorem APICreateScript_refusals (s : Server) (r : Request) (w : World) :
  APICreateScript s None r w = (HttpError "Invalid request body" StatusBadRequest, w)
  /\ (forall req err,
        validatePath (req_Path req) = Some err ->
        APICreateScript s (Some req) r w = (HttpError err StatusBadRequest, w))
  /\ (forall req passwordHash existing,
        validatePath (req_Path req) = None ->
        createHash req = Some passwordHash ->
        uuids_fresh w ->
        GetScriptByPath (db w) (req_Path req) = Some existing ->
        let res := APICreateScript s (Some req) r w in
        res.1 = HttpError "Script with this path already exists" StatusConflict
        /\ scripts (db res.2) = scripts (db w)
        /\ script_versions (db res.2) = script_versions (db w)
        /\ audit_log (db res.2) = audit_log (db w)
        /\ auth_tokens (db res.2) = auth_tokens (db w)).
Proof.
  split; [done|]. split.
  - intros req err Herr. unfold APICreateScript. by rewrite Herr.
  - intros req passwordHash existing Hvalid Hhash Hfresh Htaken res.
    assert (Hfresh1 : uuids_fresh
              {| db := db w; uuids := S (uuids w); ticks := S (ticks w) |})
      by (apply (uuids_fresh_later w); [done | done | lia]).
    destruct (ensureFolders_run (req_Path req) _ Hfresh1)
      as (_ & _ & _ & _ & Hs & Ht & Ha & Hv).
    cbn [db] in Hs, Ht, Ha, Hv.
    assert (Hrun := APICreateScript_run s req r w passwordHash Hvalid Hhash Hfresh1).
    cbv zeta in Hrun. subst res. rewrite Hrun.
    erewrite CreateScript_taken; [done|].
    unfold GetScriptByPath. rewrite Hs. exact Htaken.
Qed.

End create_properties.

Lemma APICreateScript_round_trip_witness :
  GetScriptByPath (db (@APICreateScript exampleLibs demoServer (Some demoMove)
                         (demoPut "") demoWorld).2) "/a/b/c.sh"
  = Some (createRow demoMove "uuid-0" None 1000%Z).
Proof.
  refine (proj1 (proj2 (proj2 (@APICreateScript_round_trip exampleLibs demoServer demoMove
    (demoPut "") demoWorld None _ _ _ _))));
    first [reflexivity | by apply exampleLibs_uuids_fresh | idtac].
  repeat constructor; discriminate.
Defined.

Lemma APICreateScript_ancestors_witness :
  is_Some (GetFolderByPath (db (@APICreateScript exampleLibs demoServer (Some demoMove)
                                  (demoPut "") demoWorld).2) "/a/b").
Proof.
  refine (proj1 (@APICreateScript_ancestors exampleLibs demoServer demoMove
    (demoPut "") demoWorld None _ _ _) 2 _);
    first [reflexivity | by apply exampleLibs_uuids_fresh | idtac].
  vm_compute. lia.
Defined.

Section handshake.
Context `{!Libs}.

(** X7. The whole handshake.  A script created locked with a non-empty
    password (hashing succeeded, and the hash accepts that password) is
    withheld from a fetch that carries no token, refuses any password the
    hash rejects with 401, and hands out for the right password a token
    with which a fetch, made before five minutes have passed on the
    clock, is served the content that was created. *)
Theorem create_unlock_fetch (s : Server) (req : ScriptRequest) (put post get bare : Request)
    (w : World) (hash : string) (uuids' ticks' : nat) :
  let w1 := (APICreateScript s (Some req) put w).2 in
  let token := uuid_at (uuids w1) in
  let unlock password :=
    HandleUnlock s (Some {| ur_Path := req_Path req; ur_Password := password |}) post w1 in
  let later := {| db := db (unlock (req_Password req)).2; uuids := uuids'; ticks := ticks' |} in
  validatePath (req_Path req) = None ->
  req_Locked req = true ->
  req_Password req <> "" ->
  GenerateFromPassword (req_Password req) = Some hash ->
  CompareHashAndPassword hash (req_Password req) = true ->
  uuids_fresh w ->
  script_slot_free (db w) (uuid_at (uuids w)) (req_Path req) ->
  Method post = "POST" ->
  auth_tokens (db w) !! token = None ->
  token <> "" ->
  URLPath get = req_Path req -> Get (Query get) "preview" <> "1" ->
  Get (Query get) "token" = token ->
  URLPath bare = req_Path req -> Get (Query bare) "preview" <> "1" ->
  Get (Query bare) "token" = "" -> Get (Header bare) "Authorization" = "" ->
  (time_at ticks' < time_at (ticks w1) + five_minutes)%Z ->
  (HandleScript s bare w1).1 = PasswordPrompt (Hostname s) (req_Path req)
  /\ (forall wrong, CompareHashAndPassword hash wrong = false ->
        (unlock wrong).1 = HttpError "Invalid password" StatusUnauthorized
        /\ auth_tokens (db (unlock wrong).2) = auth_tokens (db w))
  /\ (unlock (req_Password req)).1
     = UnlockOK token (FormatRFC3339 (time_at (ticks w1) + five_minutes)%Z)
  /\ (HandleScript s get later).1 = PlainText (Some "no-store") (req_Content req).
Proof.
  intros w1 token unlock later Hvalid Hlocked Hpw Hgen Hcmp Hfresh Hfree Hm Htokfresh Htok
    Hget Hgprev Hgtok Hbare Hbprev Hbtok Hbauth Hlt.
  assert (Hhash : createHash req = Some (Some hash)).
  { unfold createHash. by rewrite Hlocked, (bool_decide_eq_false_2 _ Hpw), Hgen. }
  destruct (APICreateScript_success s req put w (Some hash) Hvalid Hhash Hfresh Hfree)
    as (_ & _ & Hbypath & _ & _ & _ & Htokens & _).
  fold w1 in Hbypath, Htokens.
  set (row := createRow req (uuid_at (uuids w)) (Some hash) (time_at (ticks w))) in *.
  assert (Hrowlocked : Script.Locked row <> 0%Z).
  { subst row. unfold createRow. cbn [Script.Locked]. by rewrite Hlocked. }
  pose proof (proj1 (validatePath_None _) Hvalid) as (Hslash & _).
  split_and!.
  - unfold HandleScript. rewrite Hbare, Hslash. run_handler. rewrite Hbypath.
    rewrite (bool_decide_eq_false_2 _ Hbprev).
    apply Z.eqb_neq in Hrowlocked. rewrite Hrowlocked. simpl.
    rewrite Hbtok, Hbauth. done.
  - intros wrong Hwrong. subst unlock. cbv beta.
    rewrite (HandleUnlock_failed s post w1 _ row hash); try done.
  - subst unlock. cbv beta.
    rewrite (HandleUnlock_success s post w1 _ row hash); try done.
    fold token. by rewrite Htokens.
  - destruct (unlock_then_fetch_run s post get w1
                {| ur_Path := req_Path req; ur_Password := req_Password req |}
                row hash uuids' ticks') as [_ Hfetch]; try done.
    { fold token. by rewrite Htokens. }
    subst later unlock. cbv beta. cbn [ur_Path] in Hfetch. rewrite Hfetch. cbn [fst].
    by rewrite (proj2 (Z.ltb_lt _ _) Hlt).
Qed.

End handshake.

Lemma create_unlock_fetch_witness :
  let req := {| req_Path := "/vault/keys.sh"; req_Content := "echo keys";
                req_Description := ""; req_Tags := ""; req_Locked := true;
                req_Password := "s3cret"; req_DangerLevel := 0%Z; req_Requires := "";
                req_Examples := "" |} in
  let w1 := (@APICreateScript exampleLibs demoServer (Some req) (demoPut "") demoWorld).2 in
  let w2 := (@HandleUnlock exampleLibs demoServer
               (Some {| ur_Path := "/vault/keys.sh"; ur_Password := "s3cret" |})
               demoPost w1).2 in
  (@HandleScript exampleLibs demoServer (demoGet "/vault/keys.sh" [("token", "uuid-2")] [])
     {| db := db w2; uuids := 3; ticks := 100 |}).1
  = PlainText (Some "no-store") "echo keys".
Proof.
  refine (proj2 (proj2 (proj2 (@create_unlock_fetch exampleLibs demoServer
    {| req_Path := "/vault/keys.sh"; req_Content := "echo keys";
       req_Description := ""; req_Tags := ""; req_Locked := true;
       req_Password := "s3cret"; req_DangerLevel := 0%Z; req_Requires := "";
       req_Examples := "" |}
    (demoPut "") demoPost (demoGet "/vault/keys.sh" [("token", "uuid-2")] [])
    (demoGet "/vault/keys.sh" [] []) demoWorld "$2a$s3cret" 3 100
    _ _ _ _ _ _ _ _ _ _ _ _ _ _ _ _ _ _))));
    first [reflexivity | discriminate | by apply exampleLibs_uuids_fresh | idtac].
  repeat constructor; discriminate.
Defined.

(* ===================================================================== *)
(** * Updating a script *)
(* ===================================================================== *)

Lemma UpdateScript_free (d : DB) (p : UpdateScriptParams) :
  path_free_for d (usp_ID p) (usp_Path p) ->
  UpdateScript d p = Some (set_scripts d (map (apply_update p) (scripts d))).
Proof.
  unfold path_free_for, UpdateScript. intros Hfree.
  replace (existsb (fun s => negb _ && _) (scripts d)) with false;
    [by rewrite andb_false_r|].
  symmetry. induction Hfree as [|sc l Hsc _ IH]; simpl; [done|].
  rewrite IH, orb_false_r.
  destruct (decide (Script.ID sc = usp_ID p)) as [Heq|Hne].
  - by rewrite (bool_decide_eq_true_2 _ Heq).
  - rewrite (bool_decide_eq_false_2 _ Hne). simpl.
    apply bool_decide_eq_false_2. by apply Hsc.
Qed.

Lemma apply_update_hit (p : UpdateScriptParams) (sc : Script.t) :
  Script.ID sc = usp_ID p -> Script.Path (apply_update p sc) = usp_Path p.
Proof. intros Heq. unfold apply_update. by rewrite bool_decide_eq_true_2. Qed.

Lemma apply_update_miss (p : UpdateScriptParams) (sc : Script.t) :
  Script.ID sc <> usp_ID p -> apply_update p sc = sc.
Proof. intros Hne. unfold apply_update. by rewrite bool_decide_eq_false_2. Qed.

(** After the UPDATE, the row found at the new path is an updated row
    of the script. *)
Lemma find_updated_by_path (p : UpdateScriptParams) (l : list Script.t) (existing : Script.t) :
  find (fun s => bool_decide (Script.ID s = usp_ID p)) l = Some existing ->
  Forall (fun sc => Script.ID sc <> usp_ID p -> Script.Path sc <> usp_Path p) l ->
  exists x, Script.ID x = usp_ID p
            /\ find (fun s => bool_decide (Script.Path s = usp_Path p))
                 (map (apply_update p) l) = Some (apply_update p x).
Proof.
  intros Hfind Hfree. induction Hfree as [|sc l Hsc Hfree IH]; [done|].
  cbn [map find] in *.
  destruct (decide (Script.ID sc = usp_ID p)) as [Heq|Hne].
  - exists sc. split; [done|].
    by rewrite (bool_decide_eq_true_2 _ (apply_update_hit p sc Heq)).
  - rewrite (bool_decide_eq_false_2 _ Hne) in Hfind.
    destruct (IH Hfind) as (x & Hx & Hfound). exists x. split; [done|].
    rewrite (apply_update_miss p sc Hne).
    by rewrite (bool_decide_eq_false_2 _ (Hsc Hne)).
Qed.

Lemma apply_update_ID (p : UpdateScriptParams) (sc : Script.t) :
  Script.ID (apply_update p sc) = Script.ID sc.
Proof. unfold apply_update. by case_bool_decide. Qed.

Lemma find_updated_by_id (p : UpdateScriptParams) (l : list Script.t) (existing : Script.t) :
  find (fun s => bool_decide (Script.ID s = usp_ID p)) l = Some existing ->
  find (fun s => bool_decide (Script.ID s = usp_ID p)) (map (apply_update p) l)
  = Some (apply_update p existing).
Proof.
  induction l as [|sc l IH]; simpl; [done|].
  rewrite apply_update_ID.
  destruct (bool_decide (Script.ID sc = usp_ID p)); [by intros [= <-] | apply IH].
Qed.

Section update.
Context `{!Libs}.

(** The run of [APIUpdateScript] once the request has been accepted. *)
Lemma APIUpdateScript_run (s : Server) (req : ScriptRequest) (r : Request) (w : World)
    (existing : Script.t) (passwordHash : option string) :
  let id := PathValueId r in
  let t := time_at (ticks w) in
  validatePath (req_Path req) = None ->
  GetScript (db w) id = Some existing ->
  updateHash req existing = Some passwordHash ->
  APIUpdateScript s (Some req) r w =
    match UpdateScript (db w) (updateParams req id passwordHash t) with
    | None => (HttpError "Failed to update script" StatusInternalServerError,
               {| db := db w; uuids := uuids w; ticks := S (ticks w) |})
    | Some d1 =>
        let d2 :=
          if negb (bool_decide (Script.Content existing = req_Content req))
          then set_script_versions d1
                 (script_versions d1
                  ++ [{| ScriptVersion.ScriptID := id;
                         ScriptVersion.Content := req_Content req;
                         ScriptVersion.Version := nextVersion d1 id;
                         ScriptVersion.CreatedAt := t |}])
          else d1 in
        let d3 := set_audit_log d2 (audit_log d2 ++ [scriptAudit "UPDATE" id (req_Path req) t]) in
        (ScriptOK StatusOK (scriptToResponse (default zeroScript (GetScript d3 id))),
         {| db := d3; uuids := uuids w; ticks := S (ticks w) |})
    end.
Proof.
  intros id t Hvalid Hexisting Hhash.
  unfold APIUpdateScript. fold id. rewrite Hvalid. run_handler. rewrite Hexisting.
  unfold updateHash in Hhash. rewrite Hhash.
  unfold mbind, M_bind, exec, mret, M_ret, getDB. simpl.
  fold t. fold (updateParams req id passwordHash t).
  destruct (UpdateScript (db w) (updateParams req id passwordHash t)) as [d1|]; [|done].
  simpl. unfold nextVersion.
  destruct (bool_decide (Script.Content existing = req_Content req)); simpl; done.
Qed.

(** A successful [APIUpdateScript], table by table. *)
Lemma APIUpdateScript_success (s : Server) (req : ScriptRequest) (r : Request) (w : World)
    (existing : Script.t) (passwordHash : option string) :
  let id := PathValueId r in
  let t := time_at (ticks w) in
  let res := APIUpdateScript s (Some req) r w in
  validatePath (req_Path req) = None ->
  GetScript (db w) id = Some existing ->
  updateHash req existing = Some passwordHash ->
  path_free_for (db w) id (req_Path req) ->
  res.1 = ScriptOK StatusOK (scriptToResponse
            (apply_update (updateParams req id passwordHash t) existing))
  /\ scripts (db res.2) = map (apply_update (updateParams req id passwordHash t)) (scripts (db w))
  /\ (exists x, Script.ID x = id
                /\ GetScriptByPath (db res.2) (req_Path req)
                   = Some (apply_update (updateParams req id passwordHash t) x))
  /\ folders (db res.2) = folders (db w)
  /\ auth_tokens (db res.2) = auth_tokens (db w)
  /\ audit_log (db res.2) = audit_log (db w) ++ [scriptAudit "UPDATE" id (req_Path req) t]
  /\ script_versions (db res.2)
     = (if bool_decide (Script.Content existing = req_Content req)
        then script_versions (db w)
        else script_versions (db w)
             ++ [{| ScriptVersion.ScriptID := id; ScriptVersion.Content := req_Content req;
                    ScriptVersion.Version := nextVersion (db w) id;
                    ScriptVersion.CreatedAt := t |}]).
Proof.
  intros id t res Hvalid Hexisting Hhash Hfree.
  assert (Hrun := APIUpdateScript_run s req r w existing passwordHash Hvalid Hexisting Hhash).
  cbv zeta in Hrun. fold id t in Hrun.
  rewrite (UpdateScript_free (db w) (updateParams req id passwordHash t)) in Hrun by done.
  subst res. rewrite Hrun. clear Hrun.
  set (p := updateParams req id passwordHash t).
  destruct (find_updated_by_path p (scripts (db w)) existing Hexisting Hfree)
    as (x & Hx & Hbypath).
  pose proof (find_updated_by_id p (scripts (db w)) existing Hexisting) as Hbyid.
  assert (Hbyid' : find (fun sc => bool_decide (Script.ID sc = id))
                     (map (apply_update p) (scripts (db w)))
                   = Some (apply_update p existing)) by exact Hbyid.
  assert (Hbypath' : find (fun sc => bool_decide (Script.Path sc = req_Path req))
                       (map (apply_update p) (scripts (db w)))
                     = Some (apply_update p x)) by exact Hbypath.
  destruct (bool_decide (Script.Content existing = req_Content req));
    cbn [negb fst snd db]; unfold GetScript, GetScriptByPath;
    cbn [scripts folders auth_tokens audit_log script_versions
         set_audit_log set_script_versions set_scripts];
    rewrite Hbyid'; cbn [default]; (split_and!; try done; by exists x).
Qed.

End update.

#[global] Instance version_ge_trans : Transitive version_ge.
Proof. intros a b c. unfold version_ge. lia. Qed.

#[global] Instance version_ge_total : Total version_ge.
Proof. intros a b. unfold version_ge. lia. Qed.

Lemma wrap64_id (z : Z) : (- 2 ^ 63 <= z < 2 ^ 63)%Z -> wrap64 z = z.
Proof. intros Hz. unfold wrap64. rewrite Z.mod_small; lia. Qed.

(** The first row of [ListVersions] carries the largest version. *)
Lemma ListVersions_head (d : DB) (id : string) (v : ScriptVersion.t)
    (rest : list ScriptVersion.t) :
  ListVersions d id = v :: rest ->
  ScriptVersion.ScriptID v = id
  /\ v ∈ script_versions d
  /\ forall x, x ∈ script_versions d -> ScriptVersion.ScriptID x = id ->
               (ScriptVersion.Version x <= ScriptVersion.Version v)%Z.
Proof.
  intros Hlist.
  pose proof (StronglySorted_merge_sort version_ge
                (filter (fun v => ScriptVersion.ScriptID v = id) (script_versions d)))
    as Hsorted.
  pose proof (merge_sort_Permutation version_ge
                (filter (fun v => ScriptVersion.ScriptID v = id) (script_versions d)))
    as Hperm.
  unfold ListVersions in Hlist. rewrite Hlist in Hsorted, Hperm.
  assert (Hin : forall x, x ∈ v :: rest <->
                  x ∈ script_versions d /\ ScriptVersion.ScriptID x = id).
  { intros x. rewrite Hperm. rewrite list_elem_of_filter. tauto. }
  destruct (proj1 (Hin v) ltac:(left)) as [Hv Hid].
  split; [done|]. split; [done|].
  intros x Hx Hxid.
  apply StronglySorted_inv in Hsorted as [_ Hhd].
  pose proof (proj2 (Hin x) (conj Hx Hxid)) as Hmem.
  apply elem_of_cons in Hmem as [->|Hrest]; [lia|].
  rewrite Forall_forall in Hhd. by apply Hhd.
Qed.

Lemma ListVersions_nil (d : DB) (id : string) :
  ListVersions d id = [] ->
  forall x, x ∈ script_versions d -> ScriptVersion.ScriptID x <> id.
Proof.
  intros Hlist x Hx Hid.
  pose proof (merge_sort_Permutation version_ge
                (filter (fun v => ScriptVersion.ScriptID v = id) (script_versions d)))
    as Hperm.
  unfold ListVersions in Hlist. rewrite Hlist in Hperm.
  assert (Hin : x ∈ filter (fun v => ScriptVersion.ScriptID v = id) (script_versions d))
    by (by apply list_elem_of_filter).
  rewrite <- Hperm in Hin. by apply elem_of_nil in Hin.
Qed.

Section update_properties.
Context `{!Libs}.

Lemma APIUpdateScript_tokens (s : Server) (body : option ScriptRequest)
    (r : Request) (w : World) :
  auth_tokens (db (APIUpdateScript s body r w).2) = auth_tokens (db w).
Proof.
  unfold APIUpdateScript. run_handler.
  destruct body as [req|]; [|done].
  destruct (validatePath (req_Path req)); [done|].
  destruct (GetScript (db w) (PathValueId r)) as [existing|]; [|done].
  match goal with |- context [match ?h with Some _ => _ | None => _ end] =>
    destruct h as [passwordHash|] end; [|done].
  unfold mbind, M_bind, exec, mret, M_ret, getDB. simpl.
  unfold UpdateScript.
  match goal with |- context [if ?c then None else _] => destruct c end; [done|].
  simpl. destruct (bool_decide (Script.Content existing = req_Content req)); simpl; done.
Qed.

Lemma HandleUnlock_not_locked (s : Server) (r : Request) (w : World)
    (req : UnlockRequest) (script : Script.t) :
  Method r = "POST" ->
  GetScriptByPath (db w) (ur_Path req) = Some script ->
  Script.Locked script = 0%Z ->
  HandleUnlock s (Some req) r w = (HttpError "Script is not locked" StatusBadRequest, w).
Proof.
  intros Hm Hscript Hlocked. unfold HandleUnlock. run_handler.
  rewrite (bool_decide_eq_true_2 _ Hm). simpl. by rewrite Hscript, Hlocked.
Qed.

Lemma HandleUnlock_no_hash (s : Server) (r : Request) (w : World)
    (req : UnlockRequest) (script : Script.t) :
  Method r = "POST" ->
  GetScriptByPath (db w) (ur_Path req) = Some script ->
  Script.Locked script <> 0%Z ->
  Script.PasswordHash script = None ->
  HandleUnlock s (Some req) r w
  = (HttpError "Script has no password set" StatusInternalServerError, w).
Proof.
  intros Hm Hscript Hlocked Hhash. unfold HandleUnlock. run_handler.
  rewrite (bool_decide_eq_true_2 _ Hm). simpl. rewrite Hscript.
  apply Z.eqb_neq in Hlocked. by rewrite Hlocked, Hhash.
Qed.

(** X8. Tokens outlive an update.  [APIUpdateScript] never writes to the
    token table.  So when a locked script is updated and stays locked
    (moved to another path, given other content or another password), a
    token issued for it before still opens it at its new path, exactly
    until that token expires. *)
Theorem APIUpdateScript_keeps_tokens (s : Server) (req : ScriptRequest) (put get : Request)
    (w : World) (existing : Script.t) (passwordHash : option string)
    (token : string) (t : AuthToken.t) (uuids' ticks' : nat) :
  let id := PathValueId put in
  let res := APIUpdateScript s (Some req) put w in
  let later := {| db := db res.2; uuids := uuids'; ticks := ticks' |} in
  validatePath (req_Path req) = None ->
  GetScript (db w) id = Some existing ->
  updateHash req existing = Some passwordHash ->
  path_free_for (db w) id (req_Path req) ->
  req_Locked req = true ->
  auth_tokens (db w) !! token = Some t ->
  AuthToken.ScriptID t = id ->
  token <> "" ->
  URLPath get = req_Path req -> Get (Query get) "preview" <> "1" ->
  Get (Query get) "token" = token ->
  (forall body r', auth_tokens (db (APIUpdateScript s body r' w).2) = auth_tokens (db w))
  /\ ((HandleScript s get later).1 = PlainText (Some "no-store") (req_Content req)
      <-> (time_at ticks' < AuthToken.ExpiresAt t)%Z)
  /\ ((HandleScript s get later).1 = PasswordPrompt (Hostname s) (req_Path req)
      <-> (AuthToken.ExpiresAt t <= time_at ticks')%Z).
Proof.
  intros id res later Hvalid Hexisting Hhash Hfree Hlocked Htok Hid Hne Hget Hprev Hgtok.
  split; [intros body r'; apply APIUpdateScript_tokens|].
  destruct (APIUpdateScript_success s req put w existing passwordHash
              Hvalid Hexisting Hhash Hfree)
    as (_ & _ & (x & Hx & Hbypath) & _ & Htokens & _).
  fold res in Hbypath, Htokens.
  set (p := updateParams req id passwordHash (time_at (ticks w))) in *.
  assert (Hrow : apply_update p x
                 = apply_update p x /\ Script.ID (apply_update p x) = id
                   /\ Script.Locked (apply_update p x) = 1%Z
                   /\ Script.Content (apply_update p x) = req_Content req).
  { assert (Hx' : Script.ID x = usp_ID p) by exact Hx.
    unfold apply_update. rewrite (bool_decide_eq_true_2 _ Hx').
    subst p. simpl. by rewrite Hlocked. }
  destruct Hrow as (_ & Hrid & Hrlocked & Hrcontent).
  pose proof (proj1 (validatePath_None _) Hvalid) as (Hslash & _).
  pose proof (HandleScript_locked_run s get later (apply_update p x) t) as Hl.
  cbv zeta in Hl. rewrite Hget, Hslash in Hl. simpl negb in Hl. cbv iota in Hl.
  rewrite Hgtok, (bool_decide_eq_false_2 _ Hne) in Hl.
  rewrite Hl; try done.
  - rewrite Hrcontent. cbn [fst]. subst later. cbn [ticks].
    destruct (time_at ticks' <? AuthToken.ExpiresAt t)%Z eqn:Hlt.
    + apply Z.ltb_lt in Hlt. split; (split; [first [done | discriminate | lia]|]);
        first [done | lia].
    + apply Z.ltb_ge in Hlt. split; (split; [first [done | discriminate | lia]|]);
        first [done | lia].
  - rewrite Hrlocked. done.
  - unfold GetAuthToken. subst later. cbn [db]. by rewrite Htokens.
  - by rewrite Hrid.
Qed.

(** X9. What an update does to the lock.  After a successful
    [APIUpdateScript]: a request with [locked = false] leaves a script
    that is served to anyone and that [HandleUnlock] refuses as not
    locked; a request with [locked = true] and no password keeps the
    stored hash, so a password that hash accepts still unlocks the
    script, and when there was no hash to keep the script is locked
    with no password at all and every unlock attempt is answered 500. *)
Theorem APIUpdateScript_lock_state (s : Server) (req : ScriptRequest)
    (put post get : Request) (w : World) (existing : Script.t)
    (passwordHash : option string) (password : string) :
  let id := PathValueId put in
  let w1 := (APIUpdateScript s (Some req) put w).2 in
  let unlock := HandleUnlock s (Some {| ur_Path := req_Path req; ur_Password := password |})
                  post w1 in
  validatePath (req_Path req) = None ->
  GetScript (db w) id = Some existing ->
  updateHash req existing = Some passwordHash ->
  path_free_for (db w) id (req_Path req) ->
  Method post = "POST" ->
  URLPath get = req_Path req -> Get (Query get) "preview" <> "1" ->
  (req_Locked req = false ->
     unlock = (HttpError "Script is not locked" StatusBadRequest, w1)
     /\ HandleScript s get w1 = (PlainText (Some "max-age=60") (req_Content req), w1))
  /\ (req_Locked req = true -> req_Password req = "" ->
      passwordHash = Script.PasswordHash existing
      /\ (Script.PasswordHash existing = None ->
          unlock = (HttpError "Script has no password set" StatusInternalServerError, w1))
      /\ (forall hash, Script.PasswordHash existing = Some hash ->
            CompareHashAndPassword hash password = true ->
            auth_tokens (db w) !! uuid_at (uuids w1) = None ->
            unlock.1 = UnlockOK (uuid_at (uuids w1))
                         (FormatRFC3339 (time_at (ticks w1) + five_minutes)%Z))).
Proof.
  intros id w1 unlock Hvalid Hexisting Hhash Hfree Hm Hget Hprev.
  destruct (APIUpdateScript_success s req put w existing passwordHash
              Hvalid Hexisting Hhash Hfree)
    as (_ & _ & (x & Hx & Hbypath) & _ & Htokens & _).
  fold w1 in Hbypath, Htokens.
  set (p := updateParams req id passwordHash (time_at (ticks w))) in *.
  assert (Hrow : Script.Locked (apply_update p x) = (if req_Locked req then 1%Z else 0%Z)
                 /\ Script.PasswordHash (apply_update p x) = passwordHash
                 /\ Script.Content (apply_update p x) = req_Content req).
  { assert (Hx' : Script.ID x = usp_ID p) by exact Hx.
    unfold apply_update. by rewrite (bool_decide_eq_true_2 _ Hx'). }
  destruct Hrow as (Hrlocked & Hrhash & Hrcontent).
  pose proof (proj1 (validatePath_None _) Hvalid) as (Hslash & _).
  split.
  - intros Hunlocked. rewrite Hunlocked in Hrlocked. split.
    + subst unlock. by apply (HandleUnlock_not_locked s post w1 _ (apply_update p x)).
    + pose proof (HandleScript_unlocked_run s get w1 (apply_update p x)) as Hpub.
      cbv zeta in Hpub. rewrite Hget, Hslash in Hpub. simpl negb in Hpub. cbv iota in Hpub.
      rewrite Hpub; try done. by rewrite Hrcontent.
  - intros Hlocked Hnopw. rewrite Hlocked in Hrlocked.
    assert (Hkept : passwordHash = Script.PasswordHash existing).
    { unfold updateHash in Hhash.
      rewrite Hlocked, (bool_decide_eq_true_2 _ Hnopw) in Hhash. simpl in Hhash. congruence. }
    split; [done|]. split.
    + intros Hnone. subst unlock.
      apply (HandleUnlock_no_hash s post w1 _ (apply_update p x)); try done.
      * by rewrite Hrlocked.
      * by rewrite Hrhash, Hkept.
    + intros hash Hsome Hcmp Hfreshtok. subst unlock.
      rewrite (HandleUnlock_success s post w1 _ (apply_update p x) hash); try done.
      * by rewrite Hrlocked.
      * by rewrite Hrhash, Hkept.
      * by rewrite Htokens.
Qed.

(** X10. Version numbers.  A successful [APIUpdateScript] that changes
    the content appends exactly one version row, numbered one above the
    highest version of that script (1 when it has none), hence above
    every version it had, while versions stay below the top of [int64];
    an update that leaves the content as it is appends none. *)
Theorem APIUpdateScript_versions (s : Server) (req : ScriptRequest) (put : Request)
    (w : World) (existing : Script.t) (passwordHash : option string) :
  let id := PathValueId put in
  let res := APIUpdateScript s (Some req) put w in
  validatePath (req_Path req) = None ->
  GetScript (db w) id = Some existing ->
  updateHash req existing = Some passwordHash ->
  path_free_for (db w) id (req_Path req) ->
  Forall (fun v => (- 2 ^ 63 <= ScriptVersion.Version v < 2 ^ 63 - 1)%Z)
    (script_versions (db w)) ->
  (Script.Content existing = req_Content req ->
     script_versions (db res.2) = script_versions (db w))
  /\ (Script.Content existing <> req_Content req ->
      exists v,
        script_versions (db res.2) = script_versions (db w) ++ [v]
        /\ ScriptVersion.ScriptID v = id
        /\ ScriptVersion.Content v = req_Content req
        /\ (forall x, x ∈ script_versions (db w) -> ScriptVersion.ScriptID x = id ->
                      (ScriptVersion.Version x < ScriptVersion.Version v)%Z)
        /\ ((forall x, x ∈ script_versions (db w) -> ScriptVersion.ScriptID x <> id) ->
            ScriptVersion.Version v = 1%Z)
        /\ (forall top, top ∈ script_versions (db w) -> ScriptVersion.ScriptID top = id ->
              (forall x, x ∈ script_versions (db w) -> ScriptVersion.ScriptID x = id ->
                         (ScriptVersion.Version x <= ScriptVersion.Version top)%Z) ->
              ScriptVersion.Version v = (ScriptVersion.Version top + 1)%Z)).
Proof.
  intros id res Hvalid Hexisting Hhash Hfree Hrange.
  destruct (APIUpdateScript_success s req put w existing passwordHash
              Hvalid Hexisting Hhash Hfree)
    as (_ & _ & _ & _ & _ & _ & Hversions).
  fold res id in Hversions. rewrite Hversions. split.
  - intros Hsame. by rewrite (bool_decide_eq_true_2 _ Hsame).
  - intros Hdiff. rewrite (bool_decide_eq_false_2 _ Hdiff).
    eexists. split; [reflexivity|]. cbn [ScriptVersion.ScriptID ScriptVersion.Content
      ScriptVersion.Version].
    split; [done|]. split; [done|].
    rewrite Forall_forall in Hrange.
    unfold nextVersion.
    destruct (ListVersions (db w) id) as [|v0 rest] eqn:Hlist.
    + pose proof (ListVersions_nil _ _ Hlist) as Hnone. split_and!.
      * intros x Hx Hxid. by destruct (Hnone x Hx).
      * done.
      * intros top Htop Htopid _. by destruct (Hnone top Htop).
    + destruct (ListVersions_head _ _ _ _ Hlist) as (Hv0id & Hv0in & Hmax).
      pose proof (Hrange v0 Hv0in) as Hv0.
      rewrite wrap64_id by lia. split_and!.
      * intros x Hx Hxid. specialize (Hmax x Hx Hxid). lia.
      * intros Hnone. by destruct (Hnone v0 Hv0in).
      * intros top Htop Htopid Htopmax.
        specialize (Hmax top Htop Htopid). specialize (Htopmax v0 Hv0in Hv0id). lia.
Qed.

End update_properties.

Lemma demo_path_free : path_free_for demoDB "s-a" "/vault/moved.sh".
Proof. repeat constructor; discriminate. Qed.

Lemma APIUpdateScript_keeps_tokens_witness :
  (@HandleScript exampleLibs demoServer (demoGet "/vault/moved.sh" [("token", "tok-a")] [])
     {| db := db (@APIUpdateScript exampleLibs demoServer (Some demoRelock)
                    (demoPut "s-a") demoWorld).2;
        uuids := 0; ticks := 50 |}).1
  = PlainText (Some "no-store") "echo moved".
Proof.
  refine (proj2 (proj1 (proj2 (@APIUpdateScript_keeps_tokens exampleLibs demoServer demoRelock
    (demoPut "s-a") (demoGet "/vault/moved.sh" [("token", "tok-a")] []) demoWorld
    demoSecretA (Some "$2a$hunter2") "tok-a" (demoToken "tok-a" "s-a" 5000%Z) 0 50
    _ _ _ _ _ _ _ _ _ _ _))) _);
    first [reflexivity | discriminate | exact demo_path_free].
Defined.

Lemma APIUpdateScript_lock_state_witness :
  @HandleUnlock exampleLibs demoServer
    (Some {| ur_Path := "/vault/moved.sh"; ur_Password := "hunter2" |}) demoPost
    (@APIUpdateScript exampleLibs demoServer (Some demoOpen) (demoPut "s-a") demoWorld).2
  = (HttpError "Script is not locked" StatusBadRequest,
     (@APIUpdateScript exampleLibs demoServer (Some demoOpen) (demoPut "s-a") demoWorld).2).
Proof.
  refine (proj1 (proj1 (@APIUpdateScript_lock_state exampleLibs demoServer demoOpen
    (demoPut "s-a") demoPost (demoGet "/vault/moved.sh" [] []) demoWorld
    demoSecretA None "hunter2" _ _ _ _ _ _ _) _));
    first [reflexivity | discriminate | exact demo_path_free].
Defined.

Lemma APIUpdateScript_versions_witness :
  exists v,
    script_versions (db (@APIUpdateScript exampleLibs demoServer (Some demoRelock)
                           (demoPut "s-a") demoWorld).2) = [] ++ [v]
    /\ ScriptVersion.Version v = 1%Z.
Proof.
  destruct (proj2 (@APIUpdateScript_versions exampleLibs demoServer demoRelock
    (demoPut "s-a") demoWorld demoSecretA (Some "$2a$hunter2")
    eq_refl eq_refl eq_refl demo_path_free (List.Forall_nil _)) ltac:(discriminate))
    as (v & Hv & _ & _ & _ & Hone & _).
  exists v. split; [exact Hv|]. apply Hone. intros x Hx. by apply elem_of_nil in Hx.
Defined.

(** Two updates of a script without earlier versions, each changing the
    content, leave versions 1 and 2. *)
Example versions_count_up :
  let w1 := (@APIUpdateScript exampleLibs demoServer (Some demoRelock)
               (demoPut "s-a") demoWorld).2 in
  let w2 := (@APIUpdateScript exampleLibs demoServer (Some demoMove) (demoPut "s-a") w1).2 in
  map ScriptVersion.Version (script_versions (db w2)) = [1%Z; 2%Z].
Proof. vm_compute. reflexivity. Qed.

(* ===================================================================== *)
(** * Listings are sorted *)
(* ===================================================================== *)

Lemma ListScripts_sorted (d : DB) :
  StronglySorted String.le (map Script.Path (ListScripts d))
  /\ ListScripts d ≡ₚ scripts d.
Proof.
  split; [|apply merge_sort_Permutation].
  unfold ListScripts.
  apply (StronglySorted_fmap Script.Path
           (fun a b => String.le (Script.Path a) (Script.Path b))); [done|].
  apply StronglySorted_merge_sort.
  - intros a b c Hab Hbc. by etrans.
  - intros a b. apply (total String.le).
Qed.

(** X11. The catalog is a sorted listing: [HandleCatalog] answers with
    the entries of all stored scripts, each script once, in ascending
    byte-wise order of path, and leaves the world as it was. *)
Theorem HandleCatalog_sorted (s : Server) (r : Request) (w : World) :
  exists entries,
    HandleCatalog s r w = (CatalogOK entries, w)
    /\ StronglySorted String.le (map ce_Path entries)
    /\ entries ≡ₚ map catalogEntry_of (scripts (db w))
    /\ length entries = length (scripts (db w)).
Proof.
  destruct (ListScripts_sorted (db w)) as [Hsorted Hperm].
  exists (map catalogEntry_of (ListScripts (db w))). split_and!.
  - done.
  - rewrite map_map.
    erewrite map_ext; [exact Hsorted|]. intros sc. by rewrite catalogEntry_of_fields.
  - by rewrite Hperm.
  - by rewrite length_map, Hperm.
Qed.

(* ===================================================================== *)
(** * Routing, the admin reads, and deleting a script *)
(* ===================================================================== *)

Section routing.
Context `{!Libs}.

Lemma HandleScript_reads (s : Server) (r r' : Request) (w : World) :
  URLPath r = URLPath r' ->
  Get (Query r) "preview" = Get (Query r') "preview" ->
  Get (Query r) "token" = Get (Query r') "token" ->
  Get (Header r) "Authorization" = Get (Header r') "Authorization" ->
  HandleScript s r w = HandleScript s r' w.
Proof. intros Hp Hq Ht Ha. unfold HandleScript. by rewrite Hp, Hq, Ht, Ha. Qed.

(** X12. [routeHandler] looks at the client only off the script paths.
    A path ending in [.sh] is answered by [HandleScript] alone: two
    requests that agree on the path, the [preview] and [token] query
    parameters and the [Authorization] header get the same answer,
    whatever their method, user agent or [Accept] header and whatever
    the page template.  Any other path is answered without reading or
    writing the store, a browser getting there what [HandleRoot] gives
    it, a command-line client a 404. *)
Theorem routeHandler_dispatch (s : Server) (template : option string) (r : Request)
    (w : World) :
  (HasSuffix (URLPath r) ".sh" = true ->
     routeHandler s template r w = (Plain (HandleScript s r w).1, (HandleScript s r w).2)
     /\ forall r' template',
          URLPath r' = URLPath r ->
          Get (Query r') "preview" = Get (Query r) "preview" ->
          Get (Query r') "token" = Get (Query r) "token" ->
          Get (Header r') "Authorization" = Get (Header r) "Authorization" ->
          routeHandler s template' r' w = routeHandler s template r w)
  /\ (HasSuffix (URLPath r) ".sh" = false ->
      (forall w', routeHandler s template r w' = ((routeHandler s template r w).1, w'))
      /\ (isCLI r = false -> routeHandler s template r w = HandleRoot s template r w)
      /\ (isCLI r = true ->
          routeHandler s template r w
          = (Plain (HttpError "404 page not found" StatusNotFound), w))).
Proof.
  split.
  - intros Hsh.
    assert (Hrun : forall r0 t0, HasSuffix (URLPath r0) ".sh" = true ->
              routeHandler s t0 r0 w
              = (Plain (HandleScript s r0 w).1, (HandleScript s r0 w).2)).
    { intros r0 t0 H0. unfold routeHandler. rewrite H0. run_handler.
      by destruct (HandleScript s r0 w). }
    split; [by apply Hrun|].
    intros r' template' Hp Hq Ht Ha.
    rewrite (Hrun r' template') by (by rewrite Hp).
    rewrite (Hrun r template) by done.
    by rewrite (HandleScript_reads s r' r w).
  - intros Hsh. unfold routeHandler, HandleRoot. rewrite Hsh.
    destruct (isCLI r); simpl; split_and!; try done.
Qed.

End routing.

Lemma find_fmap_preserved {A : Type} (f : A -> bool) (g : A -> A) (l : list A) :
  (forall x, f (g x) = f x) -> find f (map g l) = g <$> find f l.
Proof.
  intros Hf. induction l as [|x l IH]; [done|]. simpl. rewrite Hf.
  by destruct (f x).
Qed.

Section admin_reads.
Context `{!Libs}.

(** X13. The admin reads never show a password hash.  [APIListScripts]
    and [APIGetScript] leave the world as it is, and their answers are
    the same on two stores that differ only in the password hashes of
    their scripts.  The listing holds every stored script once, in
    ascending order of path; the single read answers 404 exactly when
    no script has the requested id. *)
Theorem API_reads_hide_hash (s : Server) (r : Request) (w : World)
    (hash : Script.t -> option string) :
  let rehashed := map (fun sc => with_secrets sc (Script.Content sc) (hash sc))
                    (scripts (db w)) in
  let w' := {| db := set_scripts (db w) rehashed; uuids := uuids w; ticks := ticks w |} in
  (APIListScripts s r w').1 = (APIListScripts s r w).1
  /\ (APIGetScript s r w').1 = (APIGetScript s r w).1
  /\ (APIListScripts s r w).2 = w
  /\ (APIGetScript s r w).2 = w
  /\ (exists l, (APIListScripts s r w).1 = ScriptListOK l
                /\ l ≡ₚ map scriptToResponse (scripts (db w))
                /\ StronglySorted String.le (map sr_Path l))
  /\ ((APIGetScript s r w).1 = Plain (HttpError "Script not found" StatusNotFound)
      <-> forall sc, sc ∈ scripts (db w) -> Script.ID sc <> PathValueId r).
Proof.
  intros rehashed w'. split_and!.
  - unfold APIListScripts. run_handler. f_equal.
    rewrite (ListScripts_with_secrets (db w) _
               (fun sc => (Script.Content sc, hash sc))) by done.
    rewrite map_map. by apply map_ext.
  - unfold APIGetScript, GetScript. run_handler. subst rehashed.
    rewrite find_fmap_preserved by done.
    by destruct (find _ (scripts (db w))).
  - done.
  - unfold APIGetScript. run_handler. by destruct (GetScript (db w) (PathValueId r)).
  - eexists. split; [reflexivity|].
    destruct (ListScripts_sorted (db w)) as [Hsorted Hperm]. split.
    + by rewrite Hperm.
    + by rewrite map_map.
  - unfold APIGetScript, GetScript. run_handler.
    destruct (find _ (scripts (db w))) as [sc|] eqn:Hfind; simpl.
    + split; [done|]. intros Hnone. apply find_some in Hfind as [Hin Hid].
      apply bool_decide_eq_true in Hid. apply list_elem_of_In in Hin.
      by destruct (Hnone sc Hin).
    + split; [|done]. intros _ sc Hin Hid.
      apply list_elem_of_In in Hin.
      pose proof (find_none _ _ Hfind sc Hin) as Hno. simpl in Hno.
      by apply bool_decide_eq_false in Hno.
Qed.

End admin_reads.

Lemma find_filter_None {A : Type} (f : A -> bool) (P : A -> Prop) `{!forall x, Decision (P x)}
    (l : list A) :
  (forall x, x ∈ l -> f x = true -> ~ P x) -> find f (filter P l) = None.
Proof.
  intros Hno. induction l as [|x l IH]; [done|].
  rewrite filter_cons. destruct (decide (P x)) as [Hp|Hp].
  - simpl. destruct (f x) eqn:Hf.
    + destruct (Hno x); [left | done | done].
    + apply IH. intros y Hy. apply Hno. by right.
  - apply IH. intros y Hy. apply Hno. by right.
Qed.

Lemma filter_filter_nil {A : Type} (P Q : A -> Prop) `{!forall x, Decision (P x)}
    `{!forall x, Decision (Q x)} (l : list A) :
  (forall x, P x -> ~ Q x) -> filter P (filter Q l) = [].
Proof.
  intros Hno. induction l as [|x l IH]; [done|].
  rewrite filter_cons. destruct (decide (Q x)) as [Hq|Hq]; [|done].
  rewrite filter_cons. destruct (decide (P x)) as [Hp|Hp]; [|done].
  by destruct (Hno x).
Qed.

Lemma find_filter_keep {A : Type} (f : A -> bool) (P : A -> Prop) `{!forall x, Decision (P x)}
    (l : list A) :
  (forall x, f x = true -> P x) -> find f (filter P l) = find f l.
Proof.
  intros Hyes. induction l as [|x l IH]; [done|].
  rewrite filter_cons. destruct (decide (P x)) as [Hp|Hp].
  - simpl. by rewrite IH.
  - simpl. destruct (f x) eqn:Hf; [by destruct Hp; apply Hyes | done].
Qed.

Section delete_script.
Context `{!Libs}.

(** X14. Deleting a script.  [APIDeleteScript] answers 404 for an id
    that no script has and then changes nothing.  For a stored id it
    answers 204, after which no script has that id, every other id
    reads as before, the folders are untouched and one DELETE audit row
    naming the id and the old path is appended; if that path belonged
    to this script alone a fetch of it is answered 404.  Tokens and
    versions of the script go with it when the connection enforces
    foreign keys, and stay exactly as they were when it does not; rows
    of other scripts stay in both cases. *)
Theorem APIDeleteScript_effects (s : Server) (foreign_keys : bool) (r : Request) (w : World) :
  let id := PathValueId r in
  let res := APIDeleteScript s foreign_keys r w in
  match GetScript (db w) id with
  | None => res = (Plain (HttpError "Script not found" StatusNotFound), w)
  | Some script =>
      res.1 = NoContent
      /\ GetScript (db res.2) id = None
      /\ (forall id', id' <> id -> GetScript (db res.2) id' = GetScript (db w) id')
      /\ folders (db res.2) = folders (db w)
      /\ audit_log (db res.2)
         = audit_log (db w)
           ++ [{| AuditLog.Action := "DELETE"; AuditLog.EntityType := "script";
                  AuditLog.EntityID := Some id;
                  AuditLog.EntityPath := Some (Script.Path script);
                  AuditLog.Details := None; AuditLog.IpAddress := None;
                  AuditLog.UserAgent := None; AuditLog.CreatedAt := time_at (ticks w) |}]
      /\ ((forall sc, sc ∈ scripts (db w) -> Script.Path sc = Script.Path script ->
                      Script.ID sc = id) ->
          forall get,
            (if negb (HasPrefix (URLPath get) "/") then "/" +:+ URLPath get else URLPath get)
            = Script.Path script ->
            HandleScript s get res.2 = (HttpError "Script not found" StatusNotFound, res.2))
      /\ (forall token row,
            AuthToken.ScriptID row <> id ->
            auth_tokens (db res.2) !! token = Some row
            <-> auth_tokens (db w) !! token = Some row)
      /\ (forall v, ScriptVersion.ScriptID v <> id ->
            v ∈ script_versions (db res.2) <-> v ∈ script_versions (db w))
      /\ (foreign_keys = true ->
          (forall token row, auth_tokens (db res.2) !! token = Some row ->
                             AuthToken.ScriptID row <> id)
          /\ ListVersions (db res.2) id = [])
      /\ (foreign_keys = false ->
          auth_tokens (db res.2) = auth_tokens (db w)
          /\ script_versions (db res.2) = script_versions (db w))
  end.
Proof.
  intros id res.
  destruct (GetScript (db w) id) as [script|] eqn:Hget.
  2:{ subst res. unfold APIDeleteScript. run_handler. fold id. by rewrite Hget. }
  assert (Hgone : forall d', scripts d' = filter (fun sc => Script.ID sc <> id) (scripts (db w)) ->
            GetScript d' id = None).
  { intros d' Hd. unfold GetScript. rewrite Hd. apply find_filter_None.
    intros x _ Hx Hne. by apply bool_decide_eq_true in Hx. }
  assert (Hkeep : forall d' id', id' <> id ->
            scripts d' = filter (fun sc => Script.ID sc <> id) (scripts (db w)) ->
            GetScript d' id' = GetScript (db w) id').
  { intros d' id' Hne Hd. unfold GetScript. rewrite Hd. apply find_filter_keep.
    intros x Hx. apply bool_decide_eq_true in Hx. congruence. }
  assert (Hpath : forall d',
            scripts d' = filter (fun sc => Script.ID sc <> id) (scripts (db w)) ->
            (forall sc, sc ∈ scripts (db w) -> Script.Path sc = Script.Path script ->
                        Script.ID sc = id) ->
            GetScriptByPath d' (Script.Path script) = None).
  { intros d' Hd Huniq. unfold GetScriptByPath. rewrite Hd. apply find_filter_None.
    intros x Hin Hx Hne. apply bool_decide_eq_true in Hx. by destruct Hne; apply Huniq. }
  assert (Hfetch : forall w1 get,
            GetScriptByPath (db w1) (Script.Path script) = None ->
            (if negb (HasPrefix (URLPath get) "/") then "/" +:+ URLPath get else URLPath get)
            = Script.Path script ->
            HandleScript s get w1 = (HttpError "Script not found" StatusNotFound, w1)).
  { intros w1 get Hnone Hp. unfold HandleScript. rewrite Hp. run_handler. by rewrite Hnone. }
  subst res. unfold APIDeleteScript. run_handler. fold id. rewrite Hget.
  unfold DeleteScript. destruct foreign_keys; simpl.
  - split_and!; try done.
    + by apply Hgone.
    + intros id' Hne. by apply Hkeep.
    + intros Huniq get Hp. apply Hfetch; [|done]. by apply Hpath.
    + intros token row Hrow. rewrite map_lookup_filter_Some. simpl. naive_solver.
    + intros v Hv. rewrite list_elem_of_filter. naive_solver.
    + intros _. split.
      * intros token row Hrow. apply map_lookup_filter_Some in Hrow as [_ Hne]. exact Hne.
      * unfold ListVersions. simpl.
        rewrite filter_filter_nil; [done|]. intros v Hv Hne. by destruct Hne.
  - split_and!; try done.
    + by apply Hgone.
    + intros id' Hne. by apply Hkeep.
    + intros Huniq get Hp. apply Hfetch; [|done]. by apply Hpath.
Qed.

End delete_script.

(* ===================================================================== *)
(** * Splitting at slashes *)
(* ===================================================================== *)

Section split_slash.

Lemma HasPrefix_slash_cons (c : ascii) (s : string) :
  HasPrefix (String c s) "/" = bool_decide (c = "/"%char).
Proof.
  unfold HasPrefix. simpl. apply bool_decide_ext. split; [by intros [= ->] | by intros ->].
Qed.

Lemma HasPrefix_slash_inv (path : string) :
  HasPrefix path "/" = true -> exists rest, path = "/" +:+ rest.
Proof.
  destruct path as [|c rest]; [done|]. rewrite HasPrefix_slash_cons.
  intros Hc. apply bool_decide_eq_true in Hc as ->. by exists rest.
Qed.

Lemma split_go_slash_app (a b cur : string) :
  split_go "/" (a +:+ "/" +:+ b) 0 cur = split_go "/" a 0 cur ++ split_go "/" b 0 "".
Proof.
  revert cur. induction a as [|c a IH]; intros cur; [done|].
  rewrite append_cons. cbn [split_go]. rewrite !HasPrefix_slash_cons.
  case_bool_decide; [|apply IH].
  cbn [String.length Nat.sub]. by rewrite IH.
Qed.

Lemma Split_slash_app (a b : string) :
  Split (a +:+ "/" +:+ b) "/" = Split a "/" ++ Split b "/".
Proof. apply split_go_slash_app. Qed.

Lemma split_go_segment (x cur : string) :
  segment x -> split_go "/" x 0 cur = [cur +:+ x].
Proof.
  unfold segment. revert cur. induction x as [|c x IH]; intros cur Hx.
  - simpl. by rewrite append_empty_r.
  - simpl in Hx. apply andb_true_iff in Hx as [Hc Hx].
    cbn [split_go]. rewrite HasPrefix_slash_cons.
    apply negb_true_iff in Hc. rewrite Hc.
    rewrite IH by done. by rewrite append_assoc.
Qed.

Lemma Split_segment (x : string) : segment x -> Split x "/" = [x].
Proof. intros Hx. unfold Split. by rewrite split_go_segment. Qed.

Lemma segment_snoc (cur : string) (c : ascii) :
  segment cur -> c <> "/"%char -> segment (cur +:+ String c "").
Proof.
  unfold segment. intros Hcur Hc. rewrite all_bytes_append, Hcur. simpl.
  by rewrite (bool_decide_eq_false_2 _ Hc).
Qed.

Lemma split_go_segments (s cur : string) :
  segment cur -> Forall segment (split_go "/" s 0 cur).
Proof.
  revert cur. induction s as [|c s IH]; intros cur Hcur.
  - simpl. by constructor.
  - cbn [split_go]. rewrite HasPrefix_slash_cons. case_bool_decide.
    + constructor; [done|]. by apply IH.
    + apply IH. by apply segment_snoc.
Qed.

(** The pieces [Split] cuts a string into hold no slash. *)
Lemma Split_segments (s : string) : Forall segment (Split s "/").
Proof. by apply split_go_segments. Qed.

(** Splitting what was joined gives the pieces back. *)
Lemma Split_Join (l : list string) :
  l <> [] -> Forall segment l -> Split (Join l "/") "/" = l.
Proof.
  induction l as [|x l IH]; intros Hne Hall; [done|].
  apply Forall_cons in Hall as [Hx Hl].
  destruct l as [|y l]; [by apply Split_segment|].
  rewrite Join_cons by done. rewrite Split_slash_app, IH by done.
  by rewrite Split_segment.
Qed.

Lemma length_Split_pos (s : string) : 0 < length (Split s "/").
Proof.
  pose proof (split_go_nonempty "/" s 0 ""). unfold Split.
  destruct (split_go "/" s 0 ""); [done | simpl; lia].
Qed.

End split_slash.

(* ===================================================================== *)
(** * Folders through the API *)
(* ===================================================================== *)

Section create_folder.
Context `{!Libs}.

(** The segments [ensureFolders] walks when [APICreateFolder] hands it
    the folder path with [/dummy.sh] appended. *)
Lemma dummy_parts (path : string) :
  HasPrefix path "/" = true ->
  Split (TrimPrefix (path +:+ "/dummy.sh") "/") "/"
  = Split (TrimPrefix path "/") "/" ++ ["dummy.sh"].
Proof.
  intros Hslash. apply HasPrefix_slash_inv in Hslash as [rest ->].
  rewrite append_assoc, !TrimPrefix_append.
  change "/dummy.sh" with ("/" +:+ "dummy.sh").
  by rewrite Split_slash_app.
Qed.

Lemma folderPrefix_whole (path : string) (tail : list string) :
  HasPrefix path "/" = true ->
  folderPrefix (Split (TrimPrefix path "/") "/" ++ tail)
    (length (Split (TrimPrefix path "/") "/"))
  = path.
Proof.
  intros Hslash. unfold folderPrefix. rewrite take_app_length.
  rewrite Join_Split by done.
  apply HasPrefix_slash_inv in Hslash as [rest ->]. by rewrite TrimPrefix_append.
Qed.

(** X15. Creating a folder.  For a path that starts with a slash (and a
    UUID generator that gives fresh ids) [APICreateFolder] answers 201
    with the folder row stored at exactly that path: the row that was
    there already, when there was one, and no conflict is reported.
    Afterwards every slash-prefix of the path has a folder row; rows are
    only appended to the folders table and no other table changes, the
    audit log included.  Asking again gives the same answer and changes
    nothing.  A missing body or a path without leading slash is answered
    400 with nothing changed. *)
Theorem APICreateFolder_creates (s : Server) (path : string) (r : Request) (w : World) :
  let parts := Split (TrimPrefix path "/") "/" in
  let res := APICreateFolder s (Some path) r w in
  HasPrefix path "/" = true ->
  uuids_fresh w ->
  (exists folder,
     res.1 = FolderOK StatusCreated (folderResponse folder)
     /\ Folder.Path folder = path
     /\ GetFolderByPath (db res.2) path = Some folder
     /\ (forall old, GetFolderByPath (db w) path = Some old -> folder = old))
  /\ (forall i, 1 <= i <= length parts ->
        is_Some (GetFolderByPath (db res.2) (folderPrefix parts i)))
  /\ (exists created, folders (db res.2) = folders (db w) ++ created)
  /\ (scripts (db res.2) = scripts (db w) /\ auth_tokens (db res.2) = auth_tokens (db w)
      /\ audit_log (db res.2) = audit_log (db w)
      /\ script_versions (db res.2) = script_versions (db w))
  /\ APICreateFolder s (Some path) r res.2 = res
  /\ APICreateFolder s None r w = (Plain (HttpError "Invalid request body" StatusBadRequest), w)
  /\ (forall bad, HasPrefix bad "/" = false ->
        APICreateFolder s (Some bad) r w
        = (Plain (HttpError "Path must start with /" StatusBadRequest), w)).
Proof.
  intros parts res Hslash Hfresh.
  set (w1 := (ensureFolders (path +:+ "/dummy.sh") w).2).
  destruct (ensureFolders_run (path +:+ "/dummy.sh") w Hfresh)
    as (Hrun & Hfresh1 & [created Hcreated] & Hall & Hs & Ht & Ha & Hv).
  fold w1 in Hrun, Hfresh1, Hcreated, Hall, Hs, Ht, Ha, Hv.
  rewrite (dummy_parts path Hslash) in Hall. fold parts in Hall.
  assert (Hlen : 0 < length parts) by apply length_Split_pos.
  assert (Hprefix : forall i, 1 <= i <= length parts ->
            is_Some (GetFolderByPath (db w1) (folderPrefix parts i))).
  { intros i Hi.
    replace (folderPrefix parts i) with (folderPrefix (parts ++ ["dummy.sh"]) i).
    - apply Hall. rewrite length_app. simpl. lia.
    - unfold folderPrefix. by rewrite take_app_le by lia. }
  assert (Hthere : is_Some (GetFolderByPath (db w1) path)).
  { rewrite <- (folderPrefix_whole path ["dummy.sh"] Hslash). fold parts.
    apply Hall. rewrite length_app. simpl. lia. }
  destruct Hthere as [folder Hfolder].
  assert (Happ : forall w0, uuids_fresh w0 ->
            APICreateFolder s (Some path) r w0
            = (match GetFolderByPath (db (ensureFolders (path +:+ "/dummy.sh") w0).2) path with
               | Some f => FolderOK StatusCreated (folderResponse f)
               | None => Plain (HttpError "Failed to create folder" StatusInternalServerError)
               end, (ensureFolders (path +:+ "/dummy.sh") w0).2)).
  { intros w0 H0. unfold APICreateFolder. rewrite Hslash. run_handler.
    destruct (ensureFolders_run (path +:+ "/dummy.sh") w0 H0) as (Hrun0 & _).
    rewrite Hrun0. simpl.
    by destruct (GetFolderByPath (db (ensureFolders (path +:+ "/dummy.sh") w0).2) path). }
  assert (Hres : res = (FolderOK StatusCreated (folderResponse folder), w1)).
  { subst res. rewrite Happ by done. fold w1. by rewrite Hfolder. }
  assert (Hnoop : ensureFolders (path +:+ "/dummy.sh") w1 = (tt, w1)).
  { unfold ensureFolders. rewrite (dummy_parts path Hslash). fold parts.
    rewrite length_app. simpl.
    rewrite (proj2 (Nat.leb_gt (length parts + 1) 1)) by lia.
    apply ensureFolders_loop_noop. intros j Hj. apply elem_of_seq in Hj.
    apply Hall. rewrite length_app. simpl. lia. }
  rewrite Hres. cbn [fst snd]. split_and!; try done.
  - exists folder. split_and!; try done.
    + unfold GetFolderByPath in Hfolder. apply find_some in Hfolder as [_ Hp].
      by apply bool_decide_eq_true in Hp.
    + intros old Hold. unfold GetFolderByPath in Hfolder, Hold.
      rewrite Hcreated in Hfolder.
      rewrite (find_app_Some _ _ _ _ Hold) in Hfolder. congruence.
  - by exists created.
  - rewrite Happ by done. rewrite Hnoop. cbn [snd]. by rewrite Hfolder.
  - intros bad Hbad. unfold APICreateFolder. by rewrite Hbad.
Qed.

End create_folder.

Lemma APICreateFolder_creates_witness :
  is_Some (GetFolderByPath
             (db (@APICreateFolder exampleLibs demoServer (Some "/tools/net")
                    (demoGet "/api/folders" [] []) demoWorld).2)
             "/tools").
Proof.
  refine (proj1 (proj2 (@APICreateFolder_creates exampleLibs demoServer "/tools/net"
                          (demoGet "/api/folders" [] []) demoWorld _ _)) 1 _).
  - reflexivity.
  - by apply exampleLibs_uuids_fresh.
  - vm_compute. lia.
Defined.

Lemma ListFolders_sorted (d : DB) :
  StronglySorted String.le (map Folder.Path (ListFolders d))
  /\ ListFolders d ≡ₚ folders d.
Proof.
  split; [|apply merge_sort_Permutation].
  unfold ListFolders.
  apply (StronglySorted_fmap Folder.Path
           (fun a b => String.le (Folder.Path a) (Folder.Path b))); [done|].
  apply StronglySorted_merge_sort.
  - intros a b c Hab Hbc. by etrans.
  - intros a b. apply (total String.le).
Qed.

Lemma prefixLike_subtree (p x : string) : prefixLike (p +:+ "/" +:+ x) (p +:+ "/%") = true.
Proof.
  unfold prefixLike.
  replace (slice_to (String.length (p +:+ "/%") - 1) (p +:+ "/%")) with (p +:+ "/").
  - rewrite <- append_assoc. apply HasPrefix_append.
  - change "/%" with ("/" +:+ "%"). rewrite <- append_assoc.
    rewrite (length_append (p +:+ "/") "%"). simpl.
    replace (String.length (p +:+ "/") + 1 - 1) with (String.length (p +:+ "/")) by lia.
    by rewrite slice_to_append.
Qed.

Section delete_folder.
Context `{!Libs}.

(** X16. Deleting a folder.  [APIDeleteFolder] answers 404 for an id no
    folder has and then changes nothing.  For a stored folder it answers
    204 and removes rows of the folders table only: scripts (also those
    inside the folder), tokens, versions and the audit log are as
    before, so every fetch is answered as before.  No folder is left at
    the deleted path, and, LIKE matching every text that extends the
    pattern's literal prefix, none below it; a folder that is neither at
    the path nor matched by the pattern stays, and the folders that stay
    keep their order.  The listing afterwards is sorted by path and
    names only folders that stayed. *)
Theorem APIDeleteFolder_effects (s : Server) (like : string -> string -> bool)
    (r : Request) (w : World) :
  let id := PathValueId r in
  let res := APIDeleteFolder s like r w in
  match GetFolder (db w) id with
  | None => res = (Plain (HttpError "Folder not found" StatusNotFound), w)
  | Some folder =>
      let path := Folder.Path folder in
      res.1 = NoContent
      /\ scripts (db res.2) = scripts (db w)
      /\ auth_tokens (db res.2) = auth_tokens (db w)
      /\ script_versions (db res.2) = script_versions (db w)
      /\ audit_log (db res.2) = audit_log (db w)
      /\ (forall get, (HandleScript s get res.2).1 = (HandleScript s get w).1)
      /\ GetFolderByPath (db res.2) path = None
      /\ ((forall p x, like (p +:+ "/" +:+ x) (p +:+ "/%") = true) ->
          forall x, GetFolderByPath (db res.2) (path +:+ "/" +:+ x) = None)
      /\ (folders (db res.2)) `sublist_of` (folders (db w))
      /\ (forall f, f ∈ folders (db w) ->
            Folder.Path f <> path -> like (Folder.Path f) (path +:+ "/%") = false ->
            f ∈ folders (db res.2))
      /\ (exists l, APIListFolders s r res.2 = (FolderListOK l, res.2)
                    /\ StronglySorted String.le (map fr_Path l)
                    /\ (path ∉ map fr_Path l)
                    /\ forall fr, fr ∈ l -> exists f, f ∈ folders (db w) /\ fr = folderResponse f)
  end.
Proof.
  intros id res.
  destruct (GetFolder (db w) id) as [folder|] eqn:Hget.
  2:{ subst res. unfold APIDeleteFolder. run_handler. fold id. by rewrite Hget. }
  intros path.
  set (kept := filter (fun f => ~ (Folder.Path f = path
                                   \/ like (Folder.Path f) (path +:+ "/%") = true))
                 (folders (db w))).
  assert (Hres : res = (NoContent, {| db := set_folders (db w) kept;
                                      uuids := uuids w; ticks := ticks w |})).
  { subst res. unfold APIDeleteFolder. run_handler. fold id. by rewrite Hget. }
  rewrite Hres. cbn [fst snd db set_folders scripts auth_tokens script_versions audit_log
                     folders].
  split_and!; try done.
  - intros get. unfold HandleScript. run_handler. unfold GetScriptByPath, GetAuthToken.
    cbn [set_folders scripts auth_tokens].
    match goal with |- context [find ?f (scripts (db w))] =>
      destruct (find f (scripts (db w))) as [script|]; [|done] end.
    destruct (bool_decide (Get (Query get) "preview" = "1")); [done|].
    destruct (negb (Script.Locked script =? 0)%Z); [|done].
    match goal with |- context [negb (bool_decide (?tok = ""))] =>
      destruct (negb (bool_decide (tok = ""))); [|done];
      destruct (auth_tokens (db w) !! tok) as [t|]; [|done]
    end.
    destruct (bool_decide (AuthToken.ScriptID t = Script.ID script)); [|done].
    simpl. by destruct (time_at (ticks w) <? AuthToken.ExpiresAt t)%Z.
  - unfold GetFolderByPath. cbn [folders set_folders]. apply find_filter_None.
    intros x _ Hx Hkeep. apply bool_decide_eq_true in Hx. apply Hkeep. by left.
  - intros Hlike x. unfold GetFolderByPath. cbn [folders set_folders].
    apply find_filter_None.
    intros f _ Hf Hkeep. apply bool_decide_eq_true in Hf. apply Hkeep. right.
    rewrite Hf. apply Hlike.
  - apply sublist_filter.
  - intros f Hin Hpath Hno. apply list_elem_of_filter. split; [|done].
    intros [Heq|Hyes]; [done | congruence].
  - eexists. split; [reflexivity|].
    destruct (ListFolders_sorted (set_folders (db w) kept)) as [Hsorted Hperm].
    cbn [set_folders folders] in Hperm.
    split_and!.
    + by rewrite map_map.
    + rewrite map_map. intros Hin. apply list_elem_of_fmap in Hin as (f & Hp & Hf).
      rewrite Hperm in Hf. apply list_elem_of_filter in Hf as [Hkeep _].
      apply Hkeep. left. by rewrite Hp.
    + intros fr Hfr. apply list_elem_of_fmap in Hfr as (f & -> & Hf).
      rewrite Hperm in Hf. apply list_elem_of_filter in Hf as [_ Hf]. by exists f.
Qed.

End delete_folder.

(** Deleting [/tools] takes [/tools/net] along and leaves [/toolshed]
    and the script [/tools/ping.sh]. *)
Example delete_tools_folder :
  let res := APIDeleteFolder demoServer prefixLike (demoDelete "f-1")
               {| db := demoFolders; uuids := 0; ticks := 0 |} in
  res.1 = NoContent
  /\ map Folder.Path (folders (db res.2)) = ["/toolshed"]
  /\ map Script.Path (scripts (db res.2)) = ["/tools/ping.sh"].
Proof. vm_compute. by split_and!. Qed.

(* ===================================================================== *)
(** * The tree over a store with folder rows *)
(* ===================================================================== *)

Section tree_keys.

Lemma register_fold_other {A : Type} (f : A -> TreeNode.t) (l : list A)
    (st : Heap * gmap string ptr) (k : string) :
  (forall x, x ∈ l -> TreeNode.Path (f x) <> k) ->
  (fold_left (fun st x => register st (f x)) l st).2 !! k = st.2 !! k.
Proof.
  revert st. induction l as [|x l IH]; intros st Hne; [done|].
  simpl. rewrite IH by (intros y Hy; apply Hne; by right).
  simpl. apply lookup_insert_ne. apply Hne. by left.
Qed.

Lemma register_fold_keeps {A : Type} (f : A -> TreeNode.t) (l : list A)
    (st : Heap * gmap string ptr) (k : string) :
  is_Some (st.2 !! k) ->
  is_Some ((fold_left (fun st x => register st (f x)) l st).2 !! k).
Proof.
  revert st. induction l as [|x l IH]; intros st Hk; [done|].
  simpl. apply IH. simpl.
  destruct (decide (TreeNode.Path (f x) = k)) as [<-|Hne].
  - rewrite lookup_insert_eq. eauto.
  - by rewrite lookup_insert_ne.
Qed.

(** A key registered by a loop points at a node that loop allocated. *)
Lemma register_fold_fresh {A : Type} (f : A -> TreeNode.t) (l : list A)
    (st : Heap * gmap string ptr) (x : A) :
  x ∈ l ->
  exists a, (fold_left (fun st x => register st (f x)) l st).2 !! TreeNode.Path (f x) = Some a
            /\ length st.1 <= a.
Proof.
  revert x. induction l as [|z l IH] using rev_ind; intros x Hx.
  - by apply elem_of_nil in Hx.
  - rewrite fold_left_app. simpl.
    set (st' := fold_left (fun st x => register st (f x)) l st) in *.
    destruct (decide (TreeNode.Path (f z) = TreeNode.Path (f x))) as [Heq|Hne].
    + exists (length st'.1). rewrite <- Heq. split; [apply lookup_insert_eq|].
      subst st'. rewrite register_fold_heap, length_app. lia.
    + apply elem_of_app in Hx as [Hx|Hx]; [|apply list_elem_of_singleton in Hx; by subst].
      destruct (IH x Hx) as (a & Ha & Hle).
      exists a. split; [by rewrite lookup_insert_ne | done].
Qed.

Lemma elem_of_ListFolders (d : DB) (f : Folder.t) : f ∈ ListFolders d <-> f ∈ folders d.
Proof. unfold ListFolders. by rewrite merge_sort_Permutation. Qed.

Lemma elem_of_ListScripts (d : DB) (sc : Script.t) : sc ∈ ListScripts d <-> sc ∈ scripts d.
Proof. unfold ListScripts. by rewrite merge_sort_Permutation. Qed.

Lemma GetFolderByPath_None (d : DB) (k : string) :
  GetFolderByPath d k = None <-> forall f, f ∈ folders d -> Folder.Path f <> k.
Proof.
  unfold GetFolderByPath. split.
  - intros Hnone f Hf Hk. apply list_elem_of_In in Hf.
    pose proof (find_none _ _ Hnone f Hf) as Hno. simpl in Hno.
    by apply bool_decide_eq_false in Hno.
  - intros Hall. destruct (find _ (folders d)) as [f|] eqn:Hfind; [|done].
    apply find_some in Hfind as [Hin Hk]. apply bool_decide_eq_true in Hk.
    apply list_elem_of_In in Hin. by destruct (Hall f Hin).
Qed.

Lemma GetScriptByPath_None (d : DB) (k : string) :
  GetScriptByPath d k = None <-> forall sc, sc ∈ scripts d -> Script.Path sc <> k.
Proof.
  unfold GetScriptByPath. split.
  - intros Hnone sc Hsc Hk. apply list_elem_of_In in Hsc.
    pose proof (find_none _ _ Hnone sc Hsc) as Hno. simpl in Hno.
    by apply bool_decide_eq_false in Hno.
  - intros Hall. destruct (find _ (scripts d)) as [sc|] eqn:Hfind; [|done].
    apply find_some in Hfind as [Hin Hk]. apply bool_decide_eq_true in Hk.
    apply list_elem_of_In in Hin. by destruct (Hall sc Hin).
Qed.

(** A key without a row is not in the node map, the root's key apart. *)
Lemma buildNodes_no_row (d : DB) (k : string) :
  no_row_at d k -> (buildNodes d).2 !! k = ({["/" := root]} : gmap string ptr) !! k.
Proof.
  intros [Hf Hs]. unfold buildNodes. cbv zeta.
  rewrite register_fold_other.
  2:{ intros sc Hsc. apply elem_of_ListScripts in Hsc.
      by apply (proj1 (GetScriptByPath_None d k)). }
  rewrite register_fold_other; [done|].
  intros f Hin. apply elem_of_ListFolders in Hin.
  by apply (proj1 (GetFolderByPath_None d k)).
Qed.

Lemma buildNodes_root (d : DB) : no_row_at d "/" -> (buildNodes d).2 !! "/" = Some root.
Proof. intros Hno. by rewrite buildNodes_no_row. Qed.

Lemma buildNodes_absent (d : DB) (k : string) :
  no_row_at d k -> k <> "/" -> (buildNodes d).2 !! k = None.
Proof. intros Hno Hk. rewrite buildNodes_no_row by done. by apply lookup_singleton_ne. Qed.

(** The key of a folder row or of a script row is in the node map. *)
Lemma buildNodes_folder (d : DB) (k : string) :
  is_Some (GetFolderByPath d k) -> is_Some ((buildNodes d).2 !! k).
Proof.
  intros [f Hf]. unfold GetFolderByPath in Hf. apply find_some in Hf as [Hin Hk].
  apply bool_decide_eq_true in Hk. apply list_elem_of_In, elem_of_ListFolders in Hin.
  unfold buildNodes. cbv zeta. apply register_fold_keeps.
  destruct (register_fold_lookup folderNode (ListFolders d) ([rootNode], {["/" := root]})
              f Hin) as (a & _ & Ha & _).
  simpl in Ha. rewrite Hk in Ha. eauto.
Qed.

Lemma buildNodes_script (d : DB) (k : string) :
  is_Some (GetScriptByPath d k) -> is_Some ((buildNodes d).2 !! k).
Proof.
  intros [sc Hsc]. unfold GetScriptByPath in Hsc. apply find_some in Hsc as [Hin Hk].
  apply bool_decide_eq_true in Hk. apply list_elem_of_In, elem_of_ListScripts in Hin.
  unfold buildNodes. cbv zeta.
  destruct (register_fold_lookup scriptNode (ListScripts d)
              (fold_left (fun st f => register st (folderNode f)) (ListFolders d)
                 ([rootNode], {["/" := root]})) sc Hin) as (a & _ & Ha & _).
  simpl in Ha. rewrite Hk in Ha. eauto.
Qed.

(** A row at the root's key takes the key away from the root. *)
Lemma buildNodes_root_shadowed (d : DB) :
  is_Some (GetFolderByPath d "/") ->
  exists a, (buildNodes d).2 !! "/" = Some a /\ a <> root.
Proof.
  intros [f Hf]. unfold GetFolderByPath in Hf. apply find_some in Hf as [Hin Hk].
  apply bool_decide_eq_true in Hk. apply list_elem_of_In, elem_of_ListFolders in Hin.
  destruct (register_fold_fresh folderNode (ListFolders d) ([rootNode], {["/" := root]})
              f Hin) as (a & Ha & Hle).
  simpl in Ha, Hle. rewrite Hk in Ha.
  set (st := fold_left (fun st f => register st (folderNode f)) (ListFolders d)
               ([rootNode], {["/" := root]})) in *.
  destruct (GetScriptByPath d "/") as [sc|] eqn:Hget.
  - unfold GetScriptByPath in Hget. apply find_some in Hget as [Hsc Hp].
    apply bool_decide_eq_true in Hp. apply list_elem_of_In, elem_of_ListScripts in Hsc.
    destruct (register_fold_fresh scriptNode (ListScripts d) st sc Hsc) as (b & Hb & Hle').
    simpl in Hb. rewrite Hp in Hb. exists b. split; [exact Hb|].
    subst st. rewrite register_fold_heap, length_app in Hle'. simpl in Hle'.
    unfold root. lia.
  - exists a. split; [|unfold root; lia].
    unfold buildNodes. cbv zeta. fold st. rewrite register_fold_other; [done|].
    intros sc Hsc. apply elem_of_ListScripts in Hsc.
    by apply (proj1 (GetScriptByPath_None d "/")).
Qed.

(** Which node a key hangs under, for an iteration over all keys. *)
Lemma childOf_iff (d : DB) (order : list string) (p : ptr) (k : string) :
  (map_to_list (buildNodes d).2).*1 ≡ₚ order ->
  childOf d order p k
  <-> k <> "/" /\ is_Some ((buildNodes d).2 !! k) /\ attachTarget (buildNodes d).2 k = p.
Proof.
  intros Hperm. unfold childOf. split.
  - intros (a & np & Ha & Hp & Hin).
    destruct (treeHeap_lookup_inv _ _ _ _ Hp) as (n & Hn & ->). simpl in Hin.
    apply elem_of_childrenOf in Hin as (k' & _ & Hk' & Hne & Ht).
    rewrite (buildNodes_inj d k k' a) by done. eauto.
  - intros (Hne & [a Ha] & Ht).
    destruct (attachTarget_valid d k) as [n Hn]. rewrite Ht in Hn.
    exists a, (withChildren n (childrenOf (buildNodes d).2 order p)).
    split_and!; [done | by apply treeHeap_lookup |].
    simpl. apply elem_of_childrenOf. exists k. split_and!; try done.
    rewrite <- Hperm. apply list_elem_of_fmap. exists (k, a). split; [done|].
    by apply elem_of_map_to_list.
Qed.

End tree_keys.

Section parent_paths.

Lemma folderPrefix_S (parts : list string) (i : nat) (x : string) :
  1 <= i -> parts !! i = Some x ->
  folderPrefix parts (S i) = folderPrefix parts i +:+ "/" +:+ x.
Proof.
  intros Hi Hx. unfold folderPrefix.
  rewrite (take_S_r _ _ _ Hx), Join_snoc.
  - by rewrite append_assoc.
  - intros Hnil. apply (f_equal length) in Hnil. rewrite length_take in Hnil.
    apply lookup_lt_Some in Hx. simpl in Hnil. lia.
Qed.

Lemma folderPrefix_not_root (parts : list string) (i : nat) :
  1 <= i < length parts -> folderPrefix parts (S i) <> "/".
Proof.
  intros Hi. destruct (lookup_lt_is_Some_2 parts i) as [x Hx]; [lia|].
  rewrite (folderPrefix_S parts i x) by (done || lia).
  unfold folderPrefix. rewrite !append_assoc. intros Heq.
  apply (f_equal String.length) in Heq. rewrite !length_append in Heq.
  simpl in Heq. lia.
Qed.

Lemma folderPrefix_1 (parts : list string) :
  folderPrefix parts 1 = "/" +:+ hd "" parts.
Proof. unfold folderPrefix. by destruct parts. Qed.

(** The parent of a prefix of a path is the prefix before it. *)
Lemma getParentPath_folderPrefix_S (parts : list string) (i : nat) :
  Forall segment parts -> 1 <= i < length parts ->
  getParentPath (folderPrefix parts (S i)) = folderPrefix parts i.
Proof.
  intros Hseg Hi. unfold getParentPath.
  rewrite bool_decide_eq_false_2 by (by apply folderPrefix_not_root).
  unfold folderPrefix. rewrite TrimPrefix_append.
  assert (Hlen : length (take (S i) parts) = S i) by (rewrite length_take; lia).
  rewrite Split_Join.
  - rewrite Hlen. simpl. rewrite Nat.sub_0_r, take_take.
    rewrite (proj2 (Nat.leb_gt i 0)) by lia.
    by replace (i `min` S i) with i by lia.
  - intros Hnil. by rewrite Hnil in Hlen.
  - by apply Forall_take.
Qed.

Lemma getParentPath_folderPrefix_1 (parts : list string) :
  Forall segment parts -> getParentPath (folderPrefix parts 1) = "/".
Proof.
  intros Hseg. rewrite folderPrefix_1. unfold getParentPath.
  case_bool_decide; [done|]. rewrite TrimPrefix_append.
  destruct parts as [|x parts]; [done|]. simpl.
  apply Forall_cons in Hseg as [Hx _]. by rewrite Split_segment.
Qed.

Lemma folderPrefix_all (path : string) :
  HasPrefix path "/" = true ->
  folderPrefix (Split (TrimPrefix path "/") "/")
    (length (Split (TrimPrefix path "/") "/")) = path.
Proof.
  intros Hslash. unfold folderPrefix. rewrite firstn_all, Join_Split by done.
  apply HasPrefix_slash_inv in Hslash as [rest ->]. by rewrite TrimPrefix_append.
Qed.

End parent_paths.

Section tree_chain.
Context `{!Libs}.

(** The chain of prefixes of a path in the tree of a store. *)
Lemma folder_chain (d : DB) (order : list string) (path : string) :
  let nodeMap := (buildNodes d).2 in
  let parts := Split (TrimPrefix path "/") "/" in
  (map_to_list nodeMap).*1 ≡ₚ order ->
  HasPrefix path "/" = true ->
  hd "" parts <> "" ->
  no_row_at d "/" ->
  is_Some (nodeMap !! path) ->
  (forall i, 1 <= i < length parts -> is_Some (nodeMap !! folderPrefix parts i)) ->
  folderPrefix parts (length parts) = path
  /\ nodeMap !! "/" = Some root
  /\ childOf d order root (folderPrefix parts 1)
  /\ (forall p', childOf d order p' (folderPrefix parts 1) -> p' = root)
  /\ (forall i, 1 <= i < length parts ->
        exists p, nodeMap !! folderPrefix parts i = Some p
                  /\ childOf d order p (folderPrefix parts (S i))
                  /\ forall p', childOf d order p' (folderPrefix parts (S i)) -> p' = p).
Proof.
  intros nodeMap parts Hperm Hslash Hhd Hroot Hpath Hrows.
  assert (Hseg : Forall segment parts) by apply Split_segments.
  assert (Hall : folderPrefix parts (length parts) = path) by (by apply folderPrefix_all).
  assert (Hlen : 0 < length parts) by apply length_Split_pos.
  assert (Hsome : forall i, 1 <= i <= length parts -> is_Some (nodeMap !! folderPrefix parts i)).
  { intros i Hi. destruct (decide (i = length parts)) as [->|Hne].
    - by rewrite Hall.
    - apply Hrows. lia. }
  assert (Hrootkey : nodeMap !! "/" = Some root) by (by apply buildNodes_root).
  assert (Hfirst : folderPrefix parts 1 <> "/").
  { rewrite folderPrefix_1. intros Heq. apply Hhd.
    apply (f_equal (fun x => TrimPrefix x "/")) in Heq.
    by rewrite TrimPrefix_append in Heq. }
  assert (Htarget1 : attachTarget nodeMap (folderPrefix parts 1) = root).
  { unfold attachTarget. by rewrite getParentPath_folderPrefix_1, Hrootkey. }
  split_and!; try done.
  - apply childOf_iff; [done|]. split_and!; [done | apply Hsome; lia | done].
  - intros p' Hp'. apply childOf_iff in Hp' as (_ & _ & <-); done.
  - intros i Hi. destruct (Hsome i) as [p Hp]; [lia|]. exists p.
    assert (Htarget : attachTarget nodeMap (folderPrefix parts (S i)) = p).
    { unfold attachTarget. by rewrite getParentPath_folderPrefix_S, Hp. }
    split_and!; [done | |].
    + apply childOf_iff; [done|]. split_and!; [|apply Hsome; lia | done].
      by apply folderPrefix_not_root.
    + intros p' Hp'. apply childOf_iff in Hp' as (_ & _ & <-); done.
Qed.

(** X17. Where the folder rows are complete the tree follows the path.
    Take a store with no row at [/] and a script or folder at a path
    that starts with one slash only and whose every proper prefix has a
    row.  Then, whatever order the node map is iterated in, the tree
    [APIGetTree] encodes from its root has the first prefix's node among
    the root's children, and each further prefix's node (the last being
    the node of the path itself) among the children of the prefix
    before it, and of no other node. *)
Theorem APIGetTree_folder_chain (s : Server) (r : Request) (w : World)
    (order : list string) (path : string) :
  let nodeMap := (buildNodes (db w)).2 in
  let h := treeHeap (db w) order in
  let parts := Split (TrimPrefix path "/") "/" in
  (map_to_list nodeMap).*1 ≡ₚ order ->
  HasPrefix path "/" = true ->
  hd "" parts <> "" ->
  no_row_at (db w) "/" ->
  is_Some (nodeMap !! path) ->
  (forall i, 1 <= i < length parts -> is_Some (nodeMap !! folderPrefix parts i)) ->
  APIGetTree s order r w = (TreeOK (encodeTree (S (length h)) h root), w)
  /\ (exists tree, encodeTree (S (length h)) h root = Some tree)
  /\ folderPrefix parts (length parts) = path
  /\ nodeMap !! "/" = Some root
  /\ childOf (db w) order root (folderPrefix parts 1)
  /\ (forall p', childOf (db w) order p' (folderPrefix parts 1) -> p' = root)
  /\ (forall i, 1 <= i < length parts ->
        exists p, nodeMap !! folderPrefix parts i = Some p
                  /\ childOf (db w) order p (folderPrefix parts (S i))
                  /\ forall p', childOf (db w) order p' (folderPrefix parts (S i)) -> p' = p).
Proof.
  intros nodeMap h parts Hperm Hslash Hhd Hroot Hpath Hrows.
  split; [done|]. split; [apply encodeTree_total|].
  by apply folder_chain.
Qed.

End tree_chain.

Lemma APIGetTree_folder_chain_witness :
  childOf treeDB ["/x.sh"; "/a/b/c.sh"; "/"; "/a/b"; "/a"] root "/a".
Proof.
  refine (proj1 (proj2 (proj2 (proj2 (proj2
    (APIGetTree_folder_chain demoServer (demoGet "/api/tree" [] []) treeWorld
       ["/x.sh"; "/a/b/c.sh"; "/"; "/a/b"; "/a"] "/a/b/c.sh" _ _ _ _ _ _)))))).
  - apply permutations_Permutation. apply (bool_decide_unpack _). vm_compute. exact I.
  - reflexivity.
  - vm_compute. discriminate.
  - split; reflexivity.
  - vm_compute. eauto.
  - intros i Hi. vm_compute in Hi.
    assert (Hcases : i = 1 \/ i = 2) by lia.
    destruct Hcases as [-> | ->]; vm_compute; eauto.
Defined.

Section create_then_tree.
Context `{!Libs}.

(** The paths of the rows [ensureFolders] adds are prefixes of the
    script path. *)
Lemma ensureFolders_created (scriptPath : string) (w : World) :
  let parts := Split (TrimPrefix scriptPath "/") "/" in
  uuids_fresh w ->
  exists created idx,
    folders (db (ensureFolders scriptPath w).2) = folders (db w) ++ created
    /\ map Folder.Path created = map (folderPrefix parts) idx
    /\ Forall (fun i => 1 <= i < length parts) idx.
Proof.
  intros parts Hfresh. unfold ensureFolders. fold parts.
  destruct (length parts <=? 1)%nat eqn:Hlen.
  - exists [], []. simpl. by rewrite app_nil_r.
  - destruct (ensureFolders_loop parts (seq 1 (length parts - 1)) w Hfresh)
      as (w' & created & idx & Hrun & _ & Hfolders & Hsub & Hp & _).
    rewrite Hrun. exists created, idx. split_and!; try done.
    apply Forall_forall. intros i Hi.
    assert (Hin : i ∈ seq 1 (length parts - 1)) by (by eapply elem_of_sublist).
    apply elem_of_seq in Hin. lia.
Qed.

Lemma folderPrefix_not_root' (parts : list string) (i : nat) :
  hd "" parts <> "" -> 1 <= i <= length parts -> folderPrefix parts i <> "/".
Proof.
  intros Hhd Hi. destruct (decide (i = 1)) as [->|Hne].
  - rewrite folderPrefix_1. intros Heq. apply Hhd.
    apply (f_equal (fun x => TrimPrefix x "/")) in Heq.
    by rewrite TrimPrefix_append in Heq.
  - destruct i as [|i]; [lia|]. apply folderPrefix_not_root. lia.
Qed.

(** X18. A created script shows up under its folders.  After
    [APICreateScript] has stored a script (valid path that does not
    start with two slashes, free id and path, fresh folder ids) in a
    store that had no row at [/], the tree [APIGetTree] builds, in
    whatever order it iterates, has the node of the path's first
    segment among the root's children, the node of each longer prefix
    among the children of the prefix before it, and the script's node at
    the end of that chain. *)
Theorem create_then_tree (s : Server) (req : ScriptRequest) (put r : Request) (w : World)
    (passwordHash : option string) (order : list string) :
  let parts := Split (TrimPrefix (req_Path req) "/") "/" in
  let w1 := (APICreateScript s (Some req) put w).2 in
  let nodeMap := (buildNodes (db w1)).2 in
  let h := treeHeap (db w1) order in
  validatePath (req_Path req) = None ->
  createHash req = Some passwordHash ->
  uuids_fresh w ->
  script_slot_free (db w) (uuid_at (uuids w)) (req_Path req) ->
  no_row_at (db w) "/" ->
  hd "" parts <> "" ->
  (map_to_list nodeMap).*1 ≡ₚ order ->
  (exists tree, APIGetTree s order r w1 = (TreeOK (Some tree), w1))
  /\ folderPrefix parts (length parts) = req_Path req
  /\ childOf (db w1) order root (folderPrefix parts 1)
  /\ (forall i, 1 <= i < length parts ->
        exists p f, nodeMap !! folderPrefix parts i = Some p
                  /\ GetFolderByPath (db w1) (folderPrefix parts i) = Some f
                  /\ childOf (db w1) order p (folderPrefix parts (S i))).
Proof.
  intros parts w1 nodeMap h Hvalid Hhash Hfresh Hfree Hroot Hhd Hperm.
  assert (Hfresh1 : uuids_fresh {| db := db w; uuids := S (uuids w); ticks := S (ticks w) |})
    by (apply (uuids_fresh_later w); [done | done | lia]).
  destruct (APICreateScript_success s req put w passwordHash Hvalid Hhash Hfresh Hfree)
    as (_ & Hscripts & Hbypath & _).
  fold w1 in Hscripts, Hbypath.
  destruct (ensureFolders_run (req_Path req) _ Hfresh1) as (_ & _ & _ & Hall & _).
  destruct (ensureFolders_created (req_Path req) _ Hfresh1)
    as (created & idx & Hcreated & Hpaths & Hidx).
  fold parts in Hall, Hpaths, Hidx. cbn [db] in Hcreated.
  assert (Hfolders : folders (db w1)
                     = folders (db (ensureFolders (req_Path req)
                          {| db := db w; uuids := S (uuids w); ticks := S (ticks w) |}).2)).
  { assert (Hrun := APICreateScript_run s req put w passwordHash Hvalid Hhash Hfresh1).
    cbv zeta in Hrun. subst w1. rewrite Hrun. unfold CreateScript.
    by destruct (existsb _ _). }
  pose proof (proj1 (validatePath_None _) Hvalid) as (Hslash & Hsh & _).
  assert (Hrows : forall i, 1 <= i < length parts ->
            is_Some (GetFolderByPath (db w1) (folderPrefix parts i))).
  { intros i Hi. unfold GetFolderByPath. rewrite Hfolders. by apply Hall. }
  assert (Hroot1 : no_row_at (db w1) "/").
  { destruct Hroot as [Hf Hs]. split.
    - apply GetFolderByPath_None. intros f Hin. rewrite Hfolders, Hcreated in Hin.
      apply elem_of_app in Hin as [Hin|Hin].
      + by apply (proj1 (GetFolderByPath_None (db w) "/")).
      + assert (Hp : Folder.Path f ∈ map (folderPrefix parts) idx).
        { rewrite <- Hpaths. apply list_elem_of_fmap. by exists f. }
        apply list_elem_of_fmap in Hp as (i & -> & Hi).
        rewrite Forall_forall in Hidx. specialize (Hidx i Hi).
        apply folderPrefix_not_root'; [done | lia].
    - apply GetScriptByPath_None. intros sc Hin. rewrite Hscripts in Hin.
      apply elem_of_app in Hin as [Hin|Hin].
      + by apply (proj1 (GetScriptByPath_None (db w) "/")).
      + apply list_elem_of_singleton in Hin as ->. unfold createRow. cbn [Script.Path].
        intros Heq. by rewrite Heq in Hsh. }
  destruct (folder_chain (db w1) order (req_Path req)) as (Hall' & _ & Hfirst & _ & Hchain);
    try done.
  { apply buildNodes_script. by rewrite Hbypath. }
  { intros i Hi. apply buildNodes_folder. by apply Hrows. }
  split_and!; try done.
  - destruct (encodeTree_total (db w1) order) as [tree Htree]. exists tree.
    change (APIGetTree s order r w1) with (TreeOK (encodeTree (S (length h)) h root), w1).
    subst h. by rewrite Htree.
  - intros i Hi. destruct (Hchain i Hi) as (p & Hp & Hchild & _).
    destruct (Hrows i Hi) as [f Hf]. by exists p, f.
Qed.

End create_then_tree.

Lemma create_then_tree_witness :
  childOf (db demoCreated) (map_to_list (buildNodes (db demoCreated)).2).*1 root "/a".
Proof.
  refine (proj1 (proj2 (proj2
    (@create_then_tree exampleLibs demoServer demoMove (demoPut "")
       (demoGet "/api/tree" [] []) demoWorld None
       (map_to_list (buildNodes (db demoCreated)).2).*1 _ _ _ _ _ _ _)))).
  - reflexivity.
  - reflexivity.
  - by apply exampleLibs_uuids_fresh.
  - repeat constructor; discriminate.
  - split; reflexivity.
  - vm_compute. discriminate.
  - reflexivity.
Defined.

Section tree_edges.

(** A key with a row points at a node other than the root. *)
Lemma buildNodes_row_ptr (d : DB) (k : string) :
  is_Some (GetFolderByPath d k) \/ is_Some (GetScriptByPath d k) ->
  exists a, (buildNodes d).2 !! k = Some a /\ a <> root.
Proof.
  intros Hrow.
  set (st := fold_left (fun st f => register st (folderNode f)) (ListFolders d)
               ([rootNode], {["/" := root]})).
  destruct (GetScriptByPath d k) as [sc|] eqn:Hget.
  - unfold GetScriptByPath in Hget. apply find_some in Hget as [Hsc Hp].
    apply bool_decide_eq_true in Hp. apply list_elem_of_In, elem_of_ListScripts in Hsc.
    destruct (register_fold_fresh scriptNode (ListScripts d) st sc Hsc) as (b & Hb & Hle).
    simpl in Hb. rewrite Hp in Hb. exists b. split; [exact Hb|].
    subst st. rewrite register_fold_heap, length_app in Hle. simpl in Hle.
    unfold root. lia.
  - destruct Hrow as [[f Hf]|[sc Hsc]]; [|done].
    unfold GetFolderByPath in Hf. apply find_some in Hf as [Hin Hk].
    apply bool_decide_eq_true in Hk. apply list_elem_of_In, elem_of_ListFolders in Hin.
    destruct (register_fold_fresh folderNode (ListFolders d) ([rootNode], {["/" := root]})
                f Hin) as (a & Ha & Hle).
    simpl in Ha, Hle. rewrite Hk in Ha. fold st in Ha.
    exists a. split; [|unfold root; lia].
    unfold buildNodes. cbv zeta. fold st. rewrite register_fold_other; [done|].
    intros sc Hsc. apply elem_of_ListScripts in Hsc.
    by apply (proj1 (GetScriptByPath_None d k)).
Qed.

(** X19. A folder row at [/] takes the root's place.  In a store that
    holds a folder row with path [/] (which [APICreateFolder] makes for
    the path [/], and [ensureFolders] for a script path that starts
    with two slashes), the key [/] of the node map points at that
    folder's node instead of the root.  Whatever the iteration order,
    that node is in no children list, every node whose parent path is
    [/] is appended to it and to no other node, and the root's children
    are only nodes whose parent path has no node at all: what sits at
    the top level cannot be reached from the root. *)
Theorem APIGetTree_root_folder (s : Server) (r : Request) (w : World) (order : list string) :
  let nodeMap := (buildNodes (db w)).2 in
  let h := treeHeap (db w) order in
  (map_to_list nodeMap).*1 ≡ₚ order ->
  is_Some (GetFolderByPath (db w) "/") ->
  APIGetTree s order r w = (TreeOK (encodeTree (S (length h)) h root), w)
  /\ exists a,
       nodeMap !! "/" = Some a /\ a <> root
       /\ (forall p, ~ childOf (db w) order p "/")
       /\ (forall k, k <> "/" -> is_Some (nodeMap !! k) -> getParentPath k = "/" ->
             childOf (db w) order a k /\ forall p, childOf (db w) order p k -> p = a)
       /\ (forall k, childOf (db w) order root k -> nodeMap !! getParentPath k = None).
Proof.
  intros nodeMap h Hperm Hrow. split; [done|].
  destruct (buildNodes_row_ptr (db w) "/") as (a & Ha & Hne); [by left|].
  fold nodeMap in Ha. exists a. split_and!; try done.
  - intros p Hp. by apply childOf_iff in Hp as (Hk & _).
  - intros k Hk Hsome Hparent.
    assert (Htarget : attachTarget nodeMap k = a).
    { unfold attachTarget. by rewrite Hparent, Ha. }
    split.
    + by apply childOf_iff.
    + intros p Hp. apply childOf_iff in Hp as (_ & _ & Hp); [|done].
      fold nodeMap in Hp. congruence.
  - intros k Hk. apply childOf_iff in Hk as (Hne' & Hsome & Htarget); [|done].
    fold nodeMap in Htarget. unfold attachTarget in Htarget.
    destruct (nodeMap !! getParentPath k) as [p|] eqn:Hp; [|done].
    simpl in Htarget. subst p.
    destruct (buildNodes_wf (db w)) as [Hkeys _].
    destruct (Hkeys _ _ Hp) as (n & Hn & Hpath).
    rewrite buildNodes_heap in Hn. simpl in Hn. injection Hn as <-. simpl in Hpath.
    fold nodeMap in Hp. rewrite <- Hpath, Ha in Hp. congruence.
Qed.

End tree_edges.

Lemma APIGetTree_root_folder_witness :
  exists a, (buildNodes (db demoRootFolder)).2 !! "/" = Some a /\ a <> root.
Proof.
  destruct (proj2 (APIGetTree_root_folder demoServer (demoGet "/api/tree" [] [])
                     demoRootFolder (map_to_list (buildNodes (db demoRootFolder)).2).*1
                     (reflexivity _) (ex_intro _ _ eq_refl)))
    as (a & Ha & Hne & _).
  by exists a.
Defined.

(** Creating the folder [/] through the API: the answer is 201 with a
    folder of path [/] and empty name (the validated script path
    [//x.sh] makes [ensureFolders] add the same row), and the tree then
    lacks the top-level script [/x.sh]; the two scripts whose parent
    paths have no row are all that is left under the root. *)
Example root_folder_hides_top_level :
  (@APICreateFolder exampleLibs demoServer (Some "/") (demoGet "/api/folders" [] [])
     demoWorld).1
  = FolderOK StatusCreated
      {| fr_ID := "uuid-0"; fr_Path := "/"; fr_Name := ""; fr_CreatedAt := 1000%Z |}
  /\ validatePath "//x.sh" = None
  /\ map Folder.Path (folders (db (@ensureFolders exampleLibs "//x.sh" demoWorld).2)) = ["/"]
  /\ match (APIGetTree demoServer (map_to_list (buildNodes (db demoRootFolder)).2).*1
              (demoGet "/api/tree" [] []) demoRootFolder).1 with
     | TreeOK (Some (TNode _ _ _ _ _ children)) =>
         map (fun t => match t with TNode _ _ path _ _ _ => path end) children
         ≡ₚ ["/a/secret.sh"; "/b/secret.sh"]
     | _ => False
     end.
Proof.
  split; [reflexivity|]. split; [reflexivity|]. split; [reflexivity|]. vm_compute.
  apply (bool_decide_unpack _). vm_compute. exact I.
Qed.

Section delete_then_tree.
Context `{!Libs}.

(** X20. Deleting a folder moves what was directly inside it up to the
    root of the tree.  Let a folder (not at [/], no script at its path)
    be deleted through [APIDeleteFolder].  A script or folder whose
    parent path is the deleted folder's path, and which is still stored
    afterwards, was a child of the folder's node in the tree before and
    is a child of the root in the tree after; the deleted path has no
    node any more. *)
Theorem delete_folder_then_tree (s : Server) (like : string -> string -> bool)
    (r : Request) (w : World) (folder : Folder.t) (before after : list string) (k : string) :
  let path := Folder.Path folder in
  let w1 := (APIDeleteFolder s like r w).2 in
  GetFolder (db w) (PathValueId r) = Some folder ->
  path <> "/" ->
  GetScriptByPath (db w) path = None ->
  (map_to_list (buildNodes (db w)).2).*1 ≡ₚ before ->
  (map_to_list (buildNodes (db w1)).2).*1 ≡ₚ after ->
  getParentPath k = path ->
  is_Some ((buildNodes (db w)).2 !! k) ->
  is_Some ((buildNodes (db w1)).2 !! k) ->
  (exists p, (buildNodes (db w)).2 !! path = Some p /\ p <> root
             /\ childOf (db w) before p k
             /\ ~ childOf (db w) before root k)
  /\ (buildNodes (db w1)).2 !! path = None
  /\ childOf (db w1) after root k
  /\ (forall sc, sc ∈ scripts (db w) -> getParentPath (Script.Path sc) = path ->
        childOf (db w1) after root (Script.Path sc)).
Proof.
  intros path w1 Hget Hpath Hnoscript Hbefore Hafter Hparent Hk Hk1.
  assert (Hin : folder ∈ folders (db w)).
  { unfold GetFolder in Hget. apply find_some in Hget as [Hin _].
    by apply list_elem_of_In. }
  assert (Hrow : is_Some (GetFolderByPath (db w) path)).
  { unfold GetFolderByPath.
    destruct (find _ (folders (db w))) as [f|] eqn:Hfind; [eauto|].
    apply list_elem_of_In in Hin. pose proof (find_none _ _ Hfind folder Hin) as Hno.
    simpl in Hno. by apply bool_decide_eq_false in Hno. }
  assert (Hkne : forall k', getParentPath k' = path -> k' <> "/").
  { intros k' Hp ->. by apply Hpath. }
  assert (Hw1 : db w1 = set_folders (db w)
                  (filter (fun f => ~ (Folder.Path f = path
                                       \/ like (Folder.Path f) (path +:+ "/%") = true))
                     (folders (db w)))).
  { subst w1. unfold APIDeleteFolder. run_handler. by rewrite Hget. }
  assert (Hgone : no_row_at (db w1) path).
  { rewrite Hw1. split.
    - unfold GetFolderByPath. cbn [folders set_folders]. apply find_filter_None.
      intros x _ Hx Hkeep. apply bool_decide_eq_true in Hx. apply Hkeep. by left.
    - exact Hnoscript. }
  assert (Habsent : (buildNodes (db w1)).2 !! path = None) by (by apply buildNodes_absent).
  assert (Horphan : forall k', getParentPath k' = path ->
            is_Some ((buildNodes (db w1)).2 !! k') -> childOf (db w1) after root k').
  { intros k' Hp Hsome. apply childOf_iff; [done|]. split_and!; [by apply Hkne | done |].
    unfold attachTarget. by rewrite Hp, Habsent. }
  split_and!; try done.
  - destruct (buildNodes_row_ptr (db w) path) as (p & Hp & Hne); [by left|].
    assert (Htarget : attachTarget (buildNodes (db w)).2 k = p).
    { unfold attachTarget. by rewrite Hparent, Hp. }
    exists p. split_and!; try done.
    + apply childOf_iff; [done|]. split_and!; [by apply Hkne | done | done].
    + intros Hroot. apply childOf_iff in Hroot as (_ & _ & Hroot); [|done]. congruence.
  - by apply Horphan.
  - intros sc Hsc Hp. apply Horphan; [done|]. apply buildNodes_script.
    rewrite Hw1. unfold GetScriptByPath. cbn [scripts set_folders].
    destruct (find _ (scripts (db w))) as [x|] eqn:Hfind; [eauto|].
    apply list_elem_of_In in Hsc. pose proof (find_none _ _ Hfind sc Hsc) as Hno.
    simpl in Hno. by apply bool_decide_eq_false in Hno.
Qed.

End delete_then_tree.

Lemma delete_folder_then_tree_witness :
  childOf (db (APIDeleteFolder demoServer prefixLike (demoDelete "f-1")
                 {| db := demoFolders; uuids := 0; ticks := 0 |}).2)
    ["/"; "/toolshed"; "/tools/ping.sh"] root "/tools/ping.sh".
Proof.
  refine (proj1 (proj2 (proj2
    (delete_folder_then_tree demoServer prefixLike (demoDelete "f-1")
       {| db := demoFolders; uuids := 0; ticks := 0 |}
       (demoFolder "f-1" "/tools" "tools")
       (map_to_list (buildNodes demoFolders).2).*1
       ["/"; "/toolshed"; "/tools/ping.sh"] "/tools/ping.sh" _ _ _ _ _ _ _ _)))).
  - reflexivity.
  - discriminate.
  - reflexivity.
  - reflexivity.
  - apply permutations_Permutation. apply (bool_decide_unpack _). vm_compute. exact I.
  - reflexivity.
  - vm_compute. eauto.
  - vm_compute. eauto.
Defined.

(* ===================================================================== *)
(** * Updates that are refused, and moves *)
(* ===================================================================== *)

Lemma UpdateScript_taken (d : DB) (p : UpdateScriptParams) (existing other : Script.t) :
  GetScript d (usp_ID p) = Some existing ->
  other ∈ scripts d -> Script.ID other <> usp_ID p -> Script.Path other = usp_Path p ->
  UpdateScript d p = None.
Proof.
  intros Hget Hin Hid Hpath. unfold UpdateScript.
  replace (existsb (fun s => bool_decide (Script.ID s = usp_ID p)) (scripts d)) with true.
  2:{ symmetry. apply existsb_exists. exists existing.
      unfold GetScript in Hget. by apply find_some in Hget. }
  replace (existsb _ (scripts d)) with true; [done|].
  symmetry. apply existsb_exists. exists other. split; [by apply list_elem_of_In|].
  by rewrite (bool_decide_eq_false_2 _ Hid), (bool_decide_eq_true_2 _ Hpath).
Qed.

Lemma find_updated_other (p : UpdateScriptParams) (l : list Script.t) (id' : string) :
  id' <> usp_ID p ->
  find (fun s => bool_decide (Script.ID s = id')) (map (apply_update p) l)
  = find (fun s => bool_decide (Script.ID s = id')) l.
Proof.
  intros Hne. induction l as [|sc l IH]; [done|]. simpl.
  rewrite apply_update_ID. destruct (decide (Script.ID sc = id')) as [Heq|Hno].
  - rewrite (bool_decide_eq_true_2 _ Heq). f_equal. apply apply_update_miss. congruence.
  - by rewrite (bool_decide_eq_false_2 _ Hno).
Qed.

Lemma find_updated_old_path (p : UpdateScriptParams) (l : list Script.t) (old : string) :
  old <> usp_Path p ->
  (forall sc, sc ∈ l -> Script.Path sc = old -> Script.ID sc = usp_ID p) ->
  find (fun s => bool_decide (Script.Path s = old)) (map (apply_update p) l) = None.
Proof.
  intros Hmoved Honly. induction l as [|sc l IH]; [done|]. simpl.
  rewrite IH by (intros x Hx; apply Honly; by right).
  destruct (decide (Script.ID sc = usp_ID p)) as [Heq|Hne].
  - rewrite bool_decide_eq_false_2; [done|]. by rewrite apply_update_hit.
  - rewrite apply_update_miss by done.
    rewrite bool_decide_eq_false_2; [done|]. intros Hp. apply Hne, Honly; [by left | done].
Qed.

Section update_refusals.
Context `{!Libs}.

(** X21. What [APIUpdateScript] refuses.  An undecodable body and a
    path the validator rejects are answered 400, an id no script has is
    answered 404, all with the world untouched.  An accepted request
    that would move the script onto the path of another script is
    answered 500 and leaves every table as it was: both scripts stay
    where they are, and no version or audit row is written. *)
Theorem APIUpdateScript_refusals (s : Server) (r : Request) (w : World) :
  APIUpdateScript s None r w = (HttpError "Invalid request body" StatusBadRequest, w)
  /\ (forall req err,
        validatePath (req_Path req) = Some err ->
        APIUpdateScript s (Some req) r w = (HttpError err StatusBadRequest, w))
  /\ (forall req,
        validatePath (req_Path req) = None ->
        GetScript (db w) (PathValueId r) = None ->
        APIUpdateScript s (Some req) r w = (HttpError "Script not found" StatusNotFound, w))
  /\ (forall req existing passwordHash other,
        validatePath (req_Path req) = None ->
        GetScript (db w) (PathValueId r) = Some existing ->
        updateHash req existing = Some passwordHash ->
        other ∈ scripts (db w) ->
        Script.ID other <> PathValueId r ->
        Script.Path other = req_Path req ->
        let res := APIUpdateScript s (Some req) r w in
        (exists msg, res.1 = HttpError msg StatusInternalServerError)
        /\ db res.2 = db w).
Proof.
  split_and!.
  - done.
  - intros req err Herr. unfold APIUpdateScript. by rewrite Herr.
  - intros req Hvalid Hnone. unfold APIUpdateScript. rewrite Hvalid. run_handler.
    by rewrite Hnone.
  - intros req existing passwordHash other Hvalid Hexisting Hhash Hin Hid Hpath res.
    assert (Hrun := APIUpdateScript_run s req r w existing passwordHash
                      Hvalid Hexisting Hhash).
    cbv zeta in Hrun.
    rewrite (UpdateScript_taken (db w) _ existing other) in Hrun by done.
    subst res. rewrite Hrun. split; [by eexists | done].
Qed.

(** X22. Moving a script.  After a successful [APIUpdateScript] that
    changes the path of a script (the old path having belonged to it
    alone), a fetch of the old path is answered 404 and a fetch of the
    new path finds the updated row; every other script reads as before
    by id, and the moved script keeps its id, its favorite flag and its
    creation time while its update time is the clock reading. *)
Theorem APIUpdateScript_move (s : Server) (req : ScriptRequest) (put : Request)
    (w : World) (existing : Script.t) (passwordHash : option string) :
  let id := PathValueId put in
  let res := APIUpdateScript s (Some req) put w in
  validatePath (req_Path req) = None ->
  GetScript (db w) id = Some existing ->
  updateHash req existing = Some passwordHash ->
  path_free_for (db w) id (req_Path req) ->
  Script.Path existing <> req_Path req ->
  (forall sc, sc ∈ scripts (db w) -> Script.Path sc = Script.Path existing ->
              Script.ID sc = id) ->
  (forall get,
     (if negb (HasPrefix (URLPath get) "/") then "/" +:+ URLPath get else URLPath get)
     = Script.Path existing ->
     (HandleScript s get res.2).1 = HttpError "Script not found" StatusNotFound)
  /\ (exists row,
        GetScript (db res.2) id = Some row
        /\ Script.ID row = id
        /\ Script.Path row = req_Path req
        /\ Script.Name row = extractName (req_Path req)
        /\ Script.Content row = req_Content req
        /\ Script.Favorite row = Script.Favorite existing
        /\ Script.CreatedAt row = Script.CreatedAt existing
        /\ Script.UpdatedAt row = time_at (ticks w))
  /\ (forall id', id' <> id -> GetScript (db res.2) id' = GetScript (db w) id')
  /\ length (scripts (db res.2)) = length (scripts (db w)).
Proof.
  intros id res Hvalid Hexisting Hhash Hfree Hmoved Honly.
  destruct (APIUpdateScript_success s req put w existing passwordHash
              Hvalid Hexisting Hhash Hfree) as (_ & Hscripts & _).
  fold res id in Hscripts.
  set (p := updateParams req id passwordHash (time_at (ticks w))) in *.
  assert (Hid : Script.ID existing = id).
  { unfold GetScript in Hexisting. apply find_some in Hexisting as [_ Hid].
    by apply bool_decide_eq_true in Hid. }
  split_and!.
  - intros get Hget. unfold HandleScript. rewrite Hget. run_handler.
    unfold GetScriptByPath. rewrite Hscripts.
    by rewrite (find_updated_old_path p _ (Script.Path existing)).
  - exists (apply_update p existing). split.
    + unfold GetScript. rewrite Hscripts. by apply (find_updated_by_id p).
    + unfold apply_update. rewrite bool_decide_eq_true_2 by done. by split_and!.
  - intros id' Hne. unfold GetScript. rewrite Hscripts.
    by apply (find_updated_other p).
  - by rewrite Hscripts, length_map.
Qed.

End update_refusals.

Lemma APIUpdateScript_move_witness :
  (@HandleScript exampleLibs demoServer (demoGet "/x.sh" [] [])
     (@APIUpdateScript exampleLibs demoServer (Some demoMove) (demoPut "s-pub") demoWorld).2).1
  = HttpError "Script not found" StatusNotFound.
Proof.
  refine (proj1 (@APIUpdateScript_move exampleLibs demoServer demoMove (demoPut "s-pub")
                   demoWorld (demoScript "s-pub" "/x.sh" "x.sh" "echo x" 0 None) None
                   _ _ _ _ _ _) (demoGet "/x.sh" [] []) _).
  - reflexivity.
  - reflexivity.
  - reflexivity.
  - repeat constructor; discriminate.
  - discriminate.
  - intros sc Hsc Hpath. simpl in Hsc.
    repeat (apply elem_of_cons in Hsc as [-> | Hsc]; [first [reflexivity | discriminate]|]).
    by apply elem_of_nil in Hsc.
  - reflexivity.
Defined.

(* ===================================================================== *)
(** * Names and parent paths of validated paths *)
(* ===================================================================== *)

Section names.

Lemma HasSuffix_inv (s suffix : string) :
  HasSuffix s suffix = true -> exists a, s = a +:+ suffix.
Proof.
  unfold HasSuffix. intros H. apply andb_true_iff in H as [_ H].
  apply bool_decide_eq_true in H.
  set (k := String.length s - String.length suffix) in *.
  exists (slice_to k s). rewrite <- H. symmetry. apply slice_to_from.
Qed.

Lemma append_nonempty_r (a b : string) : b <> "" -> a +:+ b <> "".
Proof.
  intros Hb Heq. apply (f_equal String.length) in Heq. rewrite length_append in Heq.
  destruct b; [done|]. simpl in Heq. lia.
Qed.

(** A path that ends in [.sh] has no trailing slash to strip. *)
Lemma strip_trailing_slashes_sh (a : string) :
  strip_trailing_slashes (a +:+ ".sh") = a +:+ ".sh".
Proof.
  induction a as [|c a IH]; [done|].
  rewrite append_cons. cbn [strip_trailing_slashes]. rewrite IH.
  rewrite (bool_decide_eq_false_2 (a +:+ ".sh" = "")); [done|].
  by apply append_nonempty_r.
Qed.

Lemma last_cons_nonempty {A : Type} (x d : A) (l : list A) :
  l <> [] -> List.last (x :: l) d = List.last l d.
Proof. by destruct l. Qed.

Lemma split_go_app_segment (a b cur : string) :
  segment b ->
  split_go "/" (a +:+ b) 0 cur
  = removelast (split_go "/" a 0 cur) ++ [List.last (split_go "/" a 0 cur) "" +:+ b].
Proof.
  intros Hb. revert cur. induction a as [|c a IH]; intros cur.
  - simpl. change ("" +:+ b) with b. by apply split_go_segment.
  - rewrite append_cons. cbn [split_go]. rewrite !HasPrefix_slash_cons.
    case_bool_decide; [|apply IH].
    cbn [String.length Nat.sub]. rewrite IH.
    pose proof (split_go_nonempty "/" a 0 "") as Hne.
    by destruct (split_go "/" a 0 "") as [|y l].
Qed.

Lemma last_Split_app_segment (a b : string) :
  segment b -> List.last (Split (a +:+ b) "/") "" = List.last (Split a "/") "" +:+ b.
Proof.
  intros Hb. unfold Split. rewrite split_go_app_segment by done.
  by rewrite last_last.
Qed.

Lemma Split_leading_slash (q : string) : Split ("/" +:+ q) "/" = "" :: Split q "/".
Proof. done. Qed.

Lemma last_elem_of {A : Type} (l : list A) (d : A) : l <> [] -> List.last l d ∈ l.
Proof.
  induction l as [|x l IH]; [done|]. intros _.
  destruct l as [|y l]; [by left|]. right. by apply IH.
Qed.

Lemma take_removelast {A : Type} (l : list A) : take (length l - 1) l = removelast l.
Proof.
  induction l as [|x l IH]; [done|].
  destruct l as [|y l]; [done|].
  cbn [length removelast] in *. rewrite <- IH.
  replace (S (S (length l)) - 1) with (S (S (length l) - 1)) by lia. done.
Qed.

(** X23. The name and the parent of a validated path.  For every path
    [validatePath] accepts, [extractName] is the last of the segments
    the path splits into: it holds no slash, ends in [.sh], and is the
    segment [ensureFolders] would name a folder after at that depth;
    and the path is the parent path ([getParentPath]) followed by that
    name, with a slash in between when the path has a directory part:
    the name and the parent path together lose nothing of the path. *)
Theorem extractName_last_segment (path : string) :
  let parts := Split (TrimPrefix path "/") "/" in
  validatePath path = None ->
  extractName path = List.last parts ""
  /\ extractName path = folderSegment parts (length parts)
  /\ segment (extractName path)
  /\ HasSuffix (extractName path) ".sh" = true
  /\ getParentPath path = (if (length parts <=? 1)%nat then "/"
                           else folderPrefix parts (length parts - 1))
  /\ path = getParentPath path
            +:+ (if (length parts <=? 1)%nat then "" else "/")
            +:+ extractName path.
Proof.
  intros parts Hvalid.
  apply validatePath_None in Hvalid as (Hslash & Hsh & _).
  destruct (HasPrefix_slash_inv _ Hslash) as [q Hq].
  assert (Hparts : parts = Split q "/").
  { subst parts. by rewrite Hq, TrimPrefix_append. }
  assert (Hne : parts <> []) by (rewrite Hparts; apply split_go_nonempty).
  assert (Hqsh : exists a, q = a +:+ ".sh").
  { destruct (HasSuffix_inv _ _ Hsh) as [a Ha]. rewrite Hq in Ha.
    destruct a as [|c a].
    - change (String "/" q = ".sh") in Ha. discriminate.
    - change (String "/" q = String c (a +:+ ".sh")) in Ha.
      injection Ha as _ Ha. by exists a. }
  destruct Hqsh as [a Ha].
  assert (Hlast : List.last parts "" = List.last (Split a "/") "" +:+ ".sh").
  { rewrite Hparts, Ha. by apply last_Split_app_segment. }
  assert (Hstrip : strip_trailing_slashes path = path).
  { destruct (HasSuffix_inv _ _ Hsh) as [b Hb]. rewrite Hb.
    apply strip_trailing_slashes_sh. }
  assert (Hsplit : Split path "/" = "" :: parts).
  { rewrite Hparts, Hq. apply Split_leading_slash. }
  assert (Hname : extractName path = List.last parts "").
  { unfold extractName, filepath_Base.
    rewrite bool_decide_eq_false_2 by (by eapply HasPrefix_nonempty; [|exact Hslash]).
    rewrite Hstrip, Hsplit, last_cons_nonempty by done.
    rewrite bool_decide_eq_false_2; [done|].
    rewrite Hlast. by apply append_nonempty_r. }
  assert (Hparent : getParentPath path
                    = (if (length parts <=? 1)%nat then "/"
                       else folderPrefix parts (length parts - 1))).
  { unfold getParentPath. fold parts.
    rewrite bool_decide_eq_false_2; [done|].
    intros Heq. by rewrite Heq in Hsh. }
  rewrite Hname. split_and!; try done.
  - unfold folderSegment. destruct parts as [|x l] using rev_ind; [done|].
    rewrite last_last, length_app. simpl.
    replace (length l + 1 - 1) with (length l) by lia.
    by rewrite app_nth2, Nat.sub_diag by lia.
  - pose proof (Split_segments (TrimPrefix path "/")) as Hseg. fold parts in Hseg.
    rewrite Forall_forall in Hseg. apply Hseg. by apply last_elem_of.
  - rewrite Hlast. apply HasSuffix_append.
  - rewrite Hparent.
    assert (Hjoin : "/" +:+ Join parts "/" = path).
    { rewrite Hparts, Join_Split by done. by rewrite Hq. }
    destruct (length parts <=? 1)%nat eqn:Hlen.
    + apply Nat.leb_le in Hlen.
      destruct parts as [|x [|y l]]; [done | | simpl in Hlen; lia].
      simpl in *. by rewrite <- Hjoin.
    + apply Nat.leb_gt in Hlen. rewrite <- Hjoin at 1.
      unfold folderPrefix. rewrite take_removelast.
      rewrite (app_removelast_last "" Hne) at 1.
      rewrite Join_snoc; [by rewrite !append_assoc|].
      intros Hnil. rewrite <- take_removelast in Hnil.
      apply (f_equal length) in Hnil. rewrite length_take in Hnil. simpl in Hnil. lia.
Qed.

End names.

Lemma extractName_last_segment_witness :
  extractName "/tools/net/ping.sh" = "ping.sh".
Proof.
  refine (proj1 (extractName_last_segment "/tools/net/ping.sh" _)).
  reflexivity.
Defined.

(* ===================================================================== *)
(** * Start-up *)
(* ===================================================================== *)

Lemma getEnv_nonempty (env : string -> string) (key fallback : string) :
  fallback <> "" -> getEnv env key fallback <> "".
Proof.
  intros Hf. unfold getEnv. cbv zeta. case_bool_decide; simpl; done.
Qed.

Lemma getEnv_empty (env : string -> string) (key : string) : getEnv env key "" = env key.
Proof. unfold getEnv. cbv zeta. by case_bool_decide. Qed.

(** X24. The start-up warning tells the truth.  [main] logs its warning
    about unrestricted API access exactly when the admin token taken
    from the environment is empty (unset or set to nothing), and that
    is exactly when [adminOnly], on the server [srv.New] builds from
    that configuration, lets every request through; otherwise a request
    without credentials is answered 401.  The host name and the port
    are never empty: an unset or empty variable gives [sh.huny.dev] and
    [:8000]. *)
Theorem main_startup_guard (env : string -> string) :
  let st := main_startup env in
  let s := New (st_config st) in
  AdminToken s = env "ADMIN_TOKEN"
  /\ (st_warns st = true <-> env "ADMIN_TOKEN" = "")
  /\ (st_warns st = true <-> forall next r w, adminOnly s next r w = next r w)
  /\ (st_warns st = false ->
      forall next w, adminOnly s next bareRequest w
                     = (HttpError "Unauthorized" StatusUnauthorized, w))
  /\ Hostname s <> ""
  /\ (env "HOSTNAME" = "" -> Hostname s = "sh.huny.dev")
  /\ (exists port, st_addr st = ":" +:+ port /\ port <> ""
                   /\ (env "PORT" = "" -> port = "8000")).
Proof.
  intros st s.
  assert (Htoken : AdminToken s = env "ADMIN_TOKEN").
  { subst s st. unfold main_startup, New. cbn [st_config cfg_AdminToken AdminToken].
    apply getEnv_empty. }
  assert (Hwarn : st_warns st = true <-> env "ADMIN_TOKEN" = "").
  { subst s st. unfold main_startup. cbn [st_warns].
    by rewrite bool_decide_eq_true, getEnv_empty. }
  assert (Hclosed : env "ADMIN_TOKEN" <> "" ->
            forall next w, adminOnly s next bareRequest w
                           = (HttpError "Unauthorized" StatusUnauthorized, w)).
  { intros Hset next w. unfold adminOnly. rewrite Htoken. simpl.
    rewrite (bool_decide_eq_false_2 _ Hset). simpl.
    rewrite bool_decide_eq_false_2; [done|]. by intros Heq. }
  split_and!; try done.
  - rewrite Hwarn. split.
    + intros Hempty next r w. unfold adminOnly. rewrite Htoken.
      by rewrite (bool_decide_eq_true_2 _ Hempty).
    + intros Hopen. destruct (decide (env "ADMIN_TOKEN" = "")) as [|Hset]; [done|].
      specialize (Hclosed Hset (fun _ => mret (PlainText None "")) emptyWorld).
      rewrite Hopen in Hclosed. discriminate.
  - intros Hno. apply Hclosed. intros Hempty. apply Hwarn in Hempty. congruence.
  - subst s st. unfold main_startup, New. simpl. by apply getEnv_nonempty.
  - intros Hunset. subst s st. unfold main_startup, New, getEnv. simpl.
    by rewrite Hunset.
  - exists (getEnv env "PORT" "8000"). split_and!.
    + done.
    + by apply getEnv_nonempty.
    + intros Hunset. unfold getEnv. by rewrite Hunset.
Qed.

(* ===================================================================== *)
(** * The life of a script *)
(* ===================================================================== *)

Section lifecycle.
Context `{!Libs}.

Lemma APIDeleteScript_run (s : Server) (foreign_keys : bool) (r : Request) (w : World)
    (script : Script.t) :
  GetScript (db w) (PathValueId r) = Some script ->
  exists d1,
    DeleteScript foreign_keys (db w) (PathValueId r) = Some d1
    /\ APIDeleteScript s foreign_keys r w
       = (NoContent,
          {| db := set_audit_log d1
                     (audit_log d1
                      ++ [scriptAudit "DELETE" (PathValueId r) (Script.Path script)
                            (time_at (ticks w))]);
             uuids := uuids w; ticks := S (ticks w) |})
    /\ scripts d1 = filter (fun sc => Script.ID sc <> PathValueId r) (scripts (db w))
    /\ folders d1 = folders (db w)
    /\ audit_log d1 = audit_log (db w).
Proof.
  intros Hget. unfold APIDeleteScript. run_handler. rewrite Hget.
  unfold DeleteScript. destruct foreign_keys; simpl; eexists; split_and!; done.
Qed.

Lemma filter_updated_appended (p : UpdateScriptParams) (l : list Script.t) (row : Script.t) :
  Script.ID row = usp_ID p ->
  Forall (fun sc => Script.ID sc <> usp_ID p) l ->
  filter (fun sc => Script.ID sc <> usp_ID p) (map (apply_update p) (l ++ [row])) = l.
Proof.
  intros Hrow Hall. rewrite map_app, filter_app. simpl.
  rewrite filter_cons_False by (rewrite apply_update_ID; by intros []).
  rewrite filter_nil, app_nil_r.
  induction Hall as [|sc l Hsc _ IH]; [done|]. simpl.
  rewrite apply_update_miss by done.
  by rewrite filter_cons_True, IH.
Qed.

(** X25. Create, update, delete.  A script created through
    [APICreateScript], then updated (possibly moved to another free
    path) through [APIUpdateScript] and deleted through
    [APIDeleteScript], each call succeeding, leaves the scripts table
    exactly as it was before the create; the audit log has grown by the
    three rows CREATE, UPDATE and DELETE for that id, in this order, with
    the path of the request, the new path and again the new path; the
    folder rows made for the create are still there. *)
Theorem script_lifecycle (s : Server) (req req' : ScriptRequest) (post put : Request)
    (w : World) (passwordHash passwordHash' : option string) (foreign_keys : bool) :
  let id := uuid_at (uuids w) in
  let w1 := (APICreateScript s (Some req) post w).2 in
  let w2 := (APIUpdateScript s (Some req') put w1).2 in
  let res := APIDeleteScript s foreign_keys put w2 in
  let row := createRow req id passwordHash (time_at (ticks w)) in
  validatePath (req_Path req) = None ->
  createHash req = Some passwordHash ->
  uuids_fresh w ->
  script_slot_free (db w) id (req_Path req) ->
  PathValueId put = id ->
  validatePath (req_Path req') = None ->
  updateHash req' row = Some passwordHash' ->
  Forall (fun sc => Script.Path sc <> req_Path req') (scripts (db w)) ->
  res.1 = NoContent
  /\ scripts (db res.2) = scripts (db w)
  /\ audit_log (db res.2)
     = audit_log (db w)
       ++ [scriptAudit "CREATE" id (req_Path req) (time_at (ticks w));
           scriptAudit "UPDATE" id (req_Path req') (time_at (ticks w1));
           scriptAudit "DELETE" id (req_Path req') (time_at (ticks w2))]
  /\ (exists created, folders (db res.2) = folders (db w) ++ created)
  /\ (forall i, 1 <= i < length (Split (TrimPrefix (req_Path req) "/") "/") ->
        is_Some (GetFolderByPath (db res.2)
                   (folderPrefix (Split (TrimPrefix (req_Path req) "/") "/") i))).
Proof.
  intros id w1 w2 res row Hvalid Hhash Hfresh Hfree Hput Hvalid' Hhash' Hfree'.
  destruct (APICreateScript_success s req post w passwordHash Hvalid Hhash Hfresh Hfree)
    as (_ & Hscripts1 & _ & Hbyid1 & _ & Haudit1 & _).
  fold w1 id row in Hscripts1, Hbyid1, Haudit1.
  assert (Hfresh1 : uuids_fresh {| db := db w; uuids := S (uuids w); ticks := S (ticks w) |})
    by (apply (uuids_fresh_later w); [done | done | lia]).
  destruct (ensureFolders_run (req_Path req) _ Hfresh1) as (_ & _ & Hext & Hall & _).
  assert (Hfolders1 : folders (db w1)
                      = folders (db (ensureFolders (req_Path req)
                           {| db := db w; uuids := S (uuids w); ticks := S (ticks w) |}).2)).
  { assert (Hrun := APICreateScript_run s req post w passwordHash Hvalid Hhash Hfresh1).
    cbv zeta in Hrun. subst w1. rewrite Hrun. unfold CreateScript.
    by destruct (existsb _ _). }
  rewrite <- Hput in Hbyid1.
  assert (Hpathfree : path_free_for (db w1) (PathValueId put) (req_Path req')).
  { unfold path_free_for. rewrite Hscripts1. apply Forall_app. split.
    - eapply Forall_impl; [exact Hfree'|]. by intros sc Hsc _.
    - constructor; [|constructor]. intros Hne. by destruct Hne. }
  destruct (APIUpdateScript_success s req' put w1 row passwordHash'
              Hvalid' Hbyid1 Hhash' Hpathfree)
    as (_ & Hscripts2 & _ & Hfolders2 & _ & Haudit2 & _).
  fold w2 in Hscripts2, Hfolders2, Haudit2.
  set (p := updateParams req' (PathValueId put) passwordHash' (time_at (ticks w1))) in *.
  assert (Hbyid2 : GetScript (db w2) (PathValueId put) = Some (apply_update p row)).
  { unfold GetScript. rewrite Hscripts2. by apply (find_updated_by_id p). }
  destruct (APIDeleteScript_run s foreign_keys put w2 _ Hbyid2)
    as (d3 & _ & Hrun3 & Hscripts3 & Hfolders3 & Haudit3).
  assert (Hnewpath : Script.Path (apply_update p row) = req_Path req').
  { apply (apply_update_hit p). exact (eq_sym Hput). }
  subst res. rewrite Hrun3. cbn [fst snd db scripts folders audit_log set_audit_log].
  split_and!.
  - done.
  - rewrite Hscripts3, Hscripts2, Hscripts1.
    apply (filter_updated_appended p); [exact (eq_sym Hput)|].
    eapply Forall_impl; [exact Hfree|]. intros sc [Hid _].
    change (Script.ID sc <> PathValueId put). by rewrite Hput.
  - rewrite Haudit3, Haudit2, Haudit1, Hnewpath, Hput. by rewrite <- !app_assoc.
  - by rewrite Hfolders3, Hfolders2, Hfolders1.
  - intros i Hi. unfold GetFolderByPath. cbn [folders set_audit_log].
    rewrite Hfolders3, Hfolders2, Hfolders1. by apply Hall.
Qed.

End lifecycle.

Lemma script_lifecycle_witness : scripts (db demoLifecycle) = scripts demoDB.
Proof.
  refine (proj1 (proj2 (@script_lifecycle exampleLibs demoServer demoMove demoOpen
                          (demoPut "") (demoPut "uuid-0") demoWorld None None true
                          _ _ _ _ _ _ _ _))).
  - reflexivity.
  - reflexivity.
  - by apply exampleLibs_uuids_fresh.
  - repeat constructor; discriminate.
  - reflexivity.
  - reflexivity.
  - reflexivity.
  - repeat constructor; discriminate.
Defined.

(* ===================================================================== *)
(** * The tree of the admin page *)
(* ===================================================================== *)

Section client_tree.
Variable inherited : string -> bool.

#[local] Instance grows_refl : Reflexive grows.
Proof. intros n. split_and!; try done. exists []. by rewrite app_nil_r. Qed.

#[local] Instance grows_trans : Transitive grows.
Proof.
  intros a b c (Hi & Hn & Hp & m & Hs) (Hi' & Hn' & Hp' & m' & Hs').
  split_and!; try congruence. exists (m ++ m'). by rewrite Hs', Hs, app_assoc.
Qed.

Lemma grows_setChild (n : ClientNode) (part : string) (child : ClientNode) :
  grows n (setChild n part child).
Proof. split_and!; try done. exists []. by rewrite app_nil_r. Qed.

Lemma grows_pushScript (s : ScriptResponse) (n : ClientNode) : grows n (pushScript s n).
Proof. split_and!; try done. by exists [s]. Qed.

Lemma grows_finish (finish : option (ClientNode -> ClientNode)) (s : ScriptResponse)
    (n : ClientNode) :
  finish = None \/ finish = Some (pushScript s) ->
  grows n (default id finish n) /\ cn_children (default id finish n) = cn_children n.
Proof. intros [-> | ->]; simpl; split; try done. apply grows_pushScript. Qed.

(** A walk only adds: whatever was reachable stays reachable, under the
    same name and path, with at least the scripts it had. *)
Lemma walk_mono (make : nat -> string -> ClientNode)
    (finish : option (ClientNode -> ClientNode)) (s : ScriptResponse)
    (rest : list string) (i : nat) (node node' : ClientNode) :
  finish = None \/ finish = Some (pushScript s) ->
  walk inherited make finish rest i node = Some node' ->
  forall q n, reach node q = Some n -> exists n', reach node' q = Some n' /\ grows n n'.
Proof.
  intros Hfinish. revert i node node'.
  induction rest as [|part rest IH]; intros i node node' Hwalk q n Hq.
  - simpl in Hwalk. injection Hwalk as <-.
    destruct (grows_finish finish s node Hfinish) as [Hg Hc].
    destruct q as [|p q]; simpl in *.
    + injection Hq as <-. eauto.
    + rewrite Hc. exists n. split; [done | reflexivity].
  - cbn [walk] in Hwalk.
    assert (Hset : forall child child',
              (cn_children node !! part = Some child \/ cn_children node !! part = None) ->
              (forall q n, reach child q = Some n ->
                 cn_children node !! part = Some child ->
                 exists n', reach child' q = Some n' /\ grows n n') ->
              exists n', reach (setChild node part child') q = Some n' /\ grows n n').
    { intros child child' Hlook Hchild. destruct q as [|p q]; simpl in *.
      - injection Hq as <-. eexists. split; [done|]. apply grows_setChild.
      - destruct (decide (p = part)) as [->|Hne].
        + rewrite lookup_insert_eq. simpl.
          destruct Hlook as [Hown|Hnone].
          * rewrite Hown in Hq. simpl in Hq. by apply Hchild.
          * by rewrite Hnone in Hq.
        + rewrite lookup_insert_ne by done.
          exists n. split; [done | reflexivity]. }
    destruct (cn_children node !! part) as [child|] eqn:Hchild.
    + destruct (walk inherited make finish rest (S i) child) as [child'|] eqn:Hw;
        [|done].
      simpl in Hwalk. injection Hwalk as <-.
      apply (Hset child child'); [by left|]. intros q' n0 Hq' _. by eapply IH.
    + destruct (inherited part).
      * destruct rest, finish; try done. injection Hwalk as <-.
        exists n. split; [done | reflexivity].
      * destruct (walk inherited make finish rest (S i) (make i part)) as [child'|] eqn:Hw;
          [|done].
        simpl in Hwalk. injection Hwalk as <-.
        apply (Hset (make i part) child'); [by right|]. done.
Qed.

(** A walk that ends in a push reaches the node it pushed to. *)
Lemma walk_reach (make : nat -> string -> ClientNode) (s : ScriptResponse)
    (rest : list string) (i : nat) (node node' : ClientNode) :
  walk inherited make (Some (pushScript s)) rest i node = Some node' ->
  exists n, reach node' rest = Some (pushScript s n).
Proof.
  revert i node node'. induction rest as [|part rest IH]; intros i node node' Hwalk.
  - simpl in Hwalk. injection Hwalk as <-. by exists node.
  - cbn [walk] in Hwalk.
    destruct (cn_children node !! part) as [child|] eqn:Hchild.
    + destruct (walk inherited make _ rest (S i) child) as [child'|] eqn:Hw; [|done].
      simpl in Hwalk. injection Hwalk as <-.
      destruct (IH _ _ _ Hw) as [n Hn]. exists n. simpl.
      by rewrite lookup_insert_eq.
    + destruct (inherited part); [by destruct rest|].
      destruct (walk inherited make _ rest (S i) (make i part)) as [child'|] eqn:Hw; [|done].
      simpl in Hwalk. injection Hwalk as <-.
      destruct (IH _ _ _ Hw) as [n Hn]. exists n. simpl.
      by rewrite lookup_insert_eq.
Qed.

(** A walk over parts none of which is found on the prototype succeeds
    and makes all of them reachable. *)
Lemma walk_total (make : nat -> string -> ClientNode)
    (finish : option (ClientNode -> ClientNode)) (rest : list string) (i : nat)
    (node : ClientNode) :
  Forall (fun p => inherited p = false) rest ->
  exists node', walk inherited make finish rest i node = Some node'
                /\ is_Some (reach node' rest).
Proof.
  intros Hrest. revert i node.
  induction Hrest as [|part rest Hpart _ IH]; intros i node.
  - simpl. eauto.
  - cbn [walk]. rewrite Hpart.
    destruct (cn_children node !! part) as [child|].
    + destruct (IH (S i) child) as (child' & -> & Hreach). simpl.
      eexists. split; [done|]. simpl. by rewrite lookup_insert_eq.
    + destruct (IH (S i) (make i part)) as (child' & -> & Hreach). simpl.
      eexists. split; [done|]. simpl. by rewrite lookup_insert_eq.
Qed.

Lemma reach_app (node : ClientNode) (q1 q2 : list string) :
  reach node (q1 ++ q2) = reach node q1 ≫= fun n => reach n q2.
Proof.
  revert node. induction q1 as [|p q1 IH]; intros node; [done|].
  simpl. destruct (cn_children node !! p) as [child|]; simpl; [apply IH | done].
Qed.

Lemma reach_take (node n : ClientNode) (q : list string) (k : nat) :
  reach node q = Some n -> is_Some (reach node (take k q)).
Proof.
  intros Hq. rewrite <- (take_drop k q), reach_app in Hq.
  destruct (reach node (take k q)); [eauto | done].
Qed.

Lemma named_by_path_child (above : list string) (node child : ClientNode) (part : string) :
  named_by_path above node -> cn_children node !! part = Some child ->
  named_by_path (above ++ [part]) child.
Proof.
  intros Hnode Hchild q n Hq Hreach.
  destruct (Hnode (part :: q) n) as [Hname Hpath]; [done | by simpl; rewrite Hchild |].
  split.
  - rewrite Hname. by destruct q.
  - by rewrite Hpath, <- app_assoc.
Qed.

Lemma named_by_path_setChild (above : list string) (node child' : ClientNode)
    (part : string) :
  named_by_path above node ->
  named_by_path (above ++ [part]) child' ->
  cn_name child' = part -> cn_path child' = "/" +:+ Join (above ++ [part]) "/" ->
  named_by_path above (setChild node part child').
Proof.
  intros Hnode Hchild Hname Hpath q n Hq Hreach.
  destruct q as [|p q]; [done|]. simpl in Hreach.
  destruct (decide (p = part)) as [->|Hne].
  - rewrite lookup_insert_eq in Hreach. simpl in Hreach.
    destruct q as [|p' q].
    + injection Hreach as <-. done.
    + destruct (Hchild (p' :: q) n) as [Hn Hp]; [done | done |].
      split; [done|]. by rewrite Hp, <- app_assoc.
  - rewrite lookup_insert_ne in Hreach by done.
    apply (Hnode (p :: q) n); done.
Qed.

(** A walk names the nodes it makes after their segments and gives them
    the path that leads to them. *)
Lemma walk_named (parts : list string) (make : nat -> string -> ClientNode)
    (finish : option (ClientNode -> ClientNode)) (s : ScriptResponse)
    (rest : list string) (i : nat) (node node' : ClientNode) :
  (forall j part, cn_name (make j part) = part
                  /\ cn_path (make j part) = "/" +:+ Join (take (j + 1) parts) "/"
                  /\ cn_children (make j part) = ∅) ->
  finish = None \/ finish = Some (pushScript s) ->
  drop i parts = rest ->
  named_by_path (take i parts) node ->
  walk inherited make finish rest i node = Some node' ->
  named_by_path (take i parts) node'.
Proof.
  intros Hmake Hfinish. revert i node node'.
  induction rest as [|part rest IH]; intros i node node' Hdrop Hnode Hwalk.
  - simpl in Hwalk. injection Hwalk as <-.
    destruct (grows_finish finish s node Hfinish) as [_ Hc].
    intros q n Hq Hreach. destruct q as [|p q]; [done|].
    simpl in Hreach. rewrite Hc in Hreach. by apply (Hnode (p :: q) n).
  - assert (Hpart : parts !! i = Some part).
    { rewrite <- (Nat.add_0_r i), <- lookup_drop, Hdrop. done. }
    assert (Htake : take (S i) parts = take i parts ++ [part]) by (by apply take_S_r).
    assert (Hdrop' : drop (S i) parts = rest).
    { rewrite (drop_S _ _ _ Hpart) in Hdrop. by injection Hdrop. }
    cbn [walk] in Hwalk.
    destruct (cn_children node !! part) as [child|] eqn:Hchild.
    + destruct (walk inherited make finish rest (S i) child) as [child'|] eqn:Hw;
        [|done].
      simpl in Hwalk. injection Hwalk as <-.
      assert (Hnamed : named_by_path (take (S i) parts) child).
      { rewrite Htake. by eapply named_by_path_child. }
      destruct (walk_mono make finish s rest (S i) child child' Hfinish Hw [] child)
        as (n' & Hn' & Hi & Hn & Hp & _); [done|].
      simpl in Hn'. injection Hn' as <-.
      destruct (Hnode [part] child) as [Hcn Hcp]; [done | by simpl; rewrite Hchild |].
      apply named_by_path_setChild; try done.
      * rewrite <- Htake. by eapply IH.
      * by rewrite Hn, Hcn.
      * by rewrite Hp, Hcp.
    + destruct (inherited part).
      * destruct rest, finish; try done. by injection Hwalk as <-.
      * destruct (walk inherited make finish rest (S i) (make i part)) as [child'|] eqn:Hw;
          [|done].
        simpl in Hwalk. injection Hwalk as <-.
        destruct (Hmake i part) as (Hmn & Hmp & Hmc).
        assert (Hnamed : named_by_path (take (S i) parts) (make i part)).
        { intros q n Hq Hreach. destruct q as [|p q]; [done|].
          simpl in Hreach. by rewrite Hmc, lookup_empty in Hreach. }
        destruct (walk_mono make finish s rest (S i) (make i part) child' Hfinish Hw []
                    (make i part)) as (n' & Hn' & Hi & Hn & Hp & _); [done|].
        simpl in Hn'. injection Hn' as <-.
        apply named_by_path_setChild; try done.
        -- rewrite <- Htake. by eapply IH.
        -- by rewrite Hn, Hmn.
        -- by rewrite Hp, Hmp, Nat.add_1_r, Htake.
Qed.

#[local] Instance extends_refl : Reflexive extends.
Proof. intros t q n Hq. exists n. split; [done | reflexivity]. Qed.

#[local] Instance extends_trans : Transitive extends.
Proof.
  intros a b c Hab Hbc q n Hq.
  destruct (Hab q n Hq) as (n1 & Hq1 & Hg1).
  destruct (Hbc q n1 Hq1) as (n2 & Hq2 & Hg2).
  exists n2. split; [done | by etrans].
Qed.

Lemma addFolder_spec (tree tree' : ClientNode) (f : FolderResponse) :
  addFolder inherited tree f = Some tree' ->
  extends tree tree' /\ (named_by_path [] tree -> named_by_path [] tree').
Proof.
  unfold addFolder. intros Hwalk. split.
  - intros q n Hq.
    by apply (walk_mono _ None (scriptToResponse zeroScript) _ _ _ _ (or_introl eq_refl) Hwalk).
  - intros Hnamed.
    apply (walk_named (jsParts (fr_Path f)) (folderChild f (jsParts (fr_Path f))) None
             (scriptToResponse zeroScript) (jsParts (fr_Path f)) 0 tree tree');
      try done. by left.
Qed.

Lemma addScript_spec (tree tree' : ClientNode) (s : ScriptResponse) :
  addScript inherited tree s = Some tree' ->
  extends tree tree' /\ (named_by_path [] tree -> named_by_path [] tree')
  /\ exists n, reach tree' (dirParts (sr_Path s)) = Some n /\ s ∈ cn_scripts n.
Proof.
  unfold addScript. fold (dirParts (sr_Path s)). intros Hwalk. split_and!.
  - intros q n Hq.
    by apply (walk_mono _ _ s _ _ _ _ (or_intror eq_refl) Hwalk).
  - intros Hnamed.
    apply (walk_named (dirParts (sr_Path s)) (dirChild (dirParts (sr_Path s)))
             (Some (pushScript s)) s (dirParts (sr_Path s)) 0 tree tree');
      try done. by right.
  - destruct (walk_reach _ _ _ _ _ _ Hwalk) as [n Hn].
    eexists. split; [exact Hn|]. simpl. apply elem_of_app. right. by left.
Qed.

Lemma forEach_extends {A : Type} (body : ClientNode -> A -> option ClientNode)
    (xs : list A) (tree tree' : ClientNode) :
  (forall t x t', body t x = Some t' ->
     extends t t' /\ (named_by_path [] t -> named_by_path [] t')) ->
  forEach body xs tree = Some tree' ->
  extends tree tree' /\ (named_by_path [] tree -> named_by_path [] tree').
Proof.
  intros Hbody. revert tree. induction xs as [|x xs IH]; intros tree Hrun.
  - simpl in Hrun. injection Hrun as <-. split; [reflexivity | done].
  - simpl in Hrun. destruct (body tree x) as [t1|] eqn:Hx; [|done]. simpl in Hrun.
    destruct (Hbody _ _ _ Hx) as [He Hn]. destruct (IH _ Hrun) as [He' Hn'].
    split; [by etrans | auto].
Qed.

Lemma forEach_total {A : Type} (body : ClientNode -> A -> option ClientNode)
    (xs : list A) (tree : ClientNode) :
  (forall x, x ∈ xs -> forall t, is_Some (body t x)) ->
  is_Some (forEach body xs tree).
Proof.
  revert tree. induction xs as [|x xs IH]; intros tree Hall; [by eexists|].
  simpl. destruct (Hall x (list_elem_of_here _ _) tree) as [t1 ->]. simpl.
  apply IH. intros y Hy. apply Hall. by right.
Qed.

Lemma forEach_scripts (xs : list ScriptResponse) (tree tree' : ClientNode) :
  forEach (addScript inherited) xs tree = Some tree' ->
  forall s, s ∈ xs ->
    exists n, reach tree' (dirParts (sr_Path s)) = Some n /\ s ∈ cn_scripts n.
Proof.
  revert tree. induction xs as [|x xs IH]; intros tree Hrun s Hs.
  - by apply elem_of_nil in Hs.
  - simpl in Hrun. destruct (addScript inherited tree x) as [t1|] eqn:Hx; [|done].
    simpl in Hrun. apply elem_of_cons in Hs as [->|Hs]; [|by eapply IH].
    destruct (addScript_spec _ _ _ Hx) as (_ & _ & n & Hn & Hin).
    destruct (forEach_extends (addScript inherited) xs t1 tree') as [Hext _]; [|done|].
    { intros t y t' Hy. destruct (addScript_spec _ _ _ Hy) as (? & ? & _). done. }
    destruct (Hext _ _ Hn) as (n' & Hn' & _ & _ & _ & more & Hmore).
    exists n'. split; [done|]. rewrite Hmore. apply elem_of_app. by left.
Qed.

Lemma forEach_folders (xs : list FolderResponse) (tree tree' : ClientNode) :
  forEach (addFolder inherited) xs tree = Some tree' ->
  forall f, f ∈ xs -> Forall (fun p => inherited p = false) (jsParts (fr_Path f)) ->
    is_Some (reach tree' (jsParts (fr_Path f))).
Proof.
  revert tree. induction xs as [|x xs IH]; intros tree Hrun f Hf Hparts.
  - by apply elem_of_nil in Hf.
  - simpl in Hrun. destruct (addFolder inherited tree x) as [t1|] eqn:Hx; [|done].
    simpl in Hrun. apply elem_of_cons in Hf as [->|Hf]; [|by eapply IH].
    destruct (walk_total (folderChild x (jsParts (fr_Path x))) None
                (jsParts (fr_Path x)) 0 tree Hparts) as (t1' & Hwalk & [n Hn]).
    unfold addFolder in Hx. rewrite Hx in Hwalk. injection Hwalk as <-.
    destruct (forEach_extends (addFolder inherited) xs t1 tree') as [Hext _]; [|done|].
    { intros t y t' Hy. by apply addFolder_spec in Hy. }
    destruct (Hext _ _ Hn) as (n' & Hn' & _). eauto.
Qed.

(** The tree [renderTree] builds from any lists of folders and scripts. *)
Lemma renderTree_spec (folders : list FolderResponse) (scripts : list ScriptResponse)
    (tree : ClientNode) :
  renderTree inherited folders scripts = Some tree ->
  named_by_path [] tree
  /\ (forall s, s ∈ scripts ->
        exists n, reach tree (dirParts (sr_Path s)) = Some n /\ s ∈ cn_scripts n)
  /\ (forall f, f ∈ folders -> Forall (fun p => inherited p = false) (jsParts (fr_Path f)) ->
        is_Some (reach tree (jsParts (fr_Path f)))).
Proof.
  unfold renderTree. intros Hrun.
  destruct (forEach (addFolder inherited) folders emptyTree) as [t1|] eqn:Hf; [|done].
  simpl in Hrun.
  destruct (forEach_extends (addFolder inherited) folders emptyTree t1) as [_ Hn1]; [|done|].
  { intros t y t' Hy. by apply addFolder_spec in Hy. }
  destruct (forEach_extends (addScript inherited) scripts t1 tree) as [Hext Hn2]; [|done|].
  { intros t y t' Hy. destruct (addScript_spec _ _ _ Hy) as (? & ? & _). done. }
  split_and!.
  - apply Hn2, Hn1. intros q n Hq Hreach. destruct q as [|p q]; [done|].
    simpl in Hreach. by rewrite lookup_empty in Hreach.
  - by eapply forEach_scripts.
  - intros f Hin Hparts. destruct (forEach_folders _ _ _ Hf f Hin Hparts) as [n Hn].
    destruct (Hext _ _ Hn) as (n' & Hn' & _). eauto.
Qed.

Lemma renderTree_total (folders : list FolderResponse) (scripts : list ScriptResponse) :
  (forall f, f ∈ folders -> Forall (fun p => inherited p = false) (jsParts (fr_Path f))) ->
  (forall s, s ∈ scripts -> Forall (fun p => inherited p = false) (dirParts (sr_Path s))) ->
  is_Some (renderTree inherited folders scripts).
Proof.
  intros Hf Hs. unfold renderTree.
  destruct (forEach_total (addFolder inherited) folders emptyTree) as [t1 Ht1].
  { intros f Hin t. unfold addFolder.
    destruct (walk_total (folderChild f (jsParts (fr_Path f))) None
                (jsParts (fr_Path f)) 0 t (Hf f Hin)) as (t' & -> & _). eauto. }
  rewrite Ht1. simpl. apply forEach_total.
  intros s Hin t. unfold addScript. fold (dirParts (sr_Path s)).
  destruct (walk_total (dirChild (dirParts (sr_Path s))) (Some (pushScript s))
              (dirParts (sr_Path s)) 0 t (Hs s Hin)) as (t' & -> & _). eauto.
Qed.

End client_tree.

(** X26. The admin page makes the folders the server does not.  From
    the scripts and folders it fetches, [renderTree] builds, unless a
    path segment is the name of a property of [Object.prototype], a
    tree in which every script sits in the node reached from the top
    along the directory segments of its path, whether or not any folder
    row exists for them; each node on the way is named after its segment
    and carries the path made of the segments down to it; and every
    folder row has its node. *)
Theorem renderTree_implicit_folders (inherited : string -> bool) (d : DB) :
  (forall f, f ∈ folders d ->
     Forall (fun p => inherited p = false) (jsParts (Folder.Path f))) ->
  (forall sc, sc ∈ scripts d ->
     Forall (fun p => inherited p = false) (dirParts (Script.Path sc))) ->
  exists tree,
    renderTree inherited (fetchedFolders d) (fetchedScripts d) = Some tree
    /\ (forall sc, sc ∈ scripts d ->
          (exists n, reach tree (dirParts (Script.Path sc)) = Some n
                     /\ scriptToResponse sc ∈ cn_scripts n)
          /\ forall k, 1 <= k <= length (dirParts (Script.Path sc)) ->
               exists n, reach tree (take k (dirParts (Script.Path sc))) = Some n
                         /\ cn_name n = List.last (take k (dirParts (Script.Path sc))) ""
                         /\ cn_path n
                            = "/" +:+ Join (take k (dirParts (Script.Path sc))) "/")
    /\ (forall f, f ∈ folders d -> is_Some (reach tree (jsParts (Folder.Path f)))).
Proof.
  intros Hfolders Hscripts.
  assert (Hf : forall f, f ∈ fetchedFolders d ->
            exists x, x ∈ folders d /\ f = folderResponse x).
  { intros f Hin. apply list_elem_of_fmap in Hin as (x & -> & Hx).
    apply elem_of_ListFolders in Hx. eauto. }
  assert (Hs : forall s, s ∈ fetchedScripts d ->
            exists x, x ∈ scripts d /\ s = scriptToResponse x).
  { intros s Hin. apply list_elem_of_fmap in Hin as (x & -> & Hx).
    apply elem_of_ListScripts in Hx. eauto. }
  destruct (renderTree_total inherited (fetchedFolders d) (fetchedScripts d))
    as [tree Htree].
  { intros f Hin. destruct (Hf f Hin) as (x & Hx & ->). by apply Hfolders. }
  { intros s Hin. destruct (Hs s Hin) as (x & Hx & ->). by apply Hscripts. }
  exists tree. split; [done|].
  destruct (renderTree_spec inherited _ _ tree Htree) as (Hnamed & Hin_tree & Hfolder_nodes).
  split.
  - intros sc Hsc.
    assert (Hfetched : scriptToResponse sc ∈ fetchedScripts d).
    { apply list_elem_of_fmap. exists sc. split; [done|]. by apply elem_of_ListScripts. }
    destruct (Hin_tree _ Hfetched) as (n & Hn & Hin). cbn [sr_Path scriptToResponse] in Hn.
    split; [by exists n|].
    intros k Hk.
    destruct (reach_take tree n _ k Hn) as [m Hm]. exists m. split; [done|].
    apply Hnamed; [|done].
    intros Hnil. apply (f_equal length) in Hnil. rewrite length_take in Hnil.
    simpl in Hnil. lia.
  - intros f Hin.
    assert (Hfetched : folderResponse f ∈ fetchedFolders d).
    { apply list_elem_of_fmap. exists f. split; [done|]. by apply elem_of_ListFolders. }
    apply (Hfolder_nodes _ Hfetched). cbn [fr_Path folderResponse]. by apply Hfolders.
Qed.

Lemma renderTree_implicit_folders_witness :
  exists tree,
    renderTree onPrototype (fetchedFolders orphanDB) (fetchedScripts orphanDB) = Some tree
    /\ exists n, reach tree ["a"; "b"] = Some n /\ cn_path n = "/a/b".
Proof.
  destruct (renderTree_implicit_folders onPrototype orphanDB) as (tree & Htree & Hscripts & _).
  - intros f Hin. by apply elem_of_nil in Hin.
  - intros sc Hin. apply list_elem_of_singleton in Hin as ->.
    repeat constructor.
  - exists tree. split; [exact Htree|].
    destruct (Hscripts _ (list_elem_of_here _ _)) as [_ Hchain].
    destruct (Hchain 2) as (n & Hn & _ & Hpath); [vm_compute; lia|].
    exists n. split; [exact Hn | exact Hpath].
Defined.

(** A script below a directory called [constructor] is more than the
    page can take: the walk leaves the tree for [Object], pushing the
    script to it throws, and no tree is rendered at all. *)
Example renderTree_prototype_segment :
  validatePath "/constructor/x.sh" = None
  /\ renderTree onPrototype []
       [scriptToResponse (demoScript "s-1" "/constructor/x.sh" "x.sh" "echo x" 0 None);
        scriptToResponse (demoScript "s-2" "/y.sh" "y.sh" "echo y" 0 None)]
     = None.
Proof. split; reflexivity. Qed.
